(** * github-auth: GitHub App and Installation authentication

    A shallow embedding of the packages [endpoint], [jwt], [app] and
    [app/inst] of beatlabs/github-auth, and the properties of the
    credential lifecycle proved about them.

    Go strings and byte slices are Rocq [string]s (sequences of 8-bit
    characters), [int64] and [time.Duration] values are integers in [Z],
    Go maps are stdpp [gmap]s, a function returning [(T, error)] returns a
    [Result T], and code that reads the clock or talks to the network
    threads a [World] through a small state monad. *)

From Stdlib Require Import ZArith NArith String Ascii List Bool Lia DecimalString.
From stdpp Require Import gmap strings list fin_maps.
Import ListNotations.

#[local] Set Warnings "-register-all".
#[local] Open Scope string_scope.

(** ** Errors and results *)

(** A Go [error] value.  [Error_text] is its [Error()] method. *)
Inductive error : Type :=
| errorString (msg : string)
    (* errors.New(msg), fmt.Errorf(...) rendered to msg *)
| LibError (type msg : string)
    (* an error of a library type, e.g. json.SyntaxError, with its text *)
| RetrieveError (StatusCode : Z) (Status : string) (Body : string).
    (* &oauth2.RetrieveError{Response: resp, Body: body} *)

Inductive Result (A : Type) : Type :=
| OK (a : A)
| Err (e : error).
Arguments OK {A} a.
Arguments Err {A} e.

Definition is_OK {A} (r : Result A) : bool :=
  match r with OK _ => true | Err _ => false end.

Definition newline : string := String "010"%char EmptyString.
Definition dquote : ascii := "034"%char.
Definition backslash : ascii := "092"%char.

(** The [Error()] method.  For an [oauth2.RetrieveError] built, as here,
    from a response and a body only, jwt/config_test.go pins the text. *)
Definition Error_text (e : error) : string :=
  match e with
  | errorString msg => msg
  | LibError _ msg => msg
  | RetrieveError _ status body =>
      "oauth2: cannot fetch token: " ++ status ++ newline ++ "Response: " ++ body
  end.

(** [fmt.Errorf(prefix + "%v", err)] *)
Definition Errorf (prefix : string) (e : error) : error :=
  errorString (prefix ++ Error_text e).

(** ** Strings as byte sequences *)

Module Strings.

Definition byte_of (c : ascii) : N := N_of_ascii c.

Fixpoint Contains_char (c : ascii) (s : string) : bool :=
  match s with
  | EmptyString => false
  | String d r => Ascii.eqb c d || Contains_char c r
  end.

Fixpoint HasPrefix (s p : string) : bool :=
  match p, s with
  | EmptyString, _ => true
  | String c p', String d s' => Ascii.eqb c d && HasPrefix s' p'
  | String _ _, EmptyString => false
  end.

(** [strings.Cut(s, sep)] for a one-byte separator: the text before the
    first [sep], the text after it, and whether [sep] was found. *)
Fixpoint Cut (sep : ascii) (s : string) : string * string * bool :=
  match s with
  | EmptyString => (EmptyString, EmptyString, false)
  | String c r =>
      if Ascii.eqb c sep then (EmptyString, r, true)
      else let '(a, b, found) := Cut sep r in (String c a, b, found)
  end.

(** [strings.Split(s, sep)] for a one-byte separator. *)
Fixpoint Split (sep : ascii) (s : string) : list string :=
  match s with
  | EmptyString => [EmptyString]
  | String c r =>
      if Ascii.eqb c sep then EmptyString :: Split sep r
      else match Split sep r with
           | [] => [String c EmptyString]
           | w :: ws => String c w :: ws
           end
  end.

Fixpoint forallb_string (p : ascii -> bool) (s : string) : bool :=
  match s with
  | EmptyString => true
  | String c r => p c && forallb_string p r
  end.

Definition in_range (lo hi : N) (c : ascii) : bool :=
  (lo <=? byte_of c)%N && (byte_of c <=? hi)%N.

Definition is_digit : ascii -> bool := in_range 48 57.
Definition is_lower : ascii -> bool := in_range 97 122.
Definition is_upper : ascii -> bool := in_range 65 90.
Definition is_letter (c : ascii) : bool := is_lower c || is_upper c.

Definition to_lower (c : ascii) : ascii :=
  if is_upper c then ascii_of_N (byte_of c + 32) else c.
Definition to_upper (c : ascii) : ascii :=
  if is_lower c then ascii_of_N (byte_of c - 32) else c.

Fixpoint map_string (f : ascii -> ascii) (s : string) : string :=
  match s with
  | EmptyString => EmptyString
  | String c r => String (f c) (map_string f r)
  end.

Definition ToLower : string -> string := map_string to_lower.

(** [q s] is [s] with every single quote turned into a double quote:
    JSON texts are written with single quotes and passed through [q]. *)
Definition q : string -> string :=
  map_string (fun c => if Ascii.eqb c "'" then dquote else c).

Definition hexdigit (n : N) : ascii :=
  if (n <? 10)%N then ascii_of_N (48 + n) else ascii_of_N (87 + n).

Definition hexval (c : ascii) : option N :=
  if is_digit c then Some (byte_of c - 48)%N
  else if in_range 97 102 c then Some (byte_of c - 87)%N
  else if in_range 65 70 c then Some (byte_of c - 55)%N
  else None.

Definition concat (l : list string) : string :=
  fold_right String.append EmptyString l.

Fixpoint drop (n : nat) (s : string) : string :=
  match n, s with
  | S n', String _ r => drop n' r
  | _, _ => s
  end.

Fixpoint take (n : nat) (s : string) : string :=
  match n, s with
  | S n', String c r => String c (take n' r)
  | _, _ => EmptyString
  end.

(** The longest prefix of [s] whose bytes satisfy [p], and the rest. *)
Fixpoint span (p : ascii -> bool) (s : string) : string * string :=
  match s with
  | String c r =>
      if p c then let '(a, b) := span p r in (String c a, b)
      else (EmptyString, s)
  | EmptyString => (EmptyString, EmptyString)
  end.

(** Decimal digits to their value. *)
Definition digits_value (s : string) : Z :=
  (fix go (acc : Z) (s : string) : Z :=
     match s with
     | EmptyString => acc
     | String c r => go (10 * acc + Z.of_N (byte_of c - 48))%Z r
     end) 0%Z s.

End Strings.

(** ** encoding/base64: [RawURLEncoding] *)

Module base64.
#[local] Open Scope N_scope.

(** const encodeURL *)
Definition encodeURL : string :=
  "ABCDEFGHIJKLMNOPQRSTUVWXYZabcdefghijklmnopqrstuvwxyz0123456789-_".

Definition alphabet_at (i : N) : ascii :=
  match String.get (N.to_nat i) encodeURL with
  | Some c => c
  | None => "A"%char
  end.

Definition sextet (val : N) (shift : N) : ascii :=
  alphabet_at (N.land (N.shiftr val shift) 63).

(** [RawURLEncoding.EncodeToString]: three bytes give four characters;
    a remainder of one byte gives two, of two bytes three; no padding. *)
Fixpoint EncodeToString (src : string) : string :=
  match src with
  | EmptyString => EmptyString
  | String a EmptyString =>
      let val := N.shiftl (Strings.byte_of a) 16 in
      String (sextet val 18) (String (sextet val 12) EmptyString)
  | String a (String b EmptyString) =>
      let val := N.lor (N.shiftl (Strings.byte_of a) 16)
                       (N.shiftl (Strings.byte_of b) 8) in
      String (sextet val 18) (String (sextet val 12)
        (String (sextet val 6) EmptyString))
  | String a (String b (String c rest)) =>
      let val := N.lor (N.lor (N.shiftl (Strings.byte_of a) 16)
                              (N.shiftl (Strings.byte_of b) 8))
                       (Strings.byte_of c) in
      String (sextet val 18) (String (sextet val 12)
        (String (sextet val 6) (String (sextet val 0)
          (EncodeToString rest))))
  end.

Definition in_alphabet (c : ascii) : bool :=
  Strings.Contains_char c encodeURL.

End base64.

(** ** unicode/utf8 *)

Module utf8.
#[local] Open Scope N_scope.

Definition cont (c : ascii) : bool := Strings.in_range 128 191 c.

(** The width of the encoding that [s] starts with, as [utf8.DecodeRune]
    reports it: [None] stands for [(RuneError, 1)], an invalid or
    truncated sequence (and never arises on the empty string here). *)
Definition DecodeRune_size (s : string) : option nat :=
  match s with
  | EmptyString => None
  | String a r =>
      let x := Strings.byte_of a in
      if (x <? 128)%N then Some 1%nat
      else if Strings.in_range 194 223 a then
        match r with
        | String b _ => if cont b then Some 2%nat else None
        | _ => None
        end
      else if Strings.in_range 224 239 a then
        match r with
        | String b (String c _) =>
            let lo := if (x =? 224)%N then 160%N else 128%N in
            let hi := if (x =? 237)%N then 159%N else 191%N in
            if Strings.in_range lo hi b && cont c then Some 3%nat else None
        | _ => None
        end
      else if Strings.in_range 240 244 a then
        match r with
        | String b (String c (String d _)) =>
            let lo := if (x =? 240)%N then 144%N else 128%N in
            let hi := if (x =? 244)%N then 143%N else 191%N in
            if Strings.in_range lo hi b && cont c && cont d
            then Some 4%nat else None
        | _ => None
        end
      else None
  end.

(** [utf8.EncodeRune] (surrogates and values above U+10FFFF encode as
    U+FFFD). *)
Definition EncodeRune (r : N) : string :=
  let b (n : N) := ascii_of_N n in
  let tail (n : N) := b (N.lor 128 (N.land n 63)) in
  if (r <? 128)%N then String (b r) EmptyString
  else if (r <? 2048)%N then
    String (b (N.lor 192 (N.shiftr r 6))) (String (tail r) EmptyString)
  else if ((55296 <=? r) && (r <=? 57343) || (1114111 <? r))%N then
    String (b 239) (String (b 191) (String (b 189) EmptyString))
  else if (r <? 65536)%N then
    String (b (N.lor 224 (N.shiftr r 12)))
      (String (tail (N.shiftr r 6)) (String (tail r) EmptyString))
  else
    String (b (N.lor 240 (N.shiftr r 18)))
      (String (tail (N.shiftr r 12))
        (String (tail (N.shiftr r 6)) (String (tail r) EmptyString))).

Definition RuneError : string := EncodeRune 65533.

End utf8.

(** ** Dynamic values *)

(** The dynamic types that a value of type [interface{}] holds in this
    program: those that the generic JSON decoder produces, and
    [map[string]string], the target of the type assertion in
    [inst.Config.Permissions].  A [float64] is kept as the decimal literal
    it was converted from. *)
Inductive any : Type :=
| ANil
| ABool (b : bool)
| AFloat64 (lit : string)
| AString (s : string)
| ASlice (elems : list any)                  (* []interface{} *)
| AMap (m : gmap string any)                 (* map[string]interface{} *)
| AMapSS (m : gmap string string).           (* map[string]string *)

(** ** encoding/json *)

Module json.

(** The value tree of a syntactically valid JSON text.  Members of an
    object keep their order and their duplicates; a number keeps its
    literal; strings are unquoted. *)
Inductive JSON : Type :=
| JNull
| JBool (b : bool)
| JNumber (lit : string)
| JString (s : string)
| JArray (elems : list JSON)
| JObject (members : list (string * JSON)).

(** *** Scanner *)

Definition is_space (c : ascii) : bool :=
  Ascii.eqb c " " || Ascii.eqb c "009" || Ascii.eqb c "013" || Ascii.eqb c "010".

Fixpoint skip_space (s : string) : string :=
  match s with
  | String c r => if is_space c then skip_space r else s
  | EmptyString => EmptyString
  end.

Definition is_simple_escape (e : ascii) : bool :=
  Ascii.eqb e dquote || Ascii.eqb e backslash || Ascii.eqb e "/"
  || Ascii.eqb e "b" || Ascii.eqb e "f" || Ascii.eqb e "n"
  || Ascii.eqb e "r" || Ascii.eqb e "t".

Definition is_hex (c : ascii) : bool :=
  match Strings.hexval c with Some _ => true | None => false end.

(** The text of a string literal after its opening quote: the quoted
    content, still escaped, and what follows the closing quote. *)
Fixpoint scan_string (s : string) : option (string * string) :=
  match s with
  | EmptyString => None
  | String c r =>
      if Ascii.eqb c dquote then Some (EmptyString, r)
      else if Ascii.eqb c backslash then
        match r with
        | String e r1 =>
            if is_simple_escape e then
              '(body, rest) ← scan_string r1;
              Some (String c (String e body), rest)
            else if Ascii.eqb e "u" then
              match r1 with
              | String h1 (String h2 (String h3 (String h4 r2))) =>
                  if is_hex h1 && is_hex h2 && is_hex h3 && is_hex h4 then
                    '(body, rest) ← scan_string r2;
                    Some (String c (String e (String h1 (String h2
                            (String h3 (String h4 body))))), rest)
                  else None
              | _ => None
              end
            else None
        | EmptyString => None
        end
      else if (Strings.byte_of c <? 32)%N then None
      else '(body, rest) ← scan_string r; Some (String c body, rest)
  end.

Definition is_number_char (c : ascii) : bool :=
  Strings.is_digit c || Ascii.eqb c "-" || Ascii.eqb c "+"
  || Ascii.eqb c "." || Ascii.eqb c "e" || Ascii.eqb c "E".

Definition nonempty (s : string) : bool :=
  match s with EmptyString => false | _ => true end.

(** A number: an optional minus sign; then 0, or a digit 1-9 and any
    digits; then optionally a point and one or more digits; then
    optionally e or E, an optional sign and one or more digits. *)
Definition valid_exponent (s : string) : bool :=
  match s with
  | EmptyString => true
  | String c r =>
      (Ascii.eqb c "e" || Ascii.eqb c "E") &&
      let r' := match r with
                | String sg r1 =>
                    if Ascii.eqb sg "+" || Ascii.eqb sg "-" then r1 else r
                | EmptyString => r
                end in
      nonempty r' && Strings.forallb_string Strings.is_digit r'
  end.

Definition valid_fraction (s : string) : bool :=
  match s with
  | String "."%char r =>
      let '(ds, rest) := Strings.span Strings.is_digit r in
      nonempty ds && valid_exponent rest
  | _ => valid_exponent s
  end.

Definition valid_number (s : string) : bool :=
  let s := match s with String "-"%char r => r | _ => s end in
  match s with
  | String d r =>
      if Ascii.eqb d "0" then valid_fraction r
      else if Strings.is_digit d then
        valid_fraction (snd (Strings.span Strings.is_digit r))
      else false
  | EmptyString => false
  end.

(** *** Unquoting a string literal *)

Definition getu4 (s : string) : option N :=
  match s with
  | String h1 (String h2 (String h3 (String h4 _))) =>
      a ← Strings.hexval h1; b ← Strings.hexval h2;
      c ← Strings.hexval h3; d ← Strings.hexval h4;
      Some (4096 * a + 256 * b + 16 * c + d)%N
  | _ => None
  end.

(** A backslash-u escape at the head of [s]. *)
Definition getu4_escape (s : string) : option N :=
  match s with
  | String b (String u r) =>
      if Ascii.eqb b backslash && Ascii.eqb u "u" then getu4 r else None
  | _ => None
  end.

Definition simple_escape (e : ascii) : ascii :=
  if Ascii.eqb e "b" then "008"%char
  else if Ascii.eqb e "f" then "012"%char
  else if Ascii.eqb e "n" then "010"%char
  else if Ascii.eqb e "r" then "013"%char
  else if Ascii.eqb e "t" then "009"%char
  else e.

Definition IsSurrogate (r : N) : bool := ((55296 <=? r) && (r <? 57344))%N.

(** [utf16.DecodeRune] *)
Definition utf16_DecodeRune (r1 r2 : N) : option N :=
  if ((55296 <=? r1) && (r1 <? 56320) && (56320 <=? r2) && (r2 <? 57344))%N
  then Some (N.lor (N.shiftl (r1 - 55296) 10) (r2 - 56320) + 65536)%N
  else None.

(** [unquote]: escapes are replaced by the bytes they stand for, a lone
    surrogate and every invalid UTF-8 sequence by U+FFFD. *)
Fixpoint unquote_loop (fuel : nat) (s : string) : string :=
  match fuel with
  | O => EmptyString
  | S fuel =>
    match s with
    | EmptyString => EmptyString
    | String c r =>
        if Ascii.eqb c backslash then
          match r with
          | EmptyString => EmptyString
          | String e r1 =>
              if Ascii.eqb e "u" then
                match getu4 r1 with
                | None => EmptyString
                | Some rr =>
                    let r2 := Strings.drop 4 r1 in
                    if IsSurrogate rr then
                      match rr1 ← getu4_escape r2; utf16_DecodeRune rr rr1 with
                      | Some dec =>
                          utf8.EncodeRune dec ++
                          unquote_loop fuel (Strings.drop 6 r2)
                      | None => utf8.RuneError ++ unquote_loop fuel r2
                      end
                    else utf8.EncodeRune rr ++ unquote_loop fuel r2
                end
              else String (simple_escape e) (unquote_loop fuel r1)
          end
        else if (Strings.byte_of c <? 128)%N then
          String c (unquote_loop fuel r)
        else
          match utf8.DecodeRune_size s with
          | Some n => Strings.take n s ++ unquote_loop fuel (Strings.drop n s)
          | None => utf8.RuneError ++ unquote_loop fuel r
          end
    end
  end.

Definition unquote (s : string) : string :=
  unquote_loop (String.length s) s.

(** *** Parser *)

(** const maxNestingDepth *)
Definition maxNestingDepth : N := 10000.

(** A value that is no container, off the head of the text [String c r]:
    a string, a number or one of the three literals. *)
Definition parse_scalar (c : ascii) (r : string) : option (JSON * string) :=
  let s := String c r in
  if Ascii.eqb c dquote then
    '(body, rest) ← scan_string r; Some (JString (unquote body), rest)
  else if Ascii.eqb c "-" || Strings.is_digit c then
    let '(lit, rest) := Strings.span is_number_char s in
    if valid_number lit then Some (JNumber lit, rest) else None
  else if Strings.HasPrefix s "true" then Some (JBool true, Strings.drop 4 s)
  else if Strings.HasPrefix s "false" then Some (JBool false, Strings.drop 5 s)
  else if Strings.HasPrefix s "null" then Some (JNull, Strings.drop 4 s)
  else None.

(** [parse_value fuel depth s] reads one value off the head of [s],
    [depth] containers being open; [None] is a syntax error.  A container
    costs two units of fuel for its opening byte and each further member
    one unit for at least two bytes, so twice the length of the text is
    fuel enough for any text ([parse_fuel_enough] below). *)
Fixpoint parse_value (fuel : nat) (depth : N) (s : string)
  : option (JSON * string) :=
  match fuel with
  | O => None
  | S fuel =>
    match skip_space s with
    | EmptyString => None
    | String c r =>
        if Ascii.eqb c "{" then
          if (maxNestingDepth <=? depth)%N then None
          else match skip_space r with
               | String c' r' =>
                   if Ascii.eqb c' "}" then Some (JObject [], r')
                   else parse_members fuel (N.succ depth) r []
               | EmptyString => None
               end
        else if Ascii.eqb c "[" then
          if (maxNestingDepth <=? depth)%N then None
          else match skip_space r with
               | String c' r' =>
                   if Ascii.eqb c' "]" then Some (JArray [], r')
                   else parse_elems fuel (N.succ depth) r []
               | EmptyString => None
               end
        else parse_scalar c r
    end
  end
with parse_elems (fuel : nat) (depth : N) (s : string) (acc : list JSON)
  : option (JSON * string) :=
  match fuel with
  | O => None
  | S fuel =>
      '(v, r) ← parse_value fuel depth s;
      match skip_space r with
      | String c r' =>
          if Ascii.eqb c "," then parse_elems fuel depth r' (acc ++ [v])%list
          else if Ascii.eqb c "]" then Some (JArray (acc ++ [v])%list, r')
          else None
      | EmptyString => None
      end
  end
with parse_members (fuel : nat) (depth : N) (s : string)
                   (acc : list (string * JSON))
  : option (JSON * string) :=
  match fuel with
  | O => None
  | S fuel =>
      match skip_space s with
      | String c r =>
          if Ascii.eqb c dquote then
            '(key, r1) ← scan_string r;
            match skip_space r1 with
            | String c1 r2 =>
                if Ascii.eqb c1 ":" then
                  '(v, r3) ← parse_value fuel depth r2;
                  let acc' := (acc ++ [(unquote key, v)])%list in
                  match skip_space r3 with
                  | String c3 r4 =>
                      if Ascii.eqb c3 "," then
                        parse_members fuel depth r4 acc'
                      else if Ascii.eqb c3 "}" then Some (JObject acc', r4)
                      else None
                  | EmptyString => None
                  end
                else None
            | EmptyString => None
            end
          else None
      | EmptyString => None
      end
  end.

(** [checkValid] and the scan of the whole text: one value, then only
    white space. *)
Definition parse (data : string) : option JSON :=
  '(v, rest) ← parse_value (2 * String.length data) 0%N data;
  match skip_space rest with
  | EmptyString => Some v
  | String _ _ => None
  end.

Definition SyntaxError : error :=
  LibError "*json.SyntaxError" "invalid JSON text".

Definition UnmarshalTypeError (value type : string) : error :=
  LibError "*json.UnmarshalTypeError"
    ("json: cannot unmarshal " ++ value ++ " into Go value of type " ++ type).

(** The [Value] that an [UnmarshalTypeError] names for [v]. *)
Definition describe (v : JSON) : string :=
  match v with
  | JNull => "null"
  | JBool _ => "bool"
  | JNumber lit => "number " ++ lit
  | JString _ => "string"
  | JArray _ => "array"
  | JObject _ => "object"
  end.

(** *** Decoding into [interface{}] *)

(** Whether [strconv.ParseFloat(lit, 64)] reports a range error on the
    number literal [lit]: its value m * 10^e rounds to an infinity, that
    is, reaches 2^1024 - 2^970 in magnitude. *)
Definition float64_overflow (lit : string) : bool :=
  let s := match lit with String "-"%char r => r | _ => lit end in
  let '(ip, r1) := Strings.span Strings.is_digit s in
  let '(fp, r2) :=
    match r1 with
    | String "."%char r => Strings.span Strings.is_digit r
    | _ => (EmptyString, r1)
    end in
  let e :=
    match r2 with
    | String _ (String "-"%char d) => (- Strings.digits_value d)%Z
    | String _ (String "+"%char d) => Strings.digits_value d
    | String _ d => Strings.digits_value d
    | EmptyString => 0%Z
    end in
  let m := Strings.digits_value (ip ++ fp) in
  let e' := (e - Z.of_nat (String.length fp))%Z in
  let bound := ((2 ^ 54 - 1) * 2 ^ 970)%Z in
  if (m =? 0)%Z then false
  else if (0 <=? e')%Z then (bound <=? m * 10 ^ e')%Z
  else (bound * 10 ^ (- e') <=? m)%Z.

(** [saveError]: the first error is the one kept. *)
Definition first_error (e1 e2 : option error) : option error :=
  match e1 with Some _ => e1 | None => e2 end.

(** [valueInterface]: the value as an [interface{}], and the error
    saved on the way, if any.  A number out of the range of [float64]
    saves an error and leaves nil. *)
Fixpoint valueInterface (v : JSON) : any * option error :=
  match v with
  | JNull => (ANil, None)
  | JBool b => (ABool b, None)
  | JNumber lit =>
      if float64_overflow lit
      then (ANil, Some (UnmarshalTypeError ("number " ++ lit) "float64"))
      else (AFloat64 lit, None)
  | JString s => (AString s, None)
  | JArray elems =>
      let fix arrayInterface (l : list JSON) : list any * option error :=
        match l with
        | [] => ([], None)
        | x :: l' =>
            let '(a, e1) := valueInterface x in
            let '(rest, e2) := arrayInterface l' in
            (a :: rest, first_error e1 e2)
        end in
      let '(l, e) := arrayInterface elems in (ASlice l, e)
  | JObject members =>
      let fix objectInterface (kvs : list (string * JSON))
                              (m : gmap string any)
        : gmap string any * option error :=
        match kvs with
        | [] => (m, None)
        | kv :: kvs' =>
            let '(a, e1) := valueInterface (snd kv) in
            let '(m', e2) := objectInterface kvs' (<[fst kv := a]> m) in
            (m', first_error e1 e2)
        end in
      let '(m, e) := objectInterface members ∅ in (AMap m, e)
  end.

(** The members of an object stored into a [map[string]interface{}]:
    [m[key] = value] in the order of the text, a later duplicate
    replacing an earlier one. *)
Fixpoint store_members (kvs : list (string * JSON)) (m : gmap string any)
  : gmap string any * option error :=
  match kvs with
  | [] => (m, None)
  | kv :: kvs' =>
      let '(a, e1) := valueInterface (snd kv) in
      let '(m', e2) := store_members kvs' (<[fst kv := a]> m) in
      (m', first_error e1 e2)
  end.

(** [json.Unmarshal(data, &raw)] for [raw] of type
    [map[string]interface{}]: the map afterwards and the error returned.
    A text that is not valid JSON, or whose value is not an object or
    null, leaves the map as it was; null makes it the nil map, which
    reads as the empty one. *)
Definition Unmarshal_map (data : string) (raw : gmap string any)
  : gmap string any * option error :=
  match parse data with
  | None => (raw, Some SyntaxError)
  | Some (JObject members) => store_members members raw
  | Some JNull => (∅, None)
  | Some v =>
      (raw, Some (UnmarshalTypeError (describe v) "map[string]interface {}"))
  end.

(** *** Decoding into a struct of string fields *)

(** [foldName], as far as a comparison with an ASCII field name goes:
    ASCII letters go to upper case, and so do the two other runes whose
    fold set holds an ASCII letter, U+212A (Kelvin sign, with K) and
    U+017F (long s, with S). *)
Fixpoint foldName (s : string) : string :=
  match s with
  | EmptyString => EmptyString
  | String a r =>
      let plain := String (Strings.to_upper a) (foldName r) in
      match r with
      | String b r1 =>
          if (Strings.byte_of a =? 197)%N && (Strings.byte_of b =? 191)%N
          then String "S"%char (foldName r1)
          else
            match r1 with
            | String c r2 =>
                if (Strings.byte_of a =? 226)%N && (Strings.byte_of b =? 132)%N
                   && (Strings.byte_of c =? 170)%N
                then String "K"%char (foldName r2)
                else plain
            | EmptyString => plain
            end
      | EmptyString => plain
      end
  end.

(** Whether the member name [key] selects the struct field whose JSON
    name is [name]: an exact match, or else a case-insensitive one. *)
Definition selects (name key : string) : bool :=
  String.eqb key name || String.eqb (foldName key) (foldName name).

(** [literalStore] into a field of type [string]: a string is stored,
    null leaves the field as it is, any other value is a type error. *)
Definition store_string (v : JSON) (field : string) : string * option error :=
  match v with
  | JString s => (s, None)
  | JNull => (field, None)
  | _ => (field, Some (UnmarshalTypeError (describe v) "string"))
  end.

(** *** Encoding *)

(** [htmlSafeSet] *)
Definition htmlSafe (c : ascii) : bool :=
  Strings.in_range 32 127 c
  && negb (Ascii.eqb c dquote || Ascii.eqb c backslash || Ascii.eqb c "<"
           || Ascii.eqb c ">" || Ascii.eqb c "&").

Definition escape_ascii (c : ascii) : string :=
  let bs (e : ascii) := String backslash (String e EmptyString) in
  if Ascii.eqb c backslash || Ascii.eqb c dquote then bs c
  else if Ascii.eqb c "008" then bs "b"%char
  else if Ascii.eqb c "012" then bs "f"%char
  else if Ascii.eqb c "010" then bs "n"%char
  else if Ascii.eqb c "013" then bs "r"%char
  else if Ascii.eqb c "009" then bs "t"%char
  else String backslash
         (String "u"%char (String "0"%char (String "0"%char
           (String (Strings.hexdigit (N.shiftr (Strings.byte_of c) 4))
             (String (Strings.hexdigit (N.land (Strings.byte_of c) 15))
               EmptyString))))).

(** The body of [appendString] with [escapeHTML] set, which is how an
    [Encoder] writes strings. *)
Fixpoint appendString_loop (fuel : nat) (src : string) : string :=
  match fuel with
  | O => EmptyString
  | S fuel =>
    match src with
    | EmptyString => EmptyString
    | String b r =>
        if (Strings.byte_of b <? 128)%N then
          (if htmlSafe b then String b EmptyString else escape_ascii b)
          ++ appendString_loop fuel r
        else
          match utf8.DecodeRune_size src with
          | None =>
              String backslash "ufffd" ++ appendString_loop fuel r
          | Some n =>
              let rune := Strings.take n src in
              (if String.eqb rune (utf8.EncodeRune 8232)
               then String backslash "u2028"
               else if String.eqb rune (utf8.EncodeRune 8233)
               then String backslash "u2029"
               else rune)
              ++ appendString_loop fuel (Strings.drop n src)
          end
    end
  end.

Definition appendString (src : string) : string :=
  String dquote (appendString_loop (String.length src) src)
  ++ String dquote EmptyString.

(** A [[]string] as a JSON array. *)
Definition encode_strings (l : list string) : string :=
  "[" ++ String.concat "," (map appendString l) ++ "]".

(** A member of an object: the quoted name, a colon, the encoded value. *)
Definition member (name value : string) : string :=
  appendString name ++ ":" ++ value.

End json.

(** ** time *)

Module time.
#[local] Open Scope Z_scope.

(** An instant, as nanoseconds since the Unix epoch; a [Duration] is a
    count of nanoseconds. *)
Definition Time : Type := Z.
Definition Duration : Type := Z.

Definition Second : Duration := 1000000000.
Definition Minute : Duration := 60 * Second.

Definition Add (t : Time) (d : Duration) : Time := (t + d)%Z.

(** Seconds since the epoch, rounded down. *)
Definition Unix (t : Time) : Z := (t / Second)%Z.

(** The zero [Time], January 1 of year 1, 00:00:00 UTC. *)
Definition zero : Time := (-62135596800 * Second)%Z.
Definition IsZero (t : Time) : bool := (t =? zero)%Z.

End time.

(** ** net/url and crypto/rsa: types *)

Module url.

Record Userinfo : Type := mkUserinfo {
  username : string;
  password : string;
  passwordSet : bool
}.

Record URL : Type := mkURL {
  Scheme : string;
  Opaque : string;
  User : option Userinfo;
  Host : string;
  Path : string;
  RawPath : string;
  OmitHost : bool;
  ForceQuery : bool;
  RawQuery : string;
  Fragment : string;
  RawFragment : string
}.

Definition empty : URL :=
  mkURL "" "" None "" "" "" false false "" "" "".

(** [(u *URL) IsAbs] *)
Definition IsAbs (u : URL) : bool :=
  negb (String.eqb (Scheme u) "").

End url.

Module rsa.

Record PrivateKey : Type := mkPrivateKey {
  N : Z;   (* modulus *)
  E : Z;   (* public exponent *)
  D : Z    (* private exponent *)
}.

End rsa.

(** ** The libraries the program calls

    The functions of net/url, time and crypto/rsa that the program calls
    are an interface: the program is embedded over any implementation of
    it, and nothing is assumed of one.  [GoReference] further down is an
    implementation after the Go sources, on which the examples run. *)
Class Libraries : Type := {
  (** url.Parse *)
  url_Parse : string -> Result url.URL;
  (** url.ParseRequestURI *)
  url_ParseRequestURI : string -> Result url.URL;
  (** [base.ResolveReference(ref)] *)
  url_ResolveReference : url.URL -> url.URL -> url.URL;
  (** [u.String()] *)
  url_String : url.URL -> string;
  (** [time.Parse(time.RFC3339, value)] *)
  time_Parse_RFC3339 : string -> Result time.Time;
  (** [rsa.SignPKCS1v15(rand.Reader, key, crypto.SHA256, sha256(message))] *)
  rsa_SignPKCS1v15_SHA256 : rsa.PrivateKey -> string -> Result string;
  (** [fmt.Sprintf] of a dynamic value under the verb v *)
  fmt_Sprint : any -> string
}.

(** ** net/http *)

Module http.

(** [Header]: canonical key to values, in the order they were added. *)
Abbreviation Header := (gmap string (list string)).

(** [validHeaderFieldByte]: the token characters of RFC 7230. *)
Definition validHeaderFieldByte (c : ascii) : bool :=
  Strings.is_letter c || Strings.is_digit c
  || Strings.Contains_char c "!#$%&'*+-.^_`|~".

Fixpoint canonical_from (upper : bool) (s : string) : string :=
  match s with
  | EmptyString => EmptyString
  | String c r =>
      let c' := if upper then Strings.to_upper c else Strings.to_lower c in
      String c' (canonical_from (Ascii.eqb c' "-") r)
  end.

(** [textproto.CanonicalMIMEHeaderKey] *)
Definition CanonicalMIMEHeaderKey (s : string) : string :=
  if Strings.forallb_string validHeaderFieldByte s
  then canonical_from true s else s.

Definition Header_Values (h : Header) (key : string) : list string :=
  default [] (h !! CanonicalMIMEHeaderKey key).

(** [h.Add(key, value)]: appends to the values of [key]. *)
Definition Header_Add (h : Header) (key value : string) : Header :=
  <[CanonicalMIMEHeaderKey key := (Header_Values h key ++ [value])%list]> h.

(** [h.Get(key)]: the first value of [key], or the empty string. *)
Definition Header_Get (h : Header) (key : string) : string :=
  match Header_Values h key with
  | v :: _ => v
  | [] => EmptyString
  end.

Record Request : Type := mkRequest {
  Method : string;
  URL : url.URL;
  Header_ : Header;
  Body : option string      (* None: no body *)
}.

Definition add_header (r : Request) (key value : string) : Request :=
  mkRequest (Method r) (URL r) (Header_Add (Header_ r) key value) (Body r).

(** A response: [Body] is what the body stream delivers before it ends,
    [BodyErr] the error it ends with when that is not end-of-file. *)
Record Response : Type := mkResponse {
  Status : string;          (* e.g. 200 OK *)
  StatusCode : Z;
  RespBody : string;
  BodyErr : option error
}.

(** [removeEmptyPort] *)
Fixpoint removeEmptyPort (host : string) : string :=
  match host with
  | EmptyString => EmptyString
  | String c EmptyString => if Ascii.eqb c ":" then EmptyString else host
  | String c r => String c (removeEmptyPort r)
  end.

Definition with_Host (u : url.URL) (host : string) : url.URL :=
  url.mkURL (url.Scheme u) (url.Opaque u) (url.User u) host (url.Path u)
    (url.RawPath u) (url.OmitHost u) (url.ForceQuery u) (url.RawQuery u)
    (url.Fragment u) (url.RawFragment u).

Definition validMethod (method : string) : bool :=
  negb (String.eqb method "")
  && Strings.forallb_string validHeaderFieldByte method.

(** [http.NewRequest(method, url, body)] *)
Definition NewRequest `{Libraries} (method rawurl : string)
                      (body : option string) : Result Request :=
  let method := if String.eqb method "" then "GET" else method in
  if negb (validMethod method)
  then Err (errorString ("net/http: invalid method " ++ method))
  else
    match url_Parse rawurl with
    | Err e => Err e
    | OK u =>
        OK (mkRequest method (with_Host u (removeEmptyPort (url.Host u)))
                      ∅ body)
    end.

Fixpoint take_N (n : N) (s : string) : string :=
  match s with
  | EmptyString => EmptyString
  | String c r =>
      if (n =? 0)%N then EmptyString else String c (take_N (N.pred n) r)
  end.

(** [io.ReadAll(io.LimitReader(resp.Body, limit))]: at most [limit]
    bytes; the error of the stream shows only when the stream ends
    before the limit. *)
Definition ReadAll_LimitReader (resp : Response) (limit : N)
  : Result string :=
  if (N.of_nat (String.length (RespBody resp)) <? limit)%N then
    match BodyErr resp with
    | Some e => Err e
    | None => OK (RespBody resp)
    end
  else OK (take_N limit (RespBody resp)).

End http.

(** ** The world outside: clock and network *)

Record World : Type := mkWorld {
  now : time.Time;
    (* what time.Now() reads *)
  network : http.Request -> Result http.Response;
    (* what sending a request yields *)
  sent : list http.Request
    (* the requests dispatched so far, oldest first *)
}.

(** Code with effects: a state monad over the world. *)
Definition M (A : Type) : Type := World -> A * World.

Definition ret {A} (a : A) : M A := fun w => (a, w).

Definition bind {A B} (m : M A) (k : A -> M B) : M B :=
  fun w => let '(a, w') := m w in k a w'.

(** [v, err := m; if err != nil { return nil, err }; k v] *)
Definition bindR {A B} (m : M (Result A)) (k : A -> M (Result B))
  : M (Result B) :=
  bind m (fun r => match r with OK a => k a | Err e => ret (Err e) end).

Declare Scope go_scope.
Delimit Scope go_scope with go.
Notation "'let!' x ':=' m 'in' k" := (bind m (fun x => k))
  (at level 10, x name, k at level 200) : go_scope.
Notation "'let?' x ':=' m 'in' k" := (bindR m (fun x => k))
  (at level 10, x name, k at level 200) : go_scope.

(** [time.Now()] *)
Definition time_Now : M time.Time := fun w => (now w, w).

(** Handing a request to the network: [http.DefaultTransport.RoundTrip]
    and the [Do] of the HTTP client of a context. *)
Definition dispatch (r : http.Request) : M (Result http.Response) :=
  fun w => (network w r, mkWorld (now w) (network w) (sent w ++ [r])%list).

Definition DefaultTransport_RoundTrip := dispatch.
Definition Client_Do := dispatch.

(** ** golang.org/x/oauth2: tokens *)

Module oauth2.

Record Token : Type := mkToken {
  AccessToken : string;
  TokenType : string;
  RefreshToken : string;
  Expiry : time.Time;
  raw : any
}.

(** [t.WithExtra(extra)] *)
Definition WithExtra (t : Token) (extra : any) : Token :=
  mkToken (AccessToken t) (TokenType t) (RefreshToken t) (Expiry t) extra.

Definition with_Expiry (t : Token) (expiry : time.Time) : Token :=
  mkToken (AccessToken t) (TokenType t) (RefreshToken t) expiry (raw t).

(** [t.Extra(key)]: [raw[key]] when [raw] is a [map[string]interface{}];
    a key that is not in the map reads as nil. *)
Definition Extra (t : Token) (key : string) : any :=
  match raw t with
  | AMap m => default ANil (m !! key)
  | _ => ANil
  end.

(** const defaultExpiryDelta = 10 * time.Second *)
Definition defaultExpiryDelta : time.Duration := (10 * time.Second)%Z.

Definition expired (t : Token) (now : time.Time) : bool :=
  if time.IsZero (Expiry t) then false
  else (time.Add (Expiry t) (- defaultExpiryDelta) <? now)%Z.

(** [t.Valid()], [None] being the nil token. *)
Definition Valid (t : option Token) (now : time.Time) : bool :=
  match t with
  | None => false
  | Some t => negb (String.eqb (AccessToken t) "") && negb (expired t now)
  end.

(** [reuseTokenSource]: [new] is how the source it wraps gets a token,
    [t] the token it holds.  Calls are taken one at a time; the mutex
    that makes them so is not modelled. *)
Record reuseTokenSource : Type := mkReuse {
  new : M (Result Token);
  t : option Token
}.

(** [ReuseTokenSource(t, src)] *)
Definition ReuseTokenSource (t : option Token) (src : M (Result Token))
  : reuseTokenSource := mkReuse src t.

(** [(s *reuseTokenSource) Token]: the token, and the source afterwards. *)
Definition reuse_Token (s : reuseTokenSource)
  : M (Result Token * reuseTokenSource) :=
  (let refresh :=
     let! r := new s in
     match r with
     | Err err => ret (Err err, s)
     | OK tok => ret (OK tok, mkReuse (new s) (Some tok))
     end in
   let! now := time_Now in
   match t s with
   | Some tok => if Valid (Some tok) now then ret (OK tok, s) else refresh
   | None => refresh
   end)%go.

End oauth2.

(** ** Package jws

    The payload signer behind [jwt.Payload], which calls its [Encode] on a
    [Header] and a [ClaimSet] whose fields it sets; the package is
    modelled from the specification of the signer. *)

Module jws.
#[local] Open Scope Z_scope.

(** Modelled from the spec: type Header of package jws, with the two
    fields that [jwt.defaultHeader] sets. *)
Record Header : Type := mkHeader {
  Algorithm : string;
  Typ : string
}.

(** Modelled from the spec: type ClaimSet of package jws, with the two
    fields that [jwt.Payload] sets; [Exp] is an int64, seconds since the
    Unix epoch, and 0 when no expiry is set. *)
Record ClaimSet : Type := mkClaimSet {
  Iss : string;
  Exp : Z
}.

Definition decimal (n : Z) : string := NilZero.string_of_int (Z.to_int n).

(** Modelled from the spec: the serialization of the header, an object
    with the algorithm and the type. *)
Definition encode_Header (h : Header) : string :=
  "{" ++ json.member "alg" (json.appendString (Algorithm h)) ++ ","
      ++ json.member "typ" (json.appendString (Typ h)) ++ "}".

(** Modelled from the spec: the serialization of the claim set, an
    object with the issuer and, when one is set, the expiry. *)
Definition encode_ClaimSet (c : ClaimSet) : string :=
  "{" ++ json.member "iss" (json.appendString (Iss c))
      ++ (if Exp c =? 0 then "" else "," ++ json.member "exp" (decimal (Exp c)))
      ++ "}".

(** Modelled from the spec: package jws, function Encode.  Header and
    claim set are serialized and base64url-encoded without padding, the
    signature is computed with the private key over the two segments
    joined by a dot, and the result is the three segments joined by
    dots.  It fails when the signature operation fails. *)
Definition Encode `{Libraries} (header : Header) (c : ClaimSet)
                  (key : rsa.PrivateKey) : Result string :=
  let ss := base64.EncodeToString (encode_Header header) ++ "."
            ++ base64.EncodeToString (encode_ClaimSet c) in
  match rsa_SignPKCS1v15_SHA256 key ss with
  | Err err => Err err
  | OK sig => OK (ss ++ "." ++ base64.EncodeToString sig)
  end.

End jws.

(** ** Package jwt *)

Module jwt.
#[local] Open Scope Z_scope.

(** var defaultHeader (jwt.go) *)
Definition defaultHeader : jws.Header := jws.mkHeader "RS256" "JWT".

(** type JWT (jwt.go) *)
Record JWT : Type := mkJWT {
  AppID : string;
  PrivateKey : rsa.PrivateKey;
  Expires : time.Duration
}.

(** The claim set that [Payload] builds before it encodes it. *)
Definition claimSet (j : JWT) : M jws.ClaimSet :=
  (let claimSet := jws.mkClaimSet (AppID j) 0 in
   let t := Expires j in
   if 0 <? t then
     let! now := time_Now in
     ret (jws.mkClaimSet (jws.Iss claimSet) (time.Unix (time.Add now t)))
   else ret claimSet)%go.

(** func (j *JWT) Payload (jwt.go) *)
Definition Payload `{Libraries} (j : JWT) : M (Result string) :=
  (let! claimSet := claimSet j in
   let h := defaultHeader in
   let? payload := ret (jws.Encode h claimSet (PrivateKey j)) in
   ret (OK payload))%go.

(** type transport (jwt.go) *)
Record transport : Type := mkTransport { jwt : JWT }.

(** func (j *JWT) Client (jwt.go): the transport of the client. *)
Definition Client (j : JWT) : transport := mkTransport j.

(** func (t *transport) RoundTrip (jwt.go).  The request is changed in
    place: the result holds the request as the call leaves it. *)
Definition RoundTrip `{Libraries} (t : transport) (r : http.Request)
  : M (http.Request * Result http.Response) :=
  (let r := http.add_header r "Accept" "application/vnd.github.v3+json" in
   let! p := Payload (jwt t) in
   match p with
   | Err err => ret (r, Err err)
   | OK payload =>
       let r := http.add_header r "Authorization" ("Bearer " ++ payload) in
       let! resp := DefaultTransport_RoundTrip r in
       ret (r, resp)
   end)%go.

(** The field Repositories of Config (config.go) *)
Record Repositories : Type := mkRepositories {
  Names : list string;     (* json: repositories, omitempty *)
  IDs : list string        (* json: repository_ids, omitempty *)
}.

(** type Config (config.go) *)
Record Config : Type := mkConfig {
  JWT_ : JWT;
  Repositories_ : Repositories;
  TokenURL : string
}.

(** [json.NewEncoder(repos).Encode(js.conf.Repositories)]: what is
    written to the buffer; a slice of length 0 is omitted. *)
Definition Encode_Repositories (r : Repositories) : Result string :=
  let names :=
    match Names r with
    | [] => []
    | l => [json.member "repositories" (json.encode_strings l)]
    end in
  let ids :=
    match IDs r with
    | [] => []
    | l => [json.member "repository_ids" (json.encode_strings l)]
    end in
  OK ("{" ++ String.concat "," (names ++ ids)%list ++ "}" ++ newline).

(** var tokenRes (config.go) *)
Record tokenRes : Type := mkTokenRes {
  AccessToken : string;    (* json: token *)
  ExpiresAt : string;      (* json: expires_at *)
  TokenType : string
}.

(** The members of an object stored into a [tokenRes], in the order of
    the text. *)
Fixpoint store_tokenRes (kvs : list (string * json.JSON)) (t : tokenRes)
  : tokenRes * option error :=
  match kvs with
  | [] => (t, None)
  | (key, v) :: kvs' =>
      let '(t', e1) :=
        if json.selects "token" key then
          let '(s, e) := json.store_string v (AccessToken t) in
          (mkTokenRes s (ExpiresAt t) (TokenType t), e)
        else if json.selects "expires_at" key then
          let '(s, e) := json.store_string v (ExpiresAt t) in
          (mkTokenRes (AccessToken t) s (TokenType t), e)
        else if json.selects "TokenType" key then
          let '(s, e) := json.store_string v (TokenType t) in
          (mkTokenRes (AccessToken t) (ExpiresAt t) s, e)
        else (t, None) in
      let '(t'', e2) := store_tokenRes kvs' t' in
      (t'', json.first_error e1 e2)
  end.

(** [json.Unmarshal(body, &tokenRes)] *)
Definition Unmarshal_tokenRes (data : string) (t : tokenRes)
  : tokenRes * option error :=
  match json.parse data with
  | None => (t, Some json.SyntaxError)
  | Some (json.JObject members) => store_tokenRes members t
  | Some json.JNull => (t, None)
  | Some v => (t, Some (json.UnmarshalTypeError (json.describe v) "struct"))
  end.

(** type jwtSource (config.go); its context is the world. *)
Record jwtSource : Type := mkSource { conf : Config }.

Definition cannot_fetch : string := "oauth2: cannot fetch token: ".

(** func (js jwtSource) Token (config.go), from the response on. *)
Definition Token_of_response `{Libraries} (resp : http.Response)
  : Result oauth2.Token :=
  match http.ReadAll_LimitReader resp (N.shiftl 1 20) with
  | Err err => Err (Errorf cannot_fetch err)
  | OK body =>
      let c := http.StatusCode resp in
      if (c <? 200) || (299 <? c) then
        Err (RetrieveError (http.StatusCode resp) (http.Status resp) body)
      else
        let '(tokenRes, err) :=
          Unmarshal_tokenRes body (mkTokenRes "" "" "") in
        match err with
        | Some err => Err (Errorf cannot_fetch err)
        | None =>
            let token := oauth2.mkToken (AccessToken tokenRes) "token" ""
                                        time.zero ANil in
            let raw : gmap string any := ∅ in
            let '(raw, _) := json.Unmarshal_map body raw in
              (* no error checks for optional fields *)
            let token := oauth2.WithExtra token (AMap raw) in
            if negb (String.eqb (ExpiresAt tokenRes) "") then
              match time_Parse_RFC3339 (ExpiresAt tokenRes) with
              | Err err => Err (Errorf cannot_fetch err)
              | OK expiry => OK (oauth2.with_Expiry token expiry)
              end
            else OK token
        end
  end.

(** func (js jwtSource) Token (config.go) *)
Definition Token `{Libraries} (js : jwtSource) : M (Result oauth2.Token) :=
  (let? repos := ret (Encode_Repositories (Repositories_ (conf js))) in
   let? req := ret (http.NewRequest "POST" (TokenURL (conf js)) None) in
   let req := http.add_header req "Accept" "application/vnd.github.v3+json" in
   let? payload := Payload (JWT_ (conf js)) in
   let req := http.add_header req "Authorization" ("Bearer " ++ payload) in
   let! r := Client_Do req in
   match r with
   | Err err => ret (Err (Errorf cannot_fetch err))
   | OK resp => ret (Token_of_response resp)
   end)%go.

(** func (c *Config) TokenSource (config.go) *)
Definition TokenSource `{Libraries} (c : Config) : oauth2.reuseTokenSource :=
  oauth2.ReuseTokenSource None (Token (mkSource c)).

End jwt.

(** ** Package endpoint *)

Module endpoint.

(** var Default *)
Definition Default : string := "https://api.github.com".

(** type Endpoint *)
Record Endpoint : Type := mkEndpoint { url : url.URL }.

(** func new *)
Definition new `{Libraries} (raw : string) : Result Endpoint :=
  match url_Parse raw with
  | Err err => Err err
  | OK u => OK (mkEndpoint u)
  end.

(** func New *)
Definition New `{Libraries} : Result Endpoint := new Default.

(** func NewEnterprise *)
Definition NewEnterprise `{Libraries} (url : string) : Result Endpoint :=
  new url.

(** func (e *Endpoint) Get *)
Definition Get `{Libraries} (e : Endpoint) (uri : string) : Result string :=
  match url_ParseRequestURI uri with
  | Err err => Err err
  | OK u => OK (url_String (url_ResolveReference (url e) u))
  end.

End endpoint.

(** ** Package app/inst *)

Module inst.
#[local] Open Scope Z_scope.

(** type Config *)
Record Config : Type := mkConfig { config : jwt.Config }.

(** func new *)
Definition new `{Libraries} (endpoint : endpoint.Endpoint)
               (appID instID : string) (key : rsa.PrivateKey)
  : Result Config :=
  match endpoint.Get endpoint
          ("/app/installations/" ++ instID ++ "/access_tokens") with
  | Err err => Err err
  | OK url =>
      OK (mkConfig
            (jwt.mkConfig (jwt.mkJWT appID key (time.Minute * 10))
                          (jwt.mkRepositories [] [])
                          url))
  end.

(** func NewConfig *)
Definition NewConfig `{Libraries} (appID instID : string)
                     (key : rsa.PrivateKey) : Result Config :=
  match endpoint.New with
  | Err err => Err err
  | OK endpoint => new endpoint appID instID key
  end.

(** func NewEnterpriseConfig *)
Definition NewEnterpriseConfig `{Libraries} (url appID instID : string)
                               (key : rsa.PrivateKey) : Result Config :=
  match endpoint.NewEnterprise url with
  | Err err => Err err
  | OK endpoint => new endpoint appID instID key
  end.

(** func (c *Config) SetRepositories *)
Definition SetRepositories (c : Config) (names : list string) : Config :=
  let cfg := config c in
  mkConfig (jwt.mkConfig (jwt.JWT_ cfg)
              (jwt.mkRepositories names (jwt.IDs (jwt.Repositories_ cfg)))
              (jwt.TokenURL cfg)).

(** func (c *Config) SetRepositoryIDs *)
Definition SetRepositoryIDs (c : Config) (ids : list string) : Config :=
  let cfg := config c in
  mkConfig (jwt.mkConfig (jwt.JWT_ cfg)
              (jwt.mkRepositories (jwt.Names (jwt.Repositories_ cfg)) ids)
              (jwt.TokenURL cfg)).

(** func (c *Config) Permissions *)
Definition Permissions `{Libraries} (c : Config)
  : M (Result (gmap string string)) :=
  (let! r := oauth2.reuse_Token (jwt.TokenSource (config c)) in
   match fst r with
   | Err err =>
       ret (Err (errorString ("failed to get token: " ++ Error_text err)))
   | OK token =>
       let extra := oauth2.Extra token "permissions" in
       match extra with
       | AMapSS pp => ret (OK pp)
       | _ =>
           ret (Err (errorString
                  ("failed to get permissions from extra field: "
                   ++ fmt_Sprint extra)))
       end
   end)%go.

(** func (c *Config) RepositorySelection *)
Definition RepositorySelection `{Libraries} (c : Config)
  : M (Result string) :=
  (let! r := oauth2.reuse_Token (jwt.TokenSource (config c)) in
   match fst r with
   | Err err =>
       ret (Err (errorString ("failed to get token: " ++ Error_text err)))
   | OK token =>
       let extra := oauth2.Extra token "repository_selection" in
       match extra with
       | AString rs => ret (OK rs)
       | _ =>
           ret (Err (errorString
                  ("failed to get permissions from extra field: "
                   ++ fmt_Sprint extra)))
       end
   end)%go.

End inst.

(** ** Package app *)

Module app.
#[local] Open Scope Z_scope.

(** type Config *)
Record Config : Type := mkConfig { jwt : jwt.JWT }.

(** func NewConfig *)
Definition NewConfig (id : string) (key : rsa.PrivateKey) : Result Config :=
  OK (mkConfig (jwt.mkJWT id key (time.Minute * 10))).

(** func (c *Config) Client: the transport of the client. *)
Definition Client (c : Config) : jwt.transport := jwt.Client (jwt c).

(** func (c *Config) InstallationConfig *)
Definition InstallationConfig `{Libraries} (c : Config) (id : string)
  : Result inst.Config :=
  inst.NewConfig (jwt.AppID (jwt c)) id (jwt.PrivateKey (jwt c)).

End app.

(** ** golang.org/x/oauth2: the transport of an authorized client *)

Module oauth2_transport.

(** [strings.EqualFold] against a name in ASCII. *)
Definition EqualFold (s name : string) : bool :=
  String.eqb (json.foldName s) (json.foldName name).

(** [t.Type()] (token.go) *)
Definition Type_ (t : oauth2.Token) : string :=
  if EqualFold (oauth2.TokenType t) "bearer" then "Bearer"
  else if EqualFold (oauth2.TokenType t) "mac" then "MAC"
  else if EqualFold (oauth2.TokenType t) "basic" then "Basic"
  else if negb (String.eqb (oauth2.TokenType t) "") then oauth2.TokenType t
  else "Bearer".

(** [h.Set(key, value)]: [value] replaces the values of [key]. *)
Definition Header_Set (h : http.Header) (key value : string) : http.Header :=
  <[http.CanonicalMIMEHeaderKey key := [value]]> h.

(** [t.SetAuthHeader(r)] (token.go) *)
Definition SetAuthHeader (t : oauth2.Token) (r : http.Request) : http.Request :=
  http.mkRequest (http.Method r) (http.URL r)
    (Header_Set (http.Header_ r) "Authorization"
                (Type_ t ++ " " ++ oauth2.AccessToken t))
    (http.Body r).

(** type Transport (transport.go); its [Base] is the transport of the
    HTTP client of the context. *)
Record Transport : Type := mkTransport { Source : oauth2.reuseTokenSource }.

(** func (t *Transport) RoundTrip (transport.go): the response, and the
    transport afterwards, whose source holds the token it fetched.  The
    request that is sent is a copy of [req] ([cloneRequest]), so [req]
    itself is left as it is. *)
Definition RoundTrip (t : Transport) (req : http.Request)
  : M (Result http.Response * Transport) :=
  (let! r := oauth2.reuse_Token (Source t) in
   match fst r with
   | Err err => ret (Err err, mkTransport (snd r))
   | OK token =>
       let req2 := req in
       let req2 := SetAuthHeader token req2 in
       let! resp := dispatch req2 in
       ret (resp, mkTransport (snd r))
   end)%go.

(** [NewClient(ctx, src)] for a [src] that is a [reuseTokenSource],
    which [ReuseTokenSource(nil, src)] returns as it is: the transport
    of the client. *)
Definition NewClient (src : oauth2.reuseTokenSource) : Transport :=
  mkTransport src.

End oauth2_transport.

(** ** The clients of the configurations *)

Module jwt_Config.

(** func (c *Config) Client (jwt/config.go): the transport of the
    client. *)
Definition Client `{Libraries} (c : jwt.Config) : oauth2_transport.Transport :=
  oauth2_transport.NewClient (jwt.TokenSource c).

End jwt_Config.

Module inst_Config.

(** func (c *Config) Client (app/inst): the transport of the client. *)
Definition Client `{Libraries} (c : inst.Config) : oauth2_transport.Transport :=
  jwt_Config.Client (inst.config c).

End inst_Config.

(** ** A reference implementation of the libraries

    net/url after the Go sources, [time.Parse] for the RFC 3339 layout,
    [fmt] for dynamic values, and a stand-in for the RSA signature: no
    property below depends on the bytes of a signature.  The texts of
    library errors are indicative. *)

Module GoReference.

Import Strings.

(** *** net/url *)

Inductive encoding : Type :=
| encodePath | encodePathSegment | encodeHost | encodeZone
| encodeUserPassword | encodeQueryComponent | encodeFragment.

Definition is_host_mode (mode : encoding) : bool :=
  match mode with encodeHost | encodeZone => true | _ => false end.

(** func shouldEscape *)
Definition shouldEscape (c : ascii) (mode : encoding) : bool :=
  if is_letter c || is_digit c then false
  else if is_host_mode mode
          && (Contains_char c "!$&'()*+,;=:[]<>" || Ascii.eqb c dquote)
  then false
  else if Contains_char c "-_.~" then false
  else if Contains_char c "$&+,/:;=?@" then
    match mode with
    | encodePath => Ascii.eqb c "?"
    | encodePathSegment => Contains_char c "/;,?"
    | encodeUserPassword => Contains_char c "@/?:"
    | encodeQueryComponent => true
    | encodeFragment => false
    | _ => true
    end
  else match mode with
       | encodeFragment => negb (Contains_char c "!()*")
       | _ => true
       end.

Definition is_hex (c : ascii) : bool :=
  match hexval c with Some _ => true | None => false end.

Definition unhex (c : ascii) : N := default 0%N (hexval c).

Definition EscapeError (s : string) : error :=
  LibError "url.EscapeError" ("invalid URL escape " ++ s).
Definition InvalidHostError (s : string) : error :=
  LibError "url.InvalidHostError" ("invalid character " ++ s ++ " in host name").

(** func unescape: the check of the escapes and of the bytes of a host,
    then the decoding. *)
Fixpoint unescape (s : string) (mode : encoding) : Result string :=
  match s with
  | EmptyString => OK EmptyString
  | String c r =>
      if Ascii.eqb c "%" then
        match r with
        | String h1 (String h2 r') =>
            if negb (is_hex h1 && is_hex h2) then Err (EscapeError (take 3 s))
            else
              let is25 := Ascii.eqb h1 "2" && Ascii.eqb h2 "5" in
              let v := ascii_of_N (unhex h1 * 16 + unhex h2) in
              if match mode with
                 | encodeHost => (unhex h1 <? 8)%N && negb is25
                 | encodeZone =>
                     negb is25 && negb (Ascii.eqb v " ")
                     && shouldEscape v encodeHost
                 | _ => false
                 end
              then Err (EscapeError (take 3 s))
              else match unescape r' mode with
                   | OK t => OK (String v t)
                   | Err e => Err e
                   end
        | _ => Err (EscapeError (take 3 s))
        end
      else if is_host_mode mode && (byte_of c <? 128)%N
              && shouldEscape c encodeHost
      then Err (InvalidHostError (String c EmptyString))
      else
        let c' := match mode with
                  | encodeQueryComponent => if Ascii.eqb c "+" then " "%char else c
                  | _ => c
                  end in
        match unescape r mode with
        | OK t => OK (String c' t)
        | Err e => Err e
        end
  end.

(** func escape *)
Fixpoint escape (s : string) (mode : encoding) : string :=
  match s with
  | EmptyString => EmptyString
  | String c r =>
      (if shouldEscape c mode then
         match mode with
         | encodeQueryComponent =>
             if Ascii.eqb c " " then "+"
             else String "%" (String (to_upper (hexdigit (N.shiftr (byte_of c) 4)))
                    (String (to_upper (hexdigit (N.land (byte_of c) 15))) ""))
         | _ => String "%" (String (to_upper (hexdigit (N.shiftr (byte_of c) 4)))
                    (String (to_upper (hexdigit (N.land (byte_of c) 15))) ""))
         end
       else String c "") ++ escape r mode
  end.

(** func validEncoded *)
Definition validEncoded (s : string) (mode : encoding) : bool :=
  forallb_string
    (fun c => Contains_char c "!$&'()*+,;=:@[]%" || negb (shouldEscape c mode))
    s.

(** func stringContainsCTLByte *)
Definition stringContainsCTLByte (s : string) : bool :=
  negb (forallb_string
          (fun c => negb ((byte_of c <? 32)%N || (byte_of c =? 127)%N)) s).

(** func getScheme *)
Fixpoint getScheme_from (first : bool) (scheme s rawURL : string)
  : Result (string * string) :=
  match s with
  | EmptyString => OK (EmptyString, rawURL)
  | String c r =>
      if is_letter c then
        getScheme_from false (scheme ++ String c "") r rawURL
      else if is_digit c || Contains_char c "+-." then
        if first then OK (EmptyString, rawURL)
        else getScheme_from false (scheme ++ String c "") r rawURL
      else if Ascii.eqb c ":" then
        if first then Err (errorString "missing protocol scheme")
        else OK (scheme, r)
      else OK (EmptyString, rawURL)
  end.

Definition getScheme (rawURL : string) : Result (string * string) :=
  getScheme_from true EmptyString rawURL rawURL.

(** [strings.LastIndex(s, c)] as the text before and after the last [c]. *)
Fixpoint cut_last (c : ascii) (s : string) : option (string * string) :=
  match s with
  | EmptyString => None
  | String d r =>
      match cut_last c r with
      | Some (a, b) => Some (String d a, b)
      | None => if Ascii.eqb d c then Some (EmptyString, r) else None
      end
  end.

(** The text before the first occurrence of [sub] and the text from it
    on, when there is one. *)
Fixpoint cut_at (sub s : string) : option (string * string) :=
  if HasPrefix s sub then Some (EmptyString, s)
  else match s with
       | EmptyString => None
       | String c r =>
           match cut_at sub r with
           | Some (a, b) => Some (String c a, b)
           | None => None
           end
       end.

(** func validOptionalPort *)
Definition validOptionalPort (port : string) : bool :=
  match port with
  | EmptyString => true
  | String c r => Ascii.eqb c ":" && forallb_string is_digit r
  end.

Definition invalid_port (colonPort : string) : error :=
  errorString ("invalid port " ++ colonPort ++ " after host").

(** func parseHost *)
Definition parseHost (host : string) : Result string :=
  if HasPrefix host "[" then
    match cut_last "]" host with
    | None => Err (errorString "missing ']' in host")
    | Some (before, colonPort) =>
        if negb (validOptionalPort colonPort) then Err (invalid_port colonPort)
        else
          match cut_at "%25" before with
          | Some (h1, h2) =>
              match unescape h1 encodeHost with
              | Err e => Err e
              | OK host1 =>
                  match unescape h2 encodeZone with
                  | Err e => Err e
                  | OK host2 =>
                      match unescape (String "]" colonPort) encodeHost with
                      | Err e => Err e
                      | OK host3 => OK (host1 ++ host2 ++ host3)
                      end
                  end
              end
          | None => unescape host encodeHost
          end
    end
  else
    match cut_last ":" host with
    | Some (_, port) =>
        if negb (validOptionalPort (String ":" port))
        then Err (invalid_port (String ":" port))
        else unescape host encodeHost
    | None => unescape host encodeHost
    end.

(** func validUserinfo *)
Definition validUserinfo (s : string) : bool :=
  forallb_string
    (fun c => is_letter c || is_digit c
              || Contains_char c "-._:~!$&'()*+,;=%@") s.

(** func parseAuthority *)
Definition parseAuthority (authority : string)
  : Result (option url.Userinfo * string) :=
  match cut_last "@" authority with
  | None =>
      match parseHost authority with
      | Err e => Err e
      | OK host => OK (None, host)
      end
  | Some (userinfo, hostpart) =>
      match parseHost hostpart with
      | Err e => Err e
      | OK host =>
          if negb (validUserinfo userinfo)
          then Err (errorString "net/url: invalid userinfo")
          else
            let '(username, password, found) := Cut ":" userinfo in
            match unescape username encodeUserPassword with
            | Err e => Err e
            | OK username =>
                if found then
                  match unescape password encodeUserPassword with
                  | Err e => Err e
                  | OK password =>
                      OK (Some (url.mkUserinfo username password true), host)
                  end
                else OK (Some (url.mkUserinfo username "" false), host)
            end
      end
  end.

Definition set_Path (u : url.URL) (path rawpath : string) : url.URL :=
  url.mkURL (url.Scheme u) (url.Opaque u) (url.User u) (url.Host u)
    path rawpath (url.OmitHost u) (url.ForceQuery u) (url.RawQuery u)
    (url.Fragment u) (url.RawFragment u).

(** func (u *URL) setPath: on an error the URL is left as it was. *)
Definition setPath (u : url.URL) (p : string) : url.URL * option error :=
  match unescape p encodePath with
  | Err e => (u, Some e)
  | OK path =>
      (set_Path u path
         (if String.eqb p (escape path encodePath) then "" else p), None)
  end.

(** func (u *URL) setFragment *)
Definition setFragment (u : url.URL) (f : string) : url.URL * option error :=
  match unescape f encodeFragment with
  | Err e => (u, Some e)
  | OK frag =>
      (url.mkURL (url.Scheme u) (url.Opaque u) (url.User u) (url.Host u)
         (url.Path u) (url.RawPath u) (url.OmitHost u) (url.ForceQuery u)
         (url.RawQuery u) frag
         (if String.eqb f (escape frag encodeFragment) then "" else f), None)
  end.

Fixpoint count_char (c : ascii) (s : string) : nat :=
  match s with
  | EmptyString => 0
  | String d r => (if Ascii.eqb c d then 1 else 0) + count_char c r
  end.

Fixpoint HasSuffix_char (s : string) (c : ascii) : bool :=
  match s with
  | EmptyString => false
  | String d EmptyString => Ascii.eqb d c
  | String _ r => HasSuffix_char r c
  end.

Definition drop_last (s : string) : string := take (String.length s - 1) s.

(** func parse *)
Definition parse (rawURL : string) (viaRequest : bool) : Result url.URL :=
  if stringContainsCTLByte rawURL
  then Err (errorString "net/url: invalid control character in URL")
  else if String.eqb rawURL "" && viaRequest
  then Err (errorString "empty url")
  else if String.eqb rawURL "*"
  then OK (set_Path url.empty "*" "")
  else
    match getScheme rawURL with
    | Err e => Err e
    | OK (scheme, rest) =>
        let scheme := ToLower scheme in
        let '(rest, forceQuery, rawQuery) :=
          if HasSuffix_char rest "?" && (count_char "?" rest =? 1)%nat
          then (drop_last rest, true, EmptyString)
          else let '(a, b, _) := Cut "?" rest in (a, false, b) in
        let mk user host omit :=
          url.mkURL scheme "" user host "" "" omit forceQuery rawQuery "" "" in
        let rooted := HasPrefix rest "/" in
        if negb rooted && negb (String.eqb scheme "") then
          OK (url.mkURL scheme rest None "" "" "" false forceQuery rawQuery "" "")
        else if negb rooted && viaRequest then
          Err (errorString "invalid URI for request")
        else if negb rooted
                && Contains_char ":" (fst (fst (Cut "/" rest))) then
          Err (errorString "first path segment in URL cannot contain colon")
        else
          let finish (u : url.URL) (rest : string) : Result url.URL :=
            match setPath u rest with
            | (_, Some e) => Err e
            | (u, None) => OK u
            end in
          if (negb (String.eqb scheme "")
              || negb viaRequest && negb (HasPrefix rest "///"))
             && HasPrefix rest "//"
          then
            let '(authority, rest) :=
              match cut_at "/" (drop 2 rest) with
              | Some (a, b) => (a, b)
              | None => (drop 2 rest, EmptyString)
              end in
            match parseAuthority authority with
            | Err e => Err e
            | OK (user, host) => finish (mk user host false) rest
            end
          else if negb (String.eqb scheme "") && rooted
          then finish (mk None "" true) rest
          else finish (mk None "" false) rest
    end.

Definition url_Error (op rawURL : string) (e : error) : error :=
  LibError "*url.Error" (op ++ " " ++ rawURL ++ ": " ++ Error_text e).

(** func Parse *)
Definition Parse (rawURL : string) : Result url.URL :=
  let '(u, frag, _) := Cut "#" rawURL in
  match parse u false with
  | Err e => Err (url_Error "parse" u e)
  | OK url =>
      if String.eqb frag "" then OK url
      else match setFragment url frag with
           | (_, Some e) => Err (url_Error "parse" rawURL e)
           | (url, None) => OK url
           end
  end.

(** func ParseRequestURI *)
Definition ParseRequestURI (rawURL : string) : Result url.URL :=
  match parse rawURL true with
  | Err e => Err (url_Error "parse" rawURL e)
  | OK url => OK url
  end.

(** func (u *URL) EscapedPath *)
Definition EscapedPath (u : url.URL) : string :=
  let fallback :=
    if String.eqb (url.Path u) "*" then "*"
    else escape (url.Path u) encodePath in
  if negb (String.eqb (url.RawPath u) "")
     && validEncoded (url.RawPath u) encodePath
  then match unescape (url.RawPath u) encodePath with
       | OK p => if String.eqb p (url.Path u) then url.RawPath u else fallback
       | Err _ => fallback
       end
  else fallback.

(** func (u *URL) EscapedFragment *)
Definition EscapedFragment (u : url.URL) : string :=
  let fallback := escape (url.Fragment u) encodeFragment in
  if negb (String.eqb (url.RawFragment u) "")
     && validEncoded (url.RawFragment u) encodeFragment
  then match unescape (url.RawFragment u) encodeFragment with
       | OK f => if String.eqb f (url.Fragment u)
                 then url.RawFragment u else fallback
       | Err _ => fallback
       end
  else fallback.

(** func (u *Userinfo) String *)
Definition Userinfo_String (ui : url.Userinfo) : string :=
  escape (url.username ui) encodeUserPassword
  ++ (if url.passwordSet ui
      then ":" ++ escape (url.password ui) encodeUserPassword else "").

Definition is_Some_b {A} (o : option A) : bool :=
  match o with Some _ => true | None => false end.

(** func (u *URL) String *)
Definition String_ (u : url.URL) : string :=
  let scheme :=
    if String.eqb (url.Scheme u) "" then "" else url.Scheme u ++ ":" in
  let body :=
    if negb (String.eqb (url.Opaque u) "") then scheme ++ url.Opaque u
    else
      let hostEmpty := String.eqb (url.Host u) "" in
      let auth :=
        if negb (String.eqb (url.Scheme u) "") || negb hostEmpty
           || is_Some_b (url.User u)
        then
          if url.OmitHost u && hostEmpty && negb (is_Some_b (url.User u))
          then ""
          else
            (if negb hostEmpty || negb (String.eqb (url.Path u) "")
                || is_Some_b (url.User u) then "//" else "")
            ++ match url.User u with
               | Some ui => Userinfo_String ui ++ "@"
               | None => ""
               end
            ++ (if hostEmpty then "" else escape (url.Host u) encodeHost)
        else "" in
      let path := EscapedPath u in
      let buf :=
        scheme ++ auth
        ++ (if negb (String.eqb path "") && negb (HasPrefix path "/")
               && negb hostEmpty then "/" else "") in
      buf
      ++ (if String.eqb buf ""
             && Contains_char ":" (fst (fst (Cut "/" path)))
          then "./" else "")
      ++ path in
  body
  ++ (if url.ForceQuery u || negb (String.eqb (url.RawQuery u) "")
      then "?" ++ url.RawQuery u else "")
  ++ (if String.eqb (url.Fragment u) "" then ""
      else "#" ++ EscapedFragment u).

(** The loop of func resolvePath over the elements of the path: [dst] is
    the text written so far, [first] whether no element has been. *)
Fixpoint resolve_elems (elems : list string) (dst : string) (first : bool)
  : string :=
  match elems with
  | [] => dst
  | elem :: rest =>
      let trailing :=
        match rest with
        | [] => if String.eqb elem "." || String.eqb elem ".." then "/" else ""
        | _ => ""
        end in
      (if String.eqb elem "." then resolve_elems rest dst false
       else if String.eqb elem ".." then
         match cut_last "/" (drop 1 dst) with
         | None => resolve_elems rest "/" true
         | Some (before, _) => resolve_elems rest ("/" ++ before) first
         end
       else
         resolve_elems rest
           (dst ++ (if first then "" else "/") ++ elem) false)
      ++ trailing
  end.

(** func resolvePath *)
Definition resolvePath (base ref : string) : string :=
  let full :=
    if String.eqb ref "" then base
    else if negb (HasPrefix ref "/") then
      match cut_last "/" base with
      | Some (before, _) => before ++ "/" ++ ref
      | None => ref
      end
    else ref in
  if String.eqb full "" then ""
  else
    let r := resolve_elems (Split "/" full) "/" true in
    match r with
    | String _ (String c _) => if Ascii.eqb c "/" then drop 1 r else r
    | _ => r
    end.

(** func (u *URL) ResolveReference *)
Definition ResolveReference (u ref : url.URL) : url.URL :=
  let scheme :=
    if String.eqb (url.Scheme ref) "" then url.Scheme u else url.Scheme ref in
  let with_scheme :=
    url.mkURL scheme (url.Opaque ref) (url.User ref) (url.Host ref)
      (url.Path ref) (url.RawPath ref) (url.OmitHost ref)
      (url.ForceQuery ref) (url.RawQuery ref) (url.Fragment ref)
      (url.RawFragment ref) in
  if negb (String.eqb (url.Scheme ref) "")
     || negb (String.eqb (url.Host ref) "") || is_Some_b (url.User ref)
  then fst (setPath with_scheme (resolvePath (EscapedPath ref) ""))
  else if negb (String.eqb (url.Opaque ref) "") then
    url.mkURL scheme (url.Opaque ref) None "" "" (url.RawPath ref)
      (url.OmitHost ref) (url.ForceQuery ref) (url.RawQuery ref)
      (url.Fragment ref) (url.RawFragment ref)
  else
    let inherit :=
      String.eqb (url.Path ref) "" && negb (url.ForceQuery ref)
      && String.eqb (url.RawQuery ref) "" in
    let rawQuery := if inherit then url.RawQuery u else url.RawQuery ref in
    let keepFragment := inherit && String.eqb (url.Fragment ref) "" in
    let fragment := if keepFragment then url.Fragment u else url.Fragment ref in
    let rawFragment :=
      if keepFragment then url.RawFragment u else url.RawFragment ref in
    if String.eqb (url.Path ref) "" && negb (String.eqb (url.Opaque u) "")
    then
      url.mkURL scheme (url.Opaque u) None "" "" (url.RawPath ref)
        (url.OmitHost ref) (url.ForceQuery ref) rawQuery fragment rawFragment
    else
      fst (setPath
             (url.mkURL scheme (url.Opaque ref) (url.User u) (url.Host u)
                (url.Path ref) (url.RawPath ref) (url.OmitHost ref)
                (url.ForceQuery ref) rawQuery fragment rawFragment)
             (resolvePath (EscapedPath u) (EscapedPath ref))).

(** *** time: the RFC 3339 layout *)

Definition is_leap (y : Z) : bool :=
  ((y mod 4 =? 0) && negb (y mod 100 =? 0) || (y mod 400 =? 0))%Z.

Definition days_in (y m : Z) : Z :=
  if (m =? 2)%Z then (if is_leap y then 29 else 28)%Z
  else if ((m =? 4) || (m =? 6) || (m =? 9) || (m =? 11))%Z then 30%Z
  else 31%Z.

(** Days from 1970-01-01 to the given date of the proleptic Gregorian
    calendar. *)
Definition days_from_civil (y m d : Z) : Z :=
  (let y' := if m <=? 2 then y - 1 else y in
   let era := y' / 400 in
   let yoe := y' - era * 400 in
   let doy := (153 * (if 2 <? m then m - 3 else m + 9) + 2) / 5 + d - 1 in
   let doe := yoe * 365 + yoe / 4 - yoe / 100 + doy in
   era * 146097 + doe - 719468)%Z.

(** [n] digits off the head of [s]. *)
Definition digits (n : nat) (s : string) : option (Z * string) :=
  let ds := take n s in
  if (String.length ds =? n)%nat && forallb_string is_digit ds
  then Some (digits_value ds, drop n s) else None.

Definition expect (c : ascii) (s : string) : option string :=
  match s with
  | String d r => if Ascii.eqb c d then Some r else None
  | EmptyString => None
  end.

Definition pad9 (ds : string) : string := take 9 (ds ++ "000000000").

Definition ParseError (value : string) : error :=
  LibError "*time.ParseError" ("parsing time " ++ value ++ ": cannot parse").

Definition parse_RFC3339 (value : string) : option time.Time :=
  '(y, s) ← digits 4 value; s ← expect "-" s;
  '(m, s) ← digits 2 s; s ← expect "-" s;
  '(d, s) ← digits 2 s; s ← expect "T" s;
  '(hh, s) ← digits 2 s; s ← expect ":" s;
  '(mm, s) ← digits 2 s; s ← expect ":" s;
  '(ss, s) ← digits 2 s;
  '(frac, s) ←
    match s with
    | String "."%char r =>
        let '(ds, r') := span is_digit r in
        if String.eqb ds "" then None else Some (digits_value (pad9 ds), r')
    | _ => Some (0%Z, s)
    end;
  offset ←
    match s with
    | String "Z"%char EmptyString => Some 0%Z
    | String sign r =>
        if Ascii.eqb sign "+" || Ascii.eqb sign "-" then
          '(oh, r) ← digits 2 r; r ← expect ":" r;
          '(om, r) ← digits 2 r;
          if String.eqb r "" && (oh <? 24)%Z && (om <? 60)%Z then
            Some ((if Ascii.eqb sign "-" then -1 else 1) * (oh * 3600 + om * 60))%Z
          else None
        else None
    | EmptyString => None
    end;
  if ((1 <=? m) && (m <=? 12) && (1 <=? d) && (d <=? days_in y m)
      && (hh <? 24) && (mm <? 60) && (ss <? 60))%Z
  then Some (((days_from_civil y m d * 86400 + hh * 3600 + mm * 60 + ss
               - offset) * 1000000000 + frac)%Z)
  else None.

Definition Parse_RFC3339 (value : string) : Result time.Time :=
  match parse_RFC3339 value with
  | Some t => OK t
  | None => Err (ParseError value)
  end.

(** *** fmt *)

Fixpoint insert_sorted (kv : string * string) (l : list (string * string))
  : list (string * string) :=
  match l with
  | [] => [kv]
  | kv' :: l' =>
      if String.leb (fst kv) (fst kv') then kv :: l
      else kv' :: insert_sorted kv l'
  end.

Definition print_map (m : gmap string string) : string :=
  "map["
  ++ String.concat " "
       (map (fun kv => fst kv ++ ":" ++ snd kv)
            (fold_right insert_sorted [] (map_to_list m)))
  ++ "]".

(** The verb v on a dynamic value: a map prints its keys in order; a
    number is printed as its literal. *)
Fixpoint Sprint (a : any) : string :=
  match a with
  | ANil => "<nil>"
  | ABool b => if b then "true" else "false"
  | AFloat64 lit => lit
  | AString s => s
  | ASlice l => "[" ++ String.concat " " (map Sprint l) ++ "]"
  | AMap m => print_map (Sprint <$> m)
  | AMapSS m => print_map m
  end.

(** *** crypto/rsa: a stand-in *)

Fixpoint powmod (b : Z) (e : positive) (n : Z) : Z :=
  match e with
  | xH => (b mod n)%Z
  | xO e' => let x := powmod b e' n in (x * x mod n)%Z
  | xI e' => let x := powmod b e' n in ((x * x mod n) * b mod n)%Z
  end.

Definition checksum (message : string) (n : Z) : Z :=
  (fix go (acc : Z) (s : string) : Z :=
     match s with
     | EmptyString => acc
     | String c r => go ((acc * 257 + Z.of_N (byte_of c) + 1) mod n)%Z r
     end) 1%Z message.

Fixpoint big_endian (len : nat) (z : Z) : string :=
  match len with
  | O => EmptyString
  | S len' =>
      big_endian len' (z / 256)%Z
      ++ String (ascii_of_N (Z.to_N (z mod 256))) EmptyString
  end.

(** Textbook RSA on a checksum of the message, in place of
    RSASSA-PKCS1-v1_5 on its SHA-256 digest. *)
Definition Sign (key : rsa.PrivateKey) (message : string) : Result string :=
  match rsa.D key with
  | Zpos d =>
      if (1 <? rsa.N key)%Z then
        OK (big_endian (Z.to_nat (Z.log2_up (rsa.N key) / 8 + 1))
              (powmod (checksum message (rsa.N key)) d (rsa.N key)))
      else Err (LibError "crypto/rsa" "crypto/rsa: invalid key")
  | _ => Err (LibError "crypto/rsa" "crypto/rsa: invalid key")
  end.

#[global] Instance libraries : Libraries := {
  url_Parse := Parse;
  url_ParseRequestURI := ParseRequestURI;
  url_ResolveReference := ResolveReference;
  url_String := String_;
  time_Parse_RFC3339 := Parse_RFC3339;
  rsa_SignPKCS1v15_SHA256 := Sign;
  fmt_Sprint := Sprint
}.

End GoReference.

(** ** Sample data

    An identity, configurations, responses and worlds on which the
    program is run with the reference libraries. *)

Module Sample.
Import Strings.
#[local] Open Scope Z_scope.

Definition key : rsa.PrivateKey := rsa.mkPrivateKey 3233 17 2753.
Definition bad_key : rsa.PrivateKey := rsa.mkPrivateKey 3233 17 0.

(** 2023-11-14T22:13:20.123456789Z *)
Definition clock : time.Time := 1700000000123456789.

Definition identity : jwt.JWT := jwt.mkJWT "1" key (time.Minute * 10).
Definition identity_no_expiry : jwt.JWT := jwt.mkJWT "1" key 0.
Definition identity_bad_key : jwt.JWT := jwt.mkJWT "1" bad_key (time.Minute * 10).

(** The assertion of [identity] at [clock]. *)
Definition assertion : string :=
  "eyJhbGciOiJSUzI1NiIsInR5cCI6IkpXVCJ9.eyJpc3MiOiIxIiwiZXhwIjoxNzAwMDAwNjAwfQ.A9o".

Definition token_url : string :=
  "https://api.github.com/app/installations/42/access_tokens".

Definition config : jwt.Config :=
  jwt.mkConfig identity (jwt.mkRepositories [] []) token_url.

(** The same installation, limited to the repositories a and b. *)
Definition scoped_config : jwt.Config :=
  inst.config (inst.SetRepositories (inst.mkConfig config) ["a"; "b"]).

(** A world whose network answers every request with [resp]. *)
Definition world_answering (resp : http.Response) : World :=
  mkWorld clock (fun _ => OK resp) [].

Definition ok_body : string :=
  q "{'token':'v1.abc','expires_at':'2050-01-01T00:00:00Z','permissions':{'issues':'write','contents':'read'},'repository_selection':'all'}".

Definition ok_response : http.Response :=
  http.mkResponse "200 OK" 200 ok_body None.

(** A success whose body is empty. *)
Definition empty_response : http.Response :=
  http.mkResponse "200 OK" 200 "" None.

(** The failure of jwt/config_test.go. *)
Definition bad_request_body : string := q "{'error': 'invalid_grant'}".
Definition bad_request : http.Response :=
  http.mkResponse "400 Bad Request" 400 bad_request_body None.

(** A success whose expires_at is the empty string. *)
Definition empty_expiry_body : string := q "{'token':'v1.abc','expires_at':''}".
Definition empty_expiry_response : http.Response :=
  http.mkResponse "201 Created" 201 empty_expiry_body None.

(** A success with a number that no float64 holds. *)
Definition overflow_body : string :=
  q "{'token':'v1.abc','quota':1e999,'repository_selection':'all'}".
Definition overflow_response : http.Response :=
  http.mkResponse "201 Created" 201 overflow_body None.

Definition world : World := world_answering ok_response.

Definition api_app : url.URL :=
  url.mkURL "https" "" None "api.github.com" "/app" "" false false "" "" "".

(** The configuration and the response of TestJWTFetch_JSONResponse in
    jwt/config_test.go (the white space of the body apart): no Expires,
    and the URL of a test server. *)
Definition test_config : jwt.Config :=
  jwt.mkConfig (jwt.mkJWT "1" key 0) (jwt.mkRepositories [] [])
               "http://127.0.0.1:40123".

Definition test_response : http.Response :=
  http.mkResponse "200 OK" 200
    (q "{ 'token': 'v1.1f699f1069f60xxx', 'expires_at': '2050-01-01T11:12:13Z', 'permissions': { 'issues': 'write', 'contents': 'read' }, 'repository_selection': 'all' }")
    None.

(** A request that carries no credentials, and one that does. *)
Definition request : http.Request := http.mkRequest "GET" api_app ∅ None.
Definition request_with_credentials : http.Request :=
  http.mkRequest "GET" api_app {["Authorization" := ["Basic YWJj"]]} None.

End Sample.

(** ** Further responses *)

Module Responses.
Import Strings.
#[local] Open Scope Z_scope.

(** A success whose TokenType member, in lower case, holds a number. *)
Definition numeric_type_body : string := q "{'token':'v1.abc','tokentype':1}".
Definition numeric_type : http.Response :=
  http.mkResponse "201 Created" 201 numeric_type_body None.

(** A success whose token member is in upper case, and whose
    repository_selection member comes twice. *)
Definition duplicates_body : string :=
  q "{'TOKEN':'v1.abc','repository_selection':'all','repository_selection':'selected'}".
Definition duplicates : http.Response :=
  http.mkResponse "201 Created" 201 duplicates_body None.

(** A success with an empty object. *)
Definition empty_object : http.Response :=
  http.mkResponse "201 Created" 201 "{}" None.

(** A success whose token expires at the sample instant plus one hour,
    2023-11-14T23:13:20Z. *)
Definition hour_body : string :=
  q "{'token':'v1.abc','expires_at':'2023-11-14T23:13:20Z'}".
Definition hour : http.Response :=
  http.mkResponse "201 Created" 201 hour_body None.

(** The sample world at another instant. *)
Definition world_at (clock : time.Time) (resp : http.Response) : World :=
  mkWorld clock (fun _ => OK resp) [].

(** The sample world a second after the sample instant. *)
Definition a_second_later : World :=
  world_at (Sample.clock + time.Second) Sample.ok_response.

(** The sample world five seconds before the expiry of [hour]. *)
Definition near_expiry : World :=
  world_at 1700003595000000000 Sample.ok_response.

End Responses.

(** ** Notions used to state the properties *)

Section Notions.
Context `{L : Libraries}.

(** The request that [jwt.Token] builds from the parsed token URL and
    the assertion. *)
Definition token_request (u : url.URL) (payload : string) : http.Request :=
  http.add_header
    (http.add_header
       (http.mkRequest "POST"
          (http.with_Host u (http.removeEmptyPort (url.Host u))) ∅ None)
       "Accept" "application/vnd.github.v3+json")
    "Authorization" ("Bearer " ++ payload).

(** In world [w] the exchange of [js] dispatched a request, and the
    network answered it with [resp]. *)
Definition answered (js : jwt.jwtSource) (w : World) (resp : http.Response)
  : Prop :=
  exists req, sent (snd (jwt.Token js w)) = (sent w ++ [req])%list
              /\ network w req = OK resp.

(** The text of the field [name] of a JSON object, as a decoder of string
    fields reads it: the string of the last member that selects the field
    and holds a string; [current] when there is none. *)
Fixpoint last_string (name : string) (kvs : list (string * json.JSON))
                     (current : string) : string :=
match kvs with
| [] => current
| (key, v) :: kvs' =>
    last_string name kvs'
      (match v with
       | json.JString s => if json.selects name key then s else current
       | _ => current
       end)
end.

Definition field_text (name : string) (members : list (string * json.JSON))
  : string := last_string name members "".

(** A dynamic value whose type is not [map[string]string]. *)
Definition not_MapSS (a : any) : Prop :=
match a with AMapSS _ => False | _ => True end.

(** A base that [url.Parse] accepts and that has a scheme. *)
Definition valid_absolute_URL (raw : string) : Prop :=
  exists u, url_Parse raw = OK u /\ url.IsAbs u = true.

End Notions.

(** ** Notions on the members of a response *)

(** The value of the last member of an object whose name is exactly
    [name]. *)
Fixpoint last_member (name : string) (kvs : list (string * json.JSON))
  : option json.JSON :=
match kvs with
| [] => None
| (key, v) :: kvs' =>
    match last_member name kvs' with
    | Some v' => Some v'
    | None => if String.eqb key name then Some v else None
    end
end.

(** The member name [key] selects one of the three fields that
    [jwtSource.Token] decodes. *)
Definition names_token_field (key : string) : bool :=
  json.selects "token" key || json.selects "expires_at" key
  || json.selects "TokenType" key.

(** A value that a field of type string takes: a string or null. *)
Definition string_or_null (v : json.JSON) : bool :=
match v with json.JString _ | json.JNull => true | _ => false end.

(** A member that selects one of the three fields and holds a value that
    the field does not take. *)
Definition mistyped (kv : string * json.JSON) : bool :=
  names_token_field (fst kv) && negb (string_or_null (snd kv)).

(** Whether the first decoding of [jwtSource.Token] takes a body: null,
    or an object none of whose members is mistyped. *)
Definition decodes_into_token_fields (body : string) : bool :=
match json.parse body with
| Some json.JNull => true
| Some (json.JObject members) => negb (existsb mistyped members)
| _ => false
end.

(** Two literals differ, by computation. *)
Ltac by_computation := vm_compute; discriminate.

(** * Properties *)

(** ** The fuel of the JSON parser *)

Section ParserFuel.

Lemma skip_space_length (s : string) :
  String.length (json.skip_space s) <= String.length s.
Proof.
  induction s as [|c s IH]; simpl; [lia|].
  destruct (json.is_space c); simpl; lia.
Qed.

Lemma skip_space_cons (s r : string) (c : ascii) :
  json.skip_space s = String c r -> String.length r < String.length s.
Proof.
  intros H. pose proof (skip_space_length s) as Hl. rewrite H in Hl.
  simpl in Hl. lia.
Qed.

Lemma scan_string_length_within (n : nat) (s body rest : string) :
  String.length s <= n ->
  json.scan_string s = Some (body, rest) ->
  String.length rest < String.length s.
Proof.
  revert s body rest. induction n as [|n IH]; intros s body rest Hn H.
  - destruct s; [discriminate | simpl in Hn; lia].
  - destruct s as [|c r]; [discriminate|]. simpl in H, Hn.
    destruct (Ascii.eqb c dquote).
    { inversion H; subst. simpl. lia. }
    destruct (Ascii.eqb c backslash).
    + destruct r as [|e r1]; [discriminate|].
      destruct (json.is_simple_escape e).
      * destruct (json.scan_string r1) as [[b r']|] eqn:E; [|discriminate].
        simpl in H. inversion H; subst.
        apply IH in E; simpl in *; lia.
      * destruct (Ascii.eqb e "u"); [|discriminate].
        destruct r1 as [|h1 [|h2 [|h3 [|h4 r2]]]]; try discriminate.
        destruct (_ && _); [|discriminate].
        destruct (json.scan_string r2) as [[b r']|] eqn:E; [|discriminate].
        simpl in H. inversion H; subst.
        apply IH in E; simpl in *; lia.
    + destruct (_ <? _)%N; [discriminate|].
      destruct (json.scan_string r) as [[b r']|] eqn:E; [|discriminate].
      simpl in H. inversion H; subst.
      apply IH in E; simpl in *; lia.
Qed.

Lemma scan_string_length (s body rest : string) :
  json.scan_string s = Some (body, rest) ->
  String.length rest < String.length s.
Proof. apply (scan_string_length_within (String.length s)). lia. Qed.

Lemma span_length (p : ascii -> bool) (s : string) :
  String.length (snd (Strings.span p s)) <= String.length s.
Proof.
  induction s as [|c s IH]; simpl; [lia|].
  destruct (p c); [|simpl; lia].
  destruct (Strings.span p s); simpl in *. lia.
Qed.

Lemma drop_length (n : nat) (s : string) :
  String.length (Strings.drop n s) <= String.length s.
Proof.
  revert s. induction n as [|n IH]; intros [|c s]; simpl; try lia.
  specialize (IH s). lia.
Qed.

(** A scalar takes its first byte. *)
Lemma parse_scalar_length (c : ascii) (r rest : string) (v : json.JSON) :
  json.parse_scalar c r = Some (v, rest) ->
  String.length rest <= String.length r.
Proof.
  unfold json.parse_scalar.
  destruct (Ascii.eqb c dquote).
  { destruct (json.scan_string r) as [[b r']|] eqn:E; [|discriminate].
    simpl. intros H; inversion H; subst. apply scan_string_length in E. lia. }
  destruct (_ || _).
  { simpl. destruct (json.is_number_char c).
    - pose proof (span_length json.is_number_char r) as Hs.
      destruct (Strings.span json.is_number_char r) as [a b]. simpl in Hs.
      destruct (json.valid_number _); [|discriminate].
      intros H; inversion H; subst. exact Hs.
    - discriminate. }
  destruct (Strings.HasPrefix _ "true").
  { intros H; inversion H; subst. apply (drop_length 3). }
  destruct (Strings.HasPrefix _ "false").
  { intros H; inversion H; subst. apply (drop_length 4). }
  destruct (Strings.HasPrefix _ "null"); [|discriminate].
  intros H; inversion H; subst. apply (drop_length 3).
Qed.


Lemma parse_value_S (f : nat) (d : N) (s : string) :
  json.parse_value (S f) d s
  = match json.skip_space s with
    | EmptyString => None
    | String c r =>
        if Ascii.eqb c "{" then
          if (json.maxNestingDepth <=? d)%N then None
          else match json.skip_space r with
               | String c' r' =>
                   if Ascii.eqb c' "}" then Some (json.JObject [], r')
                   else json.parse_members f (N.succ d) r []
               | EmptyString => None
               end
        else if Ascii.eqb c "[" then
          if (json.maxNestingDepth <=? d)%N then None
          else match json.skip_space r with
               | String c' r' =>
                   if Ascii.eqb c' "]" then Some (json.JArray [], r')
                   else json.parse_elems f (N.succ d) r []
               | EmptyString => None
               end
        else json.parse_scalar c r
    end.
Proof. reflexivity. Qed.

Lemma parse_elems_S (f : nat) (d : N) (s : string) (acc : list json.JSON) :
  json.parse_elems (S f) d s acc
  = match json.parse_value f d s with
    | None => None
    | Some (v, r) =>
        match json.skip_space r with
        | String c r' =>
            if Ascii.eqb c "," then json.parse_elems f d r' (acc ++ [v])
            else if Ascii.eqb c "]" then Some (json.JArray (acc ++ [v]), r')
            else None
        | EmptyString => None
        end
    end.
Proof. simpl. destruct (json.parse_value f d s) as [[v r]|]; reflexivity. Qed.

Lemma parse_members_S (f : nat) (d : N) (s : string)
    (acc : list (string * json.JSON)) :
  json.parse_members (S f) d s acc
  = match json.skip_space s with
    | String c r =>
        if Ascii.eqb c dquote then
          match json.scan_string r with
          | None => None
          | Some (key, r1) =>
              match json.skip_space r1 with
              | String c1 r2 =>
                  if Ascii.eqb c1 ":" then
                    match json.parse_value f d r2 with
                    | None => None
                    | Some (v, r3) =>
                        match json.skip_space r3 with
                        | String c3 r4 =>
                            if Ascii.eqb c3 "," then
                              json.parse_members f d r4
                                (acc ++ [(json.unquote key, v)])
                            else if Ascii.eqb c3 "}" then
                              Some (json.JObject
                                      (acc ++ [(json.unquote key, v)]), r4)
                            else None
                        | EmptyString => None
                        end
                    end
                  else None
              | EmptyString => None
              end
          end
        else None
    | EmptyString => None
    end.
Proof.
  simpl. destruct (json.skip_space s) as [|c r]; [reflexivity|].
  destruct (Ascii.eqb c dquote); [|reflexivity].
  destruct (json.scan_string r) as [[key r1]|]; [|reflexivity]. simpl.
  destruct (json.skip_space r1) as [|c1 r2]; [reflexivity|].
  destruct (Ascii.eqb c1 ":"); [|reflexivity].
  destruct (json.parse_value f d r2) as [[v r3]|]; reflexivity.
Qed.

(** What a parse returns is shorter than what it was given. *)
Lemma parse_length (f : nat) :
  (forall d s v rest,
      json.parse_value f d s = Some (v, rest) ->
      String.length rest < String.length s)
  /\ (forall d s acc v rest,
        json.parse_elems f d s acc = Some (v, rest) ->
        String.length rest + 1 < String.length s)
  /\ (forall d s acc v rest,
        json.parse_members f d s acc = Some (v, rest) ->
        String.length rest + 1 < String.length s).
Proof.
  induction f as [|f (IHv & IHe & IHm)].
  { repeat split; intros; discriminate. }
  split; [|split].
  - intros d s v rest. rewrite parse_value_S.
    destruct (json.skip_space s) as [|c r] eqn:Es; [discriminate|].
    apply skip_space_cons in Es.
    destruct (Ascii.eqb c "{").
    { destruct (_ <=? _)%N; [discriminate|].
      destruct (json.skip_space r) as [|c' r'] eqn:Er; [discriminate|].
      apply skip_space_cons in Er.
      destruct (Ascii.eqb c' "}").
      - intros H; inversion H; subst. lia.
      - intros H. apply IHm in H. lia. }
    destruct (Ascii.eqb c "[").
    { destruct (_ <=? _)%N; [discriminate|].
      destruct (json.skip_space r) as [|c' r'] eqn:Er; [discriminate|].
      apply skip_space_cons in Er.
      destruct (Ascii.eqb c' "]").
      - intros H; inversion H; subst. lia.
      - intros H. apply IHe in H. lia. }
    intros H. apply parse_scalar_length in H. lia.
  - intros d s acc v rest. rewrite parse_elems_S.
    destruct (json.parse_value f d s) as [[v1 r1]|] eqn:Ev; [|discriminate].
    apply IHv in Ev.
    destruct (json.skip_space r1) as [|c r'] eqn:Er; [discriminate|].
    apply skip_space_cons in Er.
    destruct (Ascii.eqb c ",").
    { intros H. apply IHe in H. lia. }
    destruct (Ascii.eqb c "]"); [|discriminate].
    intros H; inversion H; subst. lia.
  - intros d s acc v rest. rewrite parse_members_S.
    destruct (json.skip_space s) as [|c r] eqn:Es; [discriminate|].
    apply skip_space_cons in Es.
    destruct (Ascii.eqb c dquote); [|discriminate].
    destruct (json.scan_string r) as [[key r1]|] eqn:Ek; [|discriminate].
    apply scan_string_length in Ek.
    destruct (json.skip_space r1) as [|c1 r2] eqn:E1; [discriminate|].
    apply skip_space_cons in E1.
    destruct (Ascii.eqb c1 ":"); [|discriminate].
    destruct (json.parse_value f d r2) as [[v1 r3]|] eqn:Ev; [|discriminate].
    apply IHv in Ev.
    destruct (json.skip_space r3) as [|c3 r4] eqn:E3; [discriminate|].
    apply skip_space_cons in E3.
    destruct (Ascii.eqb c3 ",").
    { intros H. apply IHm in H. lia. }
    destruct (Ascii.eqb c3 "}"); [|discriminate].
    intros H; inversion H; subst. lia.
Qed.


(** Fuel: a parse that succeeds with some fuel succeeds, with the same
    result, with twice the number of bytes it takes. *)
Lemma parse_fuel (f : nat) :
  (forall d s v rest,
      json.parse_value f d s = Some (v, rest) ->
      forall f', 2 * (String.length s - String.length rest) <= f' ->
                 json.parse_value f' d s = Some (v, rest))
  /\ (forall d s acc v rest,
        json.parse_elems f d s acc = Some (v, rest) ->
        forall f', 2 * (String.length s - String.length rest) - 1 <= f' ->
                   json.parse_elems f' d s acc = Some (v, rest))
  /\ (forall d s acc v rest,
        json.parse_members f d s acc = Some (v, rest) ->
        forall f', 2 * (String.length s - String.length rest) - 1 <= f' ->
                   json.parse_members f' d s acc = Some (v, rest)).
Proof.
  induction f as [|f (IHv & IHe & IHm)].
  { repeat split; intros; discriminate. }
  destruct (parse_length f) as (Lv & Le & Lm).
  split; [|split].
  - intros d s v rest H f' Hf'.
    pose proof (proj1 (parse_length (S f)) _ _ _ _ H) as Hlen.
    destruct f' as [|f']; [lia|].
    rewrite parse_value_S in H |- *.
    destruct (json.skip_space s) as [|c r] eqn:Es; [discriminate|].
    apply skip_space_cons in Es.
    destruct (Ascii.eqb c "{").
    { destruct (_ <=? _)%N; [discriminate|].
      destruct (json.skip_space r) as [|c' r'] eqn:Er; [discriminate|].
      destruct (Ascii.eqb c' "}"); [exact H|].
      apply (IHm _ _ _ _ _ H). lia. }
    destruct (Ascii.eqb c "[").
    { destruct (_ <=? _)%N; [discriminate|].
      destruct (json.skip_space r) as [|c' r'] eqn:Er; [discriminate|].
      destruct (Ascii.eqb c' "]"); [exact H|].
      apply (IHe _ _ _ _ _ H). lia. }
    exact H.
  - intros d s acc v rest H f' Hf'.
    pose proof (proj1 (proj2 (parse_length (S f))) _ _ _ _ _ H) as Hlen.
    destruct f' as [|f']; [lia|].
    rewrite parse_elems_S in H |- *.
    destruct (json.parse_value f d s) as [[v1 r1]|] eqn:Ev; [|discriminate].
    pose proof (Lv _ _ _ _ Ev) as Hv1.
    destruct (json.skip_space r1) as [|c r'] eqn:Er; [discriminate|].
    pose proof (skip_space_cons _ _ _ Er) as Hr'.
    assert (Hrest : String.length rest <= String.length r').
    { destruct (Ascii.eqb c ",").
      - apply Le in H. lia.
      - destruct (Ascii.eqb c "]"); [|discriminate].
        inversion H; subst. lia. }
    rewrite (IHv _ _ _ _ Ev f') by lia. rewrite Er.
    destruct (Ascii.eqb c ","); [|exact H].
    apply (IHe _ _ _ _ _ H). lia.
  - intros d s acc v rest H f' Hf'.
    pose proof (proj2 (proj2 (parse_length (S f))) _ _ _ _ _ H) as Hlen.
    destruct f' as [|f']; [lia|].
    rewrite parse_members_S in H |- *.
    destruct (json.skip_space s) as [|c r] eqn:Es; [discriminate|].
    apply skip_space_cons in Es.
    destruct (Ascii.eqb c dquote); [|discriminate].
    destruct (json.scan_string r) as [[key r1]|] eqn:Ek; [|discriminate].
    apply scan_string_length in Ek.
    destruct (json.skip_space r1) as [|c1 r2] eqn:E1; [discriminate|].
    apply skip_space_cons in E1.
    destruct (Ascii.eqb c1 ":"); [|discriminate].
    destruct (json.parse_value f d r2) as [[v1 r3]|] eqn:Ev; [|discriminate].
    pose proof (Lv _ _ _ _ Ev) as Hv1.
    destruct (json.skip_space r3) as [|c3 r4] eqn:E3; [discriminate|].
    pose proof (skip_space_cons _ _ _ E3) as Hr4.
    assert (Hrest : String.length rest <= String.length r4).
    { destruct (Ascii.eqb c3 ",").
      - apply Lm in H. lia.
      - destruct (Ascii.eqb c3 "}"); [|discriminate].
        inversion H; subst. lia. }
    rewrite (IHv _ _ _ _ Ev f') by lia. rewrite E3.
    destruct (Ascii.eqb c3 ","); [|exact H].
    apply (IHm _ _ _ _ _ H). lia.
Qed.

(** The fuel that [json.parse] gives is enough: a text that parses with
    any fuel parses, to the same value, with that one. *)
Theorem parse_fuel_enough (data : string) (f : nat) (v : json.JSON)
    (rest : string) :
  json.parse_value f 0 data = Some (v, rest) ->
  json.skip_space rest = EmptyString ->
  json.parse data = Some v.
Proof.
  intros H Hrest. unfold json.parse.
  rewrite (proj1 (parse_fuel f) _ _ _ _ H) by lia.
  simpl. rewrite Hrest. reflexivity.
Qed.

End ParserFuel.

Section LoopFuel.

Lemma DecodeRune_size_positive (s : string) (n : nat) :
  utf8.DecodeRune_size s = Some n -> exists m, n = S m.
Proof.
  unfold utf8.DecodeRune_size. destruct s as [|a r]; [discriminate|].
  repeat match goal with
         | |- context [if ?b then _ else _] => destruct b
         | |- context [match ?x with EmptyString => _ | String _ _ => _ end] =>
             destruct x
         end;
    intros H; inversion H; eauto.
Qed.

(** [unquote_loop] does not depend on its fuel, once that is the length
    of the text. *)
Lemma unquote_loop_fuel (f f' : nat) (s : string) :
  String.length s <= f -> String.length s <= f' ->
  json.unquote_loop f s = json.unquote_loop f' s.
Proof.
  revert f' s. induction f as [|f IH]; intros f' s Hf Hf'.
  { destruct s; [|simpl in Hf; lia]. destruct f'; reflexivity. }
  destruct s as [|c r]; [destruct f'; reflexivity|].
  destruct f' as [|f']; [simpl in Hf'; lia|].
  simpl in Hf, Hf'. cbn [json.unquote_loop].
  destruct (Ascii.eqb c backslash).
  - destruct r as [|e r1]; [reflexivity|]. simpl in Hf, Hf'.
    destruct (Ascii.eqb e "u").
    + destruct (json.getu4 r1); [|reflexivity].
      pose proof (drop_length 4 r1) as H4.
      pose proof (drop_length 6 (Strings.drop 4 r1)) as H6.
      destruct (json.IsSurrogate n).
      * destruct (_ ≫= _); f_equal; apply IH; lia.
      * f_equal. apply IH; lia.
    + f_equal. apply IH; lia.
  - destruct (_ <? _)%N.
    + f_equal. apply IH; lia.
    + destruct (utf8.DecodeRune_size (String c r)) as [n|] eqn:En.
      * apply DecodeRune_size_positive in En as [m ->].
        pose proof (drop_length m r). f_equal. apply IH; simpl; lia.
      * f_equal. apply IH; lia.
Qed.

(** So does [appendString_loop]. *)
Lemma appendString_loop_fuel (f f' : nat) (s : string) :
  String.length s <= f -> String.length s <= f' ->
  json.appendString_loop f s = json.appendString_loop f' s.
Proof.
  revert f' s. induction f as [|f IH]; intros f' s Hf Hf'.
  { destruct s; [|simpl in Hf; lia]. destruct f'; reflexivity. }
  destruct s as [|c r]; [destruct f'; reflexivity|].
  destruct f' as [|f']; [simpl in Hf'; lia|].
  simpl in Hf, Hf'. cbn [json.appendString_loop].
  destruct (_ <? _)%N.
  - f_equal. apply IH; lia.
  - destruct (utf8.DecodeRune_size (String c r)) as [n|] eqn:En.
    + apply DecodeRune_size_positive in En as [m ->].
      pose proof (drop_length m r). f_equal. apply IH; simpl; lia.
    + f_equal. apply IH; lia.
Qed.

End LoopFuel.

(** ** Running the effects *)

Section Effects.
Context `{L : Libraries}.

(** Building the claim set reads the clock and changes nothing. *)
Lemma claimSet_world (j : jwt.JWT) (w : World) :
  snd (jwt.claimSet j w) = w.
Proof.
  unfold jwt.claimSet, bind, ret, time_Now.
  destruct (0 <? jwt.Expires j)%Z; reflexivity.
Qed.

Lemma Payload_run (j : jwt.JWT) (w : World) :
  jwt.Payload j w =
    (jws.Encode jwt.defaultHeader (fst (jwt.claimSet j w)) (jwt.PrivateKey j), w).
Proof.
  unfold jwt.Payload, bindR, bind, ret.
  pose proof (claimSet_world j w) as Hw.
  destruct (jwt.claimSet j w) as [cs w']; simpl in *; subst w'.
  destruct (jws.Encode _ _ _); reflexivity.
Qed.

(** Signing has no effect on the world. *)
Lemma Payload_world (j : jwt.JWT) (w : World) :
  snd (jwt.Payload j w) = w.
Proof. rewrite Payload_run. reflexivity. Qed.

Lemma dispatch_run (r : http.Request) (w : World) :
  dispatch r w = (network w r, mkWorld (now w) (network w) (sent w ++ [r])).
Proof. reflexivity. Qed.

(** [jwt.Token], step by step. *)
Lemma Token_run (js : jwt.jwtSource) (w : World) :
  jwt.Token js w =
    match url_Parse (jwt.TokenURL (jwt.conf js)) with
    | Err e => (Err e, w)
    | OK u =>
        match fst (jwt.Payload (jwt.JWT_ (jwt.conf js)) w) with
        | Err e => (Err e, w)
        | OK payload =>
            let req := token_request u payload in
            (match network w req with
             | Err e => Err (Errorf jwt.cannot_fetch e)
             | OK resp => jwt.Token_of_response resp
             end,
             mkWorld (now w) (network w) (sent w ++ [req]))
        end
    end.
Proof.
  unfold jwt.Token, bindR, bind, ret, http.NewRequest. simpl.
  destruct (url_Parse _) as [u|e]; [|reflexivity].
  rewrite Payload_run. simpl.
  destruct (jws.Encode _ _ _) as [p|e]; [|reflexivity].
  fold (token_request u p).
  destruct (network w _); reflexivity.
Qed.

Lemma app_tail_neq {A} (l : list A) (x : A) : l <> (l ++ [x])%list.
Proof.
  intros H. apply (f_equal (@List.length A)) in H.
  rewrite List.length_app in H. simpl in H. lia.
Qed.

(** Once the network has answered, the result of the exchange is a
    function of the response. *)
Lemma Token_answered (js : jwt.jwtSource) (w : World) (resp : http.Response) :
  answered js w resp ->
  fst (jwt.Token js w) = jwt.Token_of_response resp.
Proof.
  intros (req & Hsent & Hnet). rewrite Token_run in *.
  destruct (url_Parse _) as [u|e]; simpl in *.
  2: { exfalso. exact (app_tail_neq _ _ Hsent). }
  destruct (fst (jwt.Payload _ w)) as [p|e]; simpl in *.
  2: { exfalso. exact (app_tail_neq _ _ Hsent). }
  apply app_inj_tail in Hsent as [_ ->]. rewrite Hnet. reflexivity.
Qed.

(** How an exchange comes to be answered. *)
Lemma answered_intro (js : jwt.jwtSource) (w : World) (resp : http.Response)
    (u : url.URL) (payload : string) :
  url_Parse (jwt.TokenURL (jwt.conf js)) = OK u ->
  fst (jwt.Payload (jwt.JWT_ (jwt.conf js)) w) = OK payload ->
  network w (token_request u payload) = OK resp ->
  answered js w resp.
Proof.
  intros Hu Hp Hnet. exists (token_request u payload).
  rewrite Token_run, Hu, Hp. simpl. split; [reflexivity | exact Hnet].
Qed.

(** Every request that an exchange dispatches has no body, whatever the
    repository scope of the configuration. *)
Lemma Token_requests_have_no_body (js : jwt.jwtSource) (w : World) :
  exists reqs, sent (snd (jwt.Token js w)) = (sent w ++ reqs)%list
               /\ Forall (fun r => http.Body r = None) reqs.
Proof.
  rewrite Token_run.
  destruct (url_Parse _) as [u|e]; simpl.
  2: { exists []. rewrite app_nil_r. split; [reflexivity | constructor]. }
  destruct (fst (jwt.Payload _ w)) as [p|e]; simpl.
  2: { exists []. rewrite app_nil_r. split; [reflexivity | constructor]. }
  exists [token_request u p]. split; [reflexivity|].
  constructor; [reflexivity | constructor].
Qed.

End Effects.

(** ** The assertion-signing transport (C7) *)

Section Transport.
Context `{L : Libraries}.

Lemma Header_Values_Add_same (h : http.Header) (key value : string) :
  http.Header_Values (http.Header_Add h key value) key
  = (http.Header_Values h key ++ [value])%list.
Proof.
  unfold http.Header_Add. unfold http.Header_Values at 1.
  rewrite lookup_insert_eq. reflexivity.
Qed.

Lemma Header_Values_Add_other (h : http.Header) (key key' value : string) :
  http.CanonicalMIMEHeaderKey key <> http.CanonicalMIMEHeaderKey key' ->
  http.Header_Values (http.Header_Add h key value) key'
  = http.Header_Values h key'.
Proof.
  intros Hne. unfold http.Header_Add. unfold http.Header_Values at 1.
  rewrite lookup_insert_ne by exact Hne. reflexivity.
Qed.

Lemma Authorization_after_headers (r : http.Request) (accept bearer : string) :
  http.Header_Values
    (http.Header_ (http.add_header (http.add_header r "Accept" accept)
                                   "Authorization" bearer))
    "Authorization"
  = (http.Header_Values (http.Header_ r) "Authorization" ++ [bearer])%list.
Proof.
  simpl. rewrite Header_Values_Add_same, Header_Values_Add_other.
  - reflexivity.
  - vm_compute. discriminate.
Qed.

(** C7, as amended: for every request through the App-level client,
    [RoundTrip] signs an assertion in the world of that request (one
    [Payload] call, nothing cached), appends "Bearer " plus that assertion
    to the values of the Authorization header of the request, which is
    then the value of the header when the request carried none, and hands
    the request to the wrapped transport; if signing fails, [RoundTrip]
    returns that error and dispatches nothing. *)
Theorem C7_RoundTrip_signs_then_dispatches
    (t : jwt.transport) (r : http.Request) (w : World) :
  let accepted := http.add_header r "Accept" "application/vnd.github.v3+json" in
  (forall payload,
      fst (jwt.Payload (jwt.jwt t) w) = OK payload ->
      let r' := http.add_header accepted "Authorization" ("Bearer " ++ payload) in
      jwt.RoundTrip t r w
      = ((r', network w r'),
         mkWorld (now w) (network w) (sent w ++ [r'])%list)
      /\ http.Header_Values (http.Header_ r') "Authorization"
         = (http.Header_Values (http.Header_ r) "Authorization"
            ++ [("Bearer " ++ payload)%string])%list
      /\ (http.Header_Values (http.Header_ r) "Authorization" = [] ->
          http.Header_Get (http.Header_ r') "Authorization"
          = "Bearer " ++ payload))
  /\ (forall err,
        fst (jwt.Payload (jwt.jwt t) w) = Err err ->
        jwt.RoundTrip t r w = ((accepted, Err err), w)).
Proof.
  intros accepted. split.
  - intros payload Hp r'. split; [|split].
    + unfold jwt.RoundTrip, bind, ret. rewrite Payload_run in *.
      simpl in Hp. rewrite Hp. reflexivity.
    + apply Authorization_after_headers.
    + intros Hnone. unfold http.Header_Get.
      unfold r', accepted. rewrite Authorization_after_headers, Hnone.
      reflexivity.
  - intros err He. unfold jwt.RoundTrip, bind, ret.
    rewrite Payload_run in *. simpl in He. rewrite He. reflexivity.
Qed.

End Transport.

(** C7, witness: the sample request, which carries no credentials, is
    dispatched with the assertion of the sample identity as its
    Authorization header; with a key that cannot sign, the error of the
    signature is returned and nothing is dispatched. *)
Lemma C7_witness :
  (fst (jwt.Payload Sample.identity Sample.world) = OK Sample.assertion
   /\ sent (snd (jwt.RoundTrip (jwt.Client Sample.identity) Sample.request
                               Sample.world))
      = [http.add_header
           (http.add_header Sample.request "Accept"
                            "application/vnd.github.v3+json")
           "Authorization" ("Bearer " ++ Sample.assertion)])
  /\ (snd (fst (jwt.RoundTrip (jwt.Client Sample.identity_bad_key)
                              Sample.request Sample.world))
      = Err (LibError "crypto/rsa" "crypto/rsa: invalid key")
      /\ sent (snd (jwt.RoundTrip (jwt.Client Sample.identity_bad_key)
                                  Sample.request Sample.world))
         = []).
Proof.
  assert (Hp : fst (jwt.Payload Sample.identity Sample.world)
               = OK Sample.assertion) by (vm_compute; reflexivity).
  assert (He : fst (jwt.Payload Sample.identity_bad_key Sample.world)
               = Err (LibError "crypto/rsa" "crypto/rsa: invalid key"))
    by (vm_compute; reflexivity).
  split.
  - split; [exact Hp|].
    destruct (C7_RoundTrip_signs_then_dispatches
                (jwt.Client Sample.identity) Sample.request Sample.world)
      as [Hok _].
    destruct (Hok Sample.assertion Hp) as [Hrun _].
    rewrite Hrun. reflexivity.
  - destruct (C7_RoundTrip_signs_then_dispatches
                (jwt.Client Sample.identity_bad_key) Sample.request
                Sample.world) as [_ Hfail].
    rewrite (Hfail _ He). split; reflexivity.
Defined.

(** C7, as stated, fails: a request that already carries an Authorization
    header keeps it as the first value, so the header of the dispatched
    request is not "Bearer " plus the assertion. *)
Lemma C7_counterexample :
  exists payload r',
    fst (jwt.Payload Sample.identity Sample.world) = OK payload
    /\ sent (snd (jwt.RoundTrip (jwt.Client Sample.identity)
                                Sample.request_with_credentials Sample.world))
       = [r']
    /\ http.Header_Get (http.Header_ r') "Authorization" = "Basic YWJj"
    /\ http.Header_Get (http.Header_ r') "Authorization" <> "Bearer " ++ payload.
Proof.
  exists Sample.assertion.
  eexists. split; [vm_compute; reflexivity|].
  split; [vm_compute; reflexivity|].
  split; [vm_compute; reflexivity|].
  vm_compute. discriminate.
Qed.

(** ** The token exchange (C1, C3, C4, C6) *)

(** C1, a defect of the code: at a configuration limited to the
    repositories a and b, the exchange encodes the scope, and the request
    it dispatches has no body. *)
Theorem C1_scope_is_encoded_but_not_sent :
  jwt.Encode_Repositories (jwt.Repositories_ Sample.scoped_config)
  = OK (Strings.q "{'repositories':['a','b']}" ++ newline)
  /\ map http.Body
       (sent (snd (jwt.Token (jwt.mkSource Sample.scoped_config) Sample.world)))
     = [None].
Proof. split; vm_compute; reflexivity. Qed.

Section Exchange.
Context `{L : Libraries}.

Lemma take_N_all (n : N) (s : string) :
  (N.of_nat (String.length s) <= n)%N -> http.take_N n s = s.
Proof.
  revert n. induction s as [|c s IH]; intros n Hn; simpl in *; [reflexivity|].
  destruct (N.eqb_spec n 0) as [->|Hnz]; [lia|].
  rewrite IH; [reflexivity | lia].
Qed.

(** What is read of a body is its first [limit] bytes. *)
Lemma ReadAll_prefix (resp : http.Response) (limit : N) (body : string) :
  http.ReadAll_LimitReader resp limit = OK body ->
  body = http.take_N limit (http.RespBody resp).
Proof.
  unfold http.ReadAll_LimitReader.
  destruct (N.ltb_spec (N.of_nat (String.length (http.RespBody resp))) limit)
    as [Hlt|Hge].
  - destruct (http.BodyErr resp); intros H; inversion H; subst.
    symmetry. apply take_N_all. lia.
  - intros H; inversion H; reflexivity.
Qed.

Lemma Token_of_response_status (resp : http.Response) (body : string) :
  http.ReadAll_LimitReader resp (N.shiftl 1 20) = OK body ->
  (http.StatusCode resp < 200 \/ 299 < http.StatusCode resp)%Z ->
  jwt.Token_of_response resp
  = Err (RetrieveError (http.StatusCode resp) (http.Status resp) body).
Proof.
  intros Hread Hc. unfold jwt.Token_of_response. rewrite Hread.
  destruct (Z.ltb_spec (http.StatusCode resp) 200);
    destruct (Z.ltb_spec 299 (http.StatusCode resp)); simpl;
    try reflexivity; lia.
Qed.

Lemma Token_of_response_success (resp : http.Response) (body : string) :
  http.ReadAll_LimitReader resp (N.shiftl 1 20) = OK body ->
  (200 <= http.StatusCode resp <= 299)%Z ->
  jwt.Token_of_response resp
  = let '(tokenRes, err) :=
      jwt.Unmarshal_tokenRes body (jwt.mkTokenRes "" "" "") in
    match err with
    | Some err => Err (Errorf jwt.cannot_fetch err)
    | None =>
        let token :=
          oauth2.mkToken (jwt.AccessToken tokenRes) "token" "" time.zero
                         (AMap (fst (json.Unmarshal_map body ∅))) in
        if negb (String.eqb (jwt.ExpiresAt tokenRes) "") then
          match time_Parse_RFC3339 (jwt.ExpiresAt tokenRes) with
          | Err err => Err (Errorf jwt.cannot_fetch err)
          | OK expiry => OK (oauth2.with_Expiry token expiry)
          end
        else OK token
    end.
Proof.
  intros Hread Hc. unfold jwt.Token_of_response. rewrite Hread.
  destruct (Z.ltb_spec (http.StatusCode resp) 200);
    destruct (Z.ltb_spec 299 (http.StatusCode resp)); simpl; try lia.
  destruct (jwt.Unmarshal_tokenRes _ _) as [tr [err|]]; [reflexivity|].
  destruct (json.Unmarshal_map body ∅) as [raw e]. reflexivity.
Qed.

(** C3, as amended: for every response of the token endpoint whose body is
    read without error, the exchange returns a TokenRetrievalError exactly
    when the status code is outside 200-299; that error carries the HTTP
    status and the body as read (its first 2^20 bytes, all of it when it is
    no longer) verbatim, its message is the fixed prefix, the status, a
    line break, "Response: " and the body, and no token is returned.  With
    a status in 200-299 the exchange succeeds exactly when, in addition,
    the body decodes into the token fields and its expires_at is empty or
    in the RFC 3339 layout. *)
Theorem C3_status_policy
    (js : jwt.jwtSource) (w : World) (resp : http.Response) (body : string) :
  answered js w resp ->
  http.ReadAll_LimitReader resp (N.shiftl 1 20) = OK body ->
  let c := http.StatusCode resp in
  body = http.take_N 1048576 (http.RespBody resp)
  /\ ((c < 200 \/ 299 < c)%Z ->
      fst (jwt.Token js w) = Err (RetrieveError c (http.Status resp) body)
      /\ Error_text (RetrieveError c (http.Status resp) body)
         = "oauth2: cannot fetch token: " ++ http.Status resp ++ newline
           ++ "Response: " ++ body)
  /\ ((200 <= c <= 299)%Z ->
      (forall code status b,
          fst (jwt.Token js w) <> Err (RetrieveError code status b))
      /\ (is_OK (fst (jwt.Token js w)) = true <->
          exists tr,
            jwt.Unmarshal_tokenRes body (jwt.mkTokenRes "" "" "") = (tr, None)
            /\ (jwt.ExpiresAt tr = ""
                \/ is_OK (time_Parse_RFC3339 (jwt.ExpiresAt tr)) = true))).
Proof.
  intros Hans Hread c. rewrite (Token_answered _ _ _ Hans).
  split; [exact (ReadAll_prefix _ _ _ Hread)|]. split.
  - intros Hc. split; [|reflexivity].
    apply Token_of_response_status; assumption.
  - intros Hc. rewrite (Token_of_response_success _ _ Hread Hc).
    destruct (jwt.Unmarshal_tokenRes _ _) as [tr [err|]].
    + split; [discriminate|]. split; [discriminate|].
      intros (tr' & Heq & _). discriminate.
    + destruct (String.eqb_spec (jwt.ExpiresAt tr) "") as [Hempty|Hne]; simpl.
      * split; [discriminate|]. split; [|reflexivity].
        intros _. exists tr. split; [reflexivity | left; exact Hempty].
      * destruct (time_Parse_RFC3339 (jwt.ExpiresAt tr)) as [t|e] eqn:Hparse.
        -- split; [discriminate|]. split; [|reflexivity].
           intros _. exists tr. split; [reflexivity|]. right. rewrite Hparse.
           reflexivity.
        -- split; [discriminate|]. split; [discriminate|].
           intros (tr' & Heq & [Hempty|Hok]).
           ++ inversion Heq; subst. contradiction.
           ++ inversion Heq; subst. rewrite Hparse in Hok. discriminate.
Qed.

End Exchange.

(** In a world that answers every request with [resp], the exchange of the
    sample configuration is answered with [resp]. *)
Lemma sample_answered (resp : http.Response) :
  answered (jwt.mkSource Sample.config) (Sample.world_answering resp) resp.
Proof.
  eapply answered_intro.
  - vm_compute. reflexivity.
  - vm_compute. reflexivity.
  - reflexivity.
Qed.

(** C3, witness: the failure of jwt/config_test.go, status 400 with an
    invalid_grant body. *)
Lemma C3_witness :
  fst (jwt.Token (jwt.mkSource Sample.config)
                 (Sample.world_answering Sample.bad_request))
  = Err (RetrieveError 400 "400 Bad Request" Sample.bad_request_body)
  /\ Error_text (RetrieveError 400 "400 Bad Request" Sample.bad_request_body)
     = "oauth2: cannot fetch token: " ++ "400 Bad Request" ++ newline
       ++ "Response: " ++ Strings.q "{'error': 'invalid_grant'}".
Proof.
  assert (Hread : http.ReadAll_LimitReader Sample.bad_request (N.shiftl 1 20)
                  = OK Sample.bad_request_body) by (vm_compute; reflexivity).
  destruct (C3_status_policy (jwt.mkSource Sample.config)
              (Sample.world_answering Sample.bad_request) Sample.bad_request
              Sample.bad_request_body (sample_answered _) Hread)
    as (_ & Hout & _).
  apply Hout. right. simpl. lia.
Defined.

(** C3, as stated, fails: a response with status 200 and an empty body is
    in the range 200-299, and the exchange fails on it. *)
Lemma C3_counterexample :
  answered (jwt.mkSource Sample.config)
           (Sample.world_answering Sample.empty_response) Sample.empty_response
  /\ (200 <= http.StatusCode Sample.empty_response <= 299)%Z
  /\ is_OK (fst (jwt.Token (jwt.mkSource Sample.config)
                           (Sample.world_answering Sample.empty_response)))
     = false.
Proof.
  split; [apply sample_answered|]. split; [simpl; lia|].
  vm_compute. reflexivity.
Qed.

(** ** The fields of the token (C4) and its extras (C6) *)

Section TokenFields.
Context `{L : Libraries}.

Lemma selects_fold (name key : string) :
  json.selects name key = true -> json.foldName key = json.foldName name.
Proof.
  unfold json.selects. intros H. apply orb_true_iff in H as [H|H].
  - apply String.eqb_eq in H. subst. reflexivity.
  - apply String.eqb_eq in H. exact H.
Qed.

(** No member name selects two of the three fields. *)
Lemma selects_exclusive (n1 n2 key : string) :
  json.foldName n1 <> json.foldName n2 ->
  json.selects n1 key = true -> json.selects n2 key = false.
Proof.
  intros Hne H1. destruct (json.selects n2 key) eqn:H2; [|reflexivity].
  apply selects_fold in H1, H2. congruence.
Qed.

Lemma store_string_value (v : json.JSON) (current : string) :
  fst (json.store_string v current)
  = match v with json.JString s => s | _ => current end.
Proof. destruct v; reflexivity. Qed.

(** What the decoder leaves in the three fields is, for each, the string
    of the last member that selects it. *)
Lemma store_tokenRes_fields (kvs : list (string * json.JSON)) (t : jwt.tokenRes) :
  let t' := fst (jwt.store_tokenRes kvs t) in
  jwt.AccessToken t' = last_string "token" kvs (jwt.AccessToken t)
  /\ jwt.ExpiresAt t' = last_string "expires_at" kvs (jwt.ExpiresAt t)
  /\ jwt.TokenType t' = last_string "TokenType" kvs (jwt.TokenType t).
Proof.
  revert t. induction kvs as [|[key v] kvs IH]; intros t; [repeat split|].
  simpl.
  destruct (json.selects "token" key) eqn:Htok.
  - rewrite (selects_exclusive "token" "expires_at" key) by
      (first [by_computation | assumption]).
    rewrite (selects_exclusive "token" "TokenType" key) by
      (first [by_computation | assumption]).
    pose proof (store_string_value v (jwt.AccessToken t)) as Hv.
    destruct (json.store_string v (jwt.AccessToken t)) as [s e].
    specialize (IH (jwt.mkTokenRes s (jwt.ExpiresAt t) (jwt.TokenType t))).
    destruct (jwt.store_tokenRes kvs _) as [t'' e2]. simpl in *. subst s.
    destruct v; exact IH.
  - destruct (json.selects "expires_at" key) eqn:Hexp.
    + rewrite (selects_exclusive "expires_at" "TokenType" key) by
        (first [by_computation | assumption]).
      pose proof (store_string_value v (jwt.ExpiresAt t)) as Hv.
      destruct (json.store_string v (jwt.ExpiresAt t)) as [s e].
      specialize (IH (jwt.mkTokenRes (jwt.AccessToken t) s (jwt.TokenType t))).
      destruct (jwt.store_tokenRes kvs _) as [t'' e2]. simpl in *. subst s.
      destruct v; exact IH.
    + destruct (json.selects "TokenType" key) eqn:Htyp.
      * pose proof (store_string_value v (jwt.TokenType t)) as Hv.
        destruct (json.store_string v (jwt.TokenType t)) as [s e].
        specialize (IH (jwt.mkTokenRes (jwt.AccessToken t) (jwt.ExpiresAt t) s)).
        destruct (jwt.store_tokenRes kvs _) as [t'' e2]. simpl in *. subst s.
        destruct v; exact IH.
      * specialize (IH t).
        destruct (jwt.store_tokenRes kvs t) as [t'' e2]. simpl in *.
        destruct v; exact IH.
Qed.

(** C4, as amended: for every exchange answered with a status in 200-299
    whose body decodes into the token fields, the token returned has the
    Value of the token field of the body, the TokenType "token" whatever the
    body says, and as ExpiresAt the RFC 3339 reading of the expires_at field
    when that field is a string other than the empty one, and the zero
    time when the field is absent, null or the empty string; an expires_at
    that is not empty and not in the RFC 3339 layout makes the exchange fail
    with an error. *)
Theorem C4_token_fields
    (js : jwt.jwtSource) (w : World) (resp : http.Response) (body : string)
    (tr : jwt.tokenRes) :
  answered js w resp ->
  http.ReadAll_LimitReader resp (N.shiftl 1 20) = OK body ->
  (200 <= http.StatusCode resp <= 299)%Z ->
  jwt.Unmarshal_tokenRes body (jwt.mkTokenRes "" "" "") = (tr, None) ->
  let extras := AMap (fst (json.Unmarshal_map body ∅)) in
  (jwt.ExpiresAt tr = "" ->
     fst (jwt.Token js w)
     = OK (oauth2.mkToken (jwt.AccessToken tr) "token" "" time.zero extras))
  /\ (jwt.ExpiresAt tr <> "" ->
      forall t, time_Parse_RFC3339 (jwt.ExpiresAt tr) = OK t ->
      fst (jwt.Token js w)
      = OK (oauth2.mkToken (jwt.AccessToken tr) "token" "" t extras))
  /\ (jwt.ExpiresAt tr <> "" ->
      forall err, time_Parse_RFC3339 (jwt.ExpiresAt tr) = Err err ->
      fst (jwt.Token js w) = Err (Errorf jwt.cannot_fetch err))
  /\ (forall members,
        json.parse body = Some (json.JObject members) ->
        jwt.AccessToken tr = field_text "token" members
        /\ jwt.ExpiresAt tr = field_text "expires_at" members).
Proof.
  intros Hans Hread Hc Htr extras.
  rewrite (Token_answered _ _ _ Hans).
  rewrite (Token_of_response_success _ _ Hread Hc), Htr.
  repeat split.
  - intros ->. reflexivity.
  - intros Hne t Ht. apply String.eqb_neq in Hne. rewrite Hne, Ht. reflexivity.
  - intros Hne err He. apply String.eqb_neq in Hne. rewrite Hne, He.
    reflexivity.
  - unfold jwt.Unmarshal_tokenRes in Htr. rewrite H in Htr.
    pose proof (store_tokenRes_fields members (jwt.mkTokenRes "" "" "")) as Hf.
    rewrite Htr in Hf. simpl in Hf. apply Hf.
  - unfold jwt.Unmarshal_tokenRes in Htr. rewrite H in Htr.
    pose proof (store_tokenRes_fields members (jwt.mkTokenRes "" "" "")) as Hf.
    rewrite Htr in Hf. simpl in Hf. apply Hf.
Qed.

(** C6: for every exchange that succeeds on the required fields (status
    in 200-299, the body decodes into the token fields, expires_at empty
    or well formed), the whole body is decoded a second time into a map
    from string to dynamic value, and the token is returned with that map
    as its extras whatever error [err] the second decoding ends with. *)
Theorem C6_extras_never_block
    (js : jwt.jwtSource) (w : World) (resp : http.Response) (body : string)
    (tr : jwt.tokenRes) (extras : gmap string any) (err : option error) :
  answered js w resp ->
  http.ReadAll_LimitReader resp (N.shiftl 1 20) = OK body ->
  (200 <= http.StatusCode resp <= 299)%Z ->
  jwt.Unmarshal_tokenRes body (jwt.mkTokenRes "" "" "") = (tr, None) ->
  (jwt.ExpiresAt tr = ""
   \/ is_OK (time_Parse_RFC3339 (jwt.ExpiresAt tr)) = true) ->
  json.Unmarshal_map body ∅ = (extras, err) ->
  exists tok,
    fst (jwt.Token js w) = OK tok
    /\ oauth2.raw tok = AMap extras
    /\ (forall key, oauth2.Extra tok key = default ANil (extras !! key)).
Proof.
  intros Hans Hread Hc Htr Hexp Hmap.
  rewrite (Token_answered _ _ _ Hans).
  rewrite (Token_of_response_success _ _ Hread Hc), Htr, Hmap. simpl.
  destruct (String.eqb_spec (jwt.ExpiresAt tr) "") as [Hempty|Hne]; simpl.
  - eexists. split; [reflexivity|]. split; reflexivity.
  - destruct Hexp as [Hempty|Hok]; [contradiction|].
    destruct (time_Parse_RFC3339 (jwt.ExpiresAt tr)) as [t|e]; [|discriminate].
    eexists. split; [reflexivity|]. split; reflexivity.
Qed.

End TokenFields.

(** C4, witness: the success response of the sample, whose expires_at is
    the first instant of 2050. *)
Lemma C4_witness :
  exists extras,
    fst (jwt.Token (jwt.mkSource Sample.config) Sample.world)
    = OK (oauth2.mkToken "v1.abc" "token" "" 2524608000000000000%Z extras).
Proof.
  assert (Hread : http.ReadAll_LimitReader Sample.ok_response (N.shiftl 1 20)
                  = OK Sample.ok_body) by (vm_compute; reflexivity).
  assert (Htr : jwt.Unmarshal_tokenRes Sample.ok_body (jwt.mkTokenRes "" "" "")
                = (jwt.mkTokenRes "v1.abc" "2050-01-01T00:00:00Z" "", None))
    by (vm_compute; reflexivity).
  destruct (C4_token_fields (jwt.mkSource Sample.config) Sample.world
              Sample.ok_response Sample.ok_body _
              (sample_answered _) Hread ltac:(simpl; lia) Htr)
    as (_ & Hparsed & _).
  eexists. apply Hparsed; [discriminate | vm_compute; reflexivity].
Defined.

(** C4, as stated, fails: the body holds an expires_at member, the empty
    string, which is not in the RFC 3339 layout; the exchange does not fail
    but returns the token with the zero time. *)
Lemma C4_counterexample :
  answered (jwt.mkSource Sample.config)
           (Sample.world_answering Sample.empty_expiry_response)
           Sample.empty_expiry_response
  /\ json.parse Sample.empty_expiry_body
     = Some (json.JObject [("token", json.JString "v1.abc");
                           ("expires_at", json.JString "")])
  /\ is_OK (time_Parse_RFC3339 "") = false
  /\ exists extras,
       fst (jwt.Token (jwt.mkSource Sample.config)
                      (Sample.world_answering Sample.empty_expiry_response))
       = OK (oauth2.mkToken "v1.abc" "token" "" time.zero extras).
Proof.
  split; [apply sample_answered|].
  split; [vm_compute; reflexivity|].
  split; [vm_compute; reflexivity|].
  eexists. vm_compute. reflexivity.
Qed.

(** C6, witness: the body holds a number that no float64 holds, so the
    second decoding ends with an error; the token is returned, with the
    extras that were recovered. *)
Lemma C6_witness :
  exists err tok,
    snd (json.Unmarshal_map Sample.overflow_body ∅) = Some err
    /\ fst (jwt.Token (jwt.mkSource Sample.config)
                     (Sample.world_answering Sample.overflow_response))
       = OK tok
    /\ oauth2.Extra tok "repository_selection" = AString "all"
    /\ oauth2.Extra tok "quota" = ANil.
Proof.
  assert (Hread : http.ReadAll_LimitReader Sample.overflow_response
                    (N.shiftl 1 20) = OK Sample.overflow_body)
    by (vm_compute; reflexivity).
  assert (Htr : jwt.Unmarshal_tokenRes Sample.overflow_body
                  (jwt.mkTokenRes "" "" "")
                = (jwt.mkTokenRes "v1.abc" "" "", None))
    by (vm_compute; reflexivity).
  destruct (C6_extras_never_block (jwt.mkSource Sample.config)
              (Sample.world_answering Sample.overflow_response)
              Sample.overflow_response Sample.overflow_body _ _ _
              (sample_answered _) Hread ltac:(simpl; lia) Htr
              (or_introl eq_refl)
              (surjective_pairing (json.Unmarshal_map Sample.overflow_body ∅)))
    as (tok & Htok & _ & Hextra).
  exists (json.UnmarshalTypeError "number 1e999" "float64"), tok.
  split; [vm_compute; reflexivity|]. split; [exact Htok|].
  rewrite !Hextra. split; vm_compute; reflexivity.
Defined.

(** TestJWTFetch_JSONResponse of jwt/config_test.go: the token of the
    token source is valid, has the access token of the body, the type
    token, an expiry, and repository_selection all among its extras. *)
Example TestJWTFetch_JSONResponse :
  exists tok,
    fst (fst (oauth2.reuse_Token (jwt.TokenSource Sample.test_config)
                (Sample.world_answering Sample.test_response)))
    = OK tok
    /\ oauth2.Valid (Some tok) Sample.clock = true
    /\ oauth2.AccessToken tok = "v1.1f699f1069f60xxx"
    /\ oauth2.TokenType tok = "token"
    /\ time.IsZero (oauth2.Expiry tok) = false
    /\ oauth2.Extra tok "repository_selection" = AString "all".
Proof.
  eexists. do 5 (split; [vm_compute; reflexivity|]). vm_compute. reflexivity.
Qed.

(** TestTokenRetrieveError of jwt/config_test.go: the error is a
    RetrieveError, and its text is the one the test expects. *)
Example TestTokenRetrieveError :
  exists err,
    fst (fst (oauth2.reuse_Token (jwt.TokenSource Sample.test_config)
                (Sample.world_answering Sample.bad_request)))
    = Err err
    /\ err = RetrieveError 400 "400 Bad Request" Sample.bad_request_body
    /\ Error_text err
       = "oauth2: cannot fetch token: 400 Bad Request" ++ newline
         ++ "Response: " ++ Strings.q "{'error': 'invalid_grant'}".
Proof.
  eexists. do 2 (split; [vm_compute; reflexivity|]). vm_compute. reflexivity.
Qed.

(** ** The payload signer (C5) *)

Section Signer.
Context `{L : Libraries}.

Lemma alphabet_at_in (i : N) :
  (i < 64)%N -> base64.in_alphabet (base64.alphabet_at i) = true.
Proof.
  intros Hi. unfold base64.alphabet_at.
  assert (Hn : (N.to_nat i < 64)%nat) by lia.
  revert Hn. generalize (N.to_nat i) as n. clear. intros n Hn.
  do 64 (destruct n as [|n]; [reflexivity|]). lia.
Qed.

Lemma sextet_in (val shift : N) :
  base64.in_alphabet (base64.sextet val shift) = true.
Proof.
  unfold base64.sextet. apply alphabet_at_in.
  change 63%N with (N.ones 6). rewrite N.land_ones.
  apply N.mod_lt. discriminate.
Qed.

(** The encoding is over the URL-safe alphabet. *)
Lemma EncodeToString_alphabet (src : string) :
  Strings.forallb_string base64.in_alphabet (base64.EncodeToString src) = true.
Proof.
  enough (H : Strings.forallb_string base64.in_alphabet
                (base64.EncodeToString src) = true
              /\ (forall a, Strings.forallb_string base64.in_alphabet
                     (base64.EncodeToString (String a src)) = true)
              /\ (forall a b, Strings.forallb_string base64.in_alphabet
                     (base64.EncodeToString (String a (String b src))) = true))
    by apply H.
  induction src as [|c src (IH0 & IH1 & IH2)].
  - repeat split; intros; cbn [base64.EncodeToString Strings.forallb_string];
      rewrite ?sextet_in; reflexivity.
  - split; [apply IH1|]. split; [intros a; apply IH2|].
    intros a b. cbn [base64.EncodeToString Strings.forallb_string].
    rewrite !sextet_in, IH0. reflexivity.
Qed.

Lemma in_alphabet_not_dot (c : ascii) :
  base64.in_alphabet c = true -> Ascii.eqb c "." = false.
Proof.
  intros Hc. destruct (Ascii.eqb_spec c ".") as [->|]; [|reflexivity].
  vm_compute in Hc. discriminate.
Qed.

(** A text with no dot before a dot: the text is the first element. *)
Lemma Split_dot_app (s rest : string) :
  Strings.forallb_string base64.in_alphabet s = true ->
  Strings.Split "." (s ++ String "." rest) = s :: Strings.Split "." rest.
Proof.
  induction s as [|c s IH]; simpl; intros Hs; [reflexivity|].
  apply andb_true_iff in Hs as [Hc Hs].
  rewrite (in_alphabet_not_dot c Hc), (IH Hs). reflexivity.
Qed.

Lemma Split_dot_none (s : string) :
  Strings.forallb_string base64.in_alphabet s = true ->
  Strings.Split "." s = [s].
Proof.
  induction s as [|c s IH]; simpl; intros Hs; [reflexivity|].
  apply andb_true_iff in Hs as [Hc Hs].
  rewrite (in_alphabet_not_dot c Hc), (IH Hs). reflexivity.
Qed.

Lemma string_app_assoc (a b c : string) : (a ++ b) ++ c = a ++ (b ++ c).
Proof.
  induction a as [|x a IH]; [reflexivity|].
  change (String x ((a ++ b) ++ c) = String x (a ++ (b ++ c))).
  rewrite IH. reflexivity.
Qed.

Lemma claimSet_run (j : jwt.JWT) (w : World) :
  fst (jwt.claimSet j w)
  = if (0 <? jwt.Expires j)%Z
    then jws.mkClaimSet (jwt.AppID j)
           (time.Unix (time.Add (now w) (jwt.Expires j)))
    else jws.mkClaimSet (jwt.AppID j) 0.
Proof.
  unfold jwt.claimSet, bind, ret, time_Now.
  destruct (0 <? jwt.Expires j)%Z; reflexivity.
Qed.

(** C5: for every identity, [Payload] builds a claim set whose issuer is
    the AppID and whose expiry is the Unix time of now plus Expires when
    Expires is positive, and is not set otherwise; it serializes the header
    with algorithm RS256 and type JWT and the claim set, and returns the
    header, the claims and the signature, each base64url-encoded, joined
    by dots, the signature being the one the private key gives over the
    first two segments joined by a dot; a failure of the signature is the
    failure of [Payload].  Without Expires the claim set is the same at
    every instant: the issuer and no expiry. *)
Theorem C5_sign (j : jwt.JWT) (w : World) :
  let claims := fst (jwt.claimSet j w) in
  let h := base64.EncodeToString (jws.encode_Header jwt.defaultHeader) in
  let c := base64.EncodeToString (jws.encode_ClaimSet claims) in
  jws.Iss claims = jwt.AppID j
  /\ ((0 < jwt.Expires j)%Z ->
      jws.Exp claims = time.Unix (time.Add (now w) (jwt.Expires j)))
  /\ ((jwt.Expires j <= 0)%Z ->
      jws.Exp claims = 0%Z
      /\ jws.encode_ClaimSet claims
         = "{" ++ json.member "iss" (json.appendString (jwt.AppID j)) ++ "}"
      /\ forall w', fst (jwt.claimSet j w') = claims)
  /\ jws.encode_Header jwt.defaultHeader = Strings.q "{'alg':'RS256','typ':'JWT'}"
  /\ (forall sig,
        rsa_SignPKCS1v15_SHA256 (jwt.PrivateKey j) (h ++ "." ++ c) = OK sig ->
        let s := base64.EncodeToString sig in
        fst (jwt.Payload j w) = OK (h ++ "." ++ c ++ "." ++ s)
        /\ Strings.Split "." (h ++ "." ++ c ++ "." ++ s) = [h; c; s]
        /\ Forall (fun seg =>
                     Strings.forallb_string base64.in_alphabet seg = true)
                  [h; c; s])
  /\ (forall err,
        rsa_SignPKCS1v15_SHA256 (jwt.PrivateKey j) (h ++ "." ++ c) = Err err ->
        fst (jwt.Payload j w) = Err err)
  /\ snd (jwt.Payload j w) = w.
Proof.
  intros claims h c. subst claims.
  split; [rewrite claimSet_run; destruct (0 <? jwt.Expires j)%Z; reflexivity|].
  split.
  { intros Hpos. rewrite claimSet_run.
    destruct (Z.ltb_spec 0 (jwt.Expires j)); [reflexivity | lia]. }
  split.
  { intros Hnon.
    assert (Hcs : forall w', fst (jwt.claimSet j w')
                             = jws.mkClaimSet (jwt.AppID j) 0).
    { intros w'. rewrite claimSet_run.
      destruct (Z.ltb_spec 0 (jwt.Expires j)); [lia | reflexivity]. }
    rewrite !Hcs. split; [reflexivity|]. split; [reflexivity|].
    intros w'. apply Hcs. }
  split; [vm_compute; reflexivity|].
  split.
  { intros sig Hsig s. split; [|split].
    - rewrite Payload_run. simpl. unfold jws.Encode.
      fold h. fold c. rewrite Hsig.
      rewrite !string_app_assoc. reflexivity.
    - change (h ++ "." ++ c ++ "." ++ s)
        with (h ++ String "." (c ++ String "." s)).
      rewrite Split_dot_app by apply EncodeToString_alphabet.
      rewrite Split_dot_app by apply EncodeToString_alphabet.
      rewrite Split_dot_none by apply EncodeToString_alphabet.
      reflexivity.
    - repeat constructor; apply EncodeToString_alphabet. }
  split.
  { intros err Herr. rewrite Payload_run. simpl. unfold jws.Encode.
    fold h. fold c. rewrite Herr. reflexivity. }
  apply Payload_world.
Qed.

End Signer.

(** C5, witness: the assertion of the sample identity at the sample
    instant, 2023-11-14T22:13:20Z, expires ten minutes later; the claim
    set of an identity with no Expires holds the issuer only. *)
Lemma C5_witness :
  jws.Exp (fst (jwt.claimSet Sample.identity Sample.world)) = 1700000600%Z
  /\ fst (jwt.Payload Sample.identity Sample.world) = OK Sample.assertion
  /\ Strings.Split "." Sample.assertion
     = ["eyJhbGciOiJSUzI1NiIsInR5cCI6IkpXVCJ9";
        "eyJpc3MiOiIxIiwiZXhwIjoxNzAwMDAwNjAwfQ"; "A9o"]
  /\ jws.encode_ClaimSet
       (fst (jwt.claimSet Sample.identity_no_expiry Sample.world))
     = Strings.q "{'iss':'1'}".
Proof.
  destruct (C5_sign Sample.identity Sample.world)
    as (_ & Hexp & _ & _ & Hsig & _).
  split; [rewrite Hexp by (vm_compute; reflexivity); vm_compute; reflexivity|].
  destruct (Hsig (String "003"%char (String "218"%char ""))) as (Hp & Hsplit & _);
    [vm_compute; reflexivity|].
  split; [rewrite Hp; vm_compute; reflexivity|].
  split; [vm_compute; reflexivity|].
  destruct (C5_sign Sample.identity_no_expiry Sample.world)
    as (_ & _ & Hnone & _).
  destruct Hnone as (_ & Henc & _); [vm_compute; discriminate|].
  rewrite Henc. vm_compute. reflexivity.
Defined.

(** ** The endpoint resolver (C8) *)

Section Endpoints.
Context `{L : Libraries}.

(** C8, as amended: the construction of an endpoint ([New] with the
    default public host, [NewEnterprise] with the host of the caller) fails
    with an error exactly when [url.Parse] rejects the base, and [url.Parse]
    accepts a base with no scheme; [Get] fails with an error exactly when
    [url.ParseRequestURI] rejects the uri, and otherwise returns the text of
    the resolution of the parsed uri against the base; both are functions of
    their arguments, with no effect. *)
Theorem C8_endpoint_resolution :
  (forall raw,
      endpoint.NewEnterprise raw
      = match url_Parse raw with
        | OK u => OK (endpoint.mkEndpoint u)
        | Err err => Err err
        end)
  /\ endpoint.New = endpoint.NewEnterprise endpoint.Default
  /\ (forall raw, is_OK (endpoint.NewEnterprise raw) = is_OK (url_Parse raw))
  /\ (forall e uri,
        is_OK (endpoint.Get e uri) = is_OK (url_ParseRequestURI uri))
  /\ (forall e uri err,
        url_ParseRequestURI uri = Err err -> endpoint.Get e uri = Err err)
  /\ (forall e uri u,
        url_ParseRequestURI uri = OK u ->
        endpoint.Get e uri
        = OK (url_String (url_ResolveReference (endpoint.url e) u))).
Proof.
  split; [reflexivity|]. split; [reflexivity|]. split.
  { intros raw. unfold endpoint.NewEnterprise, endpoint.new.
    destruct (url_Parse raw); reflexivity. }
  split.
  { intros e uri. unfold endpoint.Get.
    destruct (url_ParseRequestURI uri); reflexivity. }
  split; intros e uri x Hx; unfold endpoint.Get; rewrite Hx; reflexivity.
Qed.

End Endpoints.

(** C8, witness: with the reference libraries the default endpoint is
    built, a path is resolved against it, and a path resolved against an
    enterprise base with a path of its own replaces that path. *)
Lemma C8_witness :
  is_OK endpoint.New = true
  /\ (exists e, endpoint.New = OK e
       /\ endpoint.Get e "/app/installations/42/access_tokens"
          = OK Sample.token_url)
  /\ (exists e, endpoint.NewEnterprise "https://ghe.example.com/api/v3/" = OK e
       /\ endpoint.Get e "/app" = OK "https://ghe.example.com/app").
Proof.
  destruct (@C8_endpoint_resolution GoReference.libraries)
    as (Hnew & Hdefault & _ & _ & _ & Hget).
  split; [vm_compute; reflexivity|]. split.
  - eexists. split; [rewrite Hdefault, Hnew; vm_compute; reflexivity|].
    erewrite Hget by (vm_compute; reflexivity). vm_compute. reflexivity.
  - eexists. split; [rewrite Hnew; vm_compute; reflexivity|].
    erewrite Hget by (vm_compute; reflexivity). vm_compute. reflexivity.
Defined.

(** C8, as stated, fails: the base api.github.com has no scheme, so it is
    not an absolute URL, and the construction of the endpoint succeeds. *)
Lemma C8_counterexample :
  ~ valid_absolute_URL "api.github.com"
  /\ url_Parse "api.github.com"
     = OK (url.mkURL "" "" None "" "api.github.com" "" false false "" "" "")
  /\ is_OK (endpoint.NewEnterprise "api.github.com") = true.
Proof.
  assert (Hparse : url_Parse "api.github.com"
                   = OK (url.mkURL "" "" None "" "api.github.com" ""
                                   false false "" "" ""))
    by (vm_compute; reflexivity).
  split; [|split; [exact Hparse | vm_compute; reflexivity]].
  intros (u & Hu & Habs). rewrite Hparse in Hu. inversion Hu; subst.
  vm_compute in Habs. discriminate.
Qed.

(** [Get] takes for a request URI what [url.Parse] does not take for a
    URL: two slashes open a path there and a host here, and a host holds no
    space. *)
Example Get_accepts_what_Parse_rejects :
  is_OK (url_Parse "//a b/c") = false
  /\ is_OK (url_ParseRequestURI "//a b/c") = true.
Proof. split; vm_compute; reflexivity. Qed.

(** ** Permissions of an installation (C9) *)

Section Permissions.
Context `{L : Libraries}.

Lemma valueInterface_not_MapSS (v : json.JSON) :
  not_MapSS (fst (json.valueInterface v)).
Proof.
  destruct v; simpl; try exact I.
  - destruct (json.float64_overflow lit); exact I.
  - match goal with
    | |- context [let '(_, _) := ?x in _] => destruct x
    end. exact I.
  - match goal with
    | |- context [let '(_, _) := ?x in _] => destruct x
    end. exact I.
Qed.

(** Storing the members of an object keeps a map free of
    [map[string]string] values. *)
Lemma store_members_values (kvs : list (string * json.JSON))
    (m : gmap string any) :
  map_Forall (fun _ a => not_MapSS a) m ->
  map_Forall (fun _ a => not_MapSS a) (fst (json.store_members kvs m)).
Proof.
  revert m. induction kvs as [|kv kvs IH]; intros m Hm; [exact Hm|].
  simpl. pose proof (valueInterface_not_MapSS (snd kv)) as Hv.
  destruct (json.valueInterface (snd kv)) as [a e1]. simpl in Hv.
  specialize (IH (<[fst kv := a]> m)).
  destruct (json.store_members kvs _) as [m' e2]. simpl in *.
  apply IH. apply map_Forall_insert_2; assumption.
Qed.

Lemma Unmarshal_map_values (data : string) :
  map_Forall (fun _ a => not_MapSS a) (fst (json.Unmarshal_map data ∅)).
Proof.
  unfold json.Unmarshal_map.
  destruct (json.parse data) as [[| | | | |members]|]; simpl;
    try apply map_Forall_empty.
  apply store_members_values, map_Forall_empty.
Qed.

Lemma Token_of_response_raw (resp : http.Response) (tok : oauth2.Token) :
  jwt.Token_of_response resp = OK tok ->
  exists body, oauth2.raw tok = AMap (fst (json.Unmarshal_map body ∅)).
Proof.
  unfold jwt.Token_of_response.
  destruct (http.ReadAll_LimitReader _ _) as [body|]; [|discriminate].
  destruct (_ || _); [discriminate|].
  destruct (jwt.Unmarshal_tokenRes _ _) as [tr [e|]]; [discriminate|].
  destruct (json.Unmarshal_map body ∅) as [raw e] eqn:Hraw.
  destruct (negb _).
  - destruct (time_Parse_RFC3339 _); [|discriminate].
    intros H; inversion H; subst. exists body. rewrite Hraw. reflexivity.
  - intros H; inversion H; subst. exists body. rewrite Hraw. reflexivity.
Qed.

(** No key of the extras of a token holds a [map[string]string]. *)
Lemma Extra_not_MapSS (js : jwt.jwtSource) (w : World) (tok : oauth2.Token)
    (key : string) :
  fst (jwt.Token js w) = OK tok -> not_MapSS (oauth2.Extra tok key).
Proof.
  rewrite Token_run.
  destruct (url_Parse _); [|discriminate].
  destruct (fst (jwt.Payload _ w)); [|discriminate]. simpl.
  destruct (network w _) as [resp|]; [|discriminate].
  intros Htok. apply Token_of_response_raw in Htok as [body Hraw].
  unfold oauth2.Extra. rewrite Hraw.
  destruct (fst (json.Unmarshal_map body ∅) !! key) as [v|] eqn:Hkey;
    [|exact I].
  exact (Unmarshal_map_values body key v Hkey).
Qed.

Lemma Permissions_run (c : inst.Config) (w : World) :
  fst (inst.Permissions c w)
  = match fst (jwt.Token (jwt.mkSource (inst.config c)) w) with
    | Err err => Err (errorString ("failed to get token: " ++ Error_text err))
    | OK token =>
        match oauth2.Extra token "permissions" with
        | AMapSS pp => OK pp
        | extra =>
            Err (errorString ("failed to get permissions from extra field: "
                              ++ fmt_Sprint extra))
        end
    end.
Proof.
  unfold inst.Permissions, oauth2.reuse_Token, jwt.TokenSource,
    oauth2.ReuseTokenSource, bind, ret, time_Now. simpl.
  destruct (jwt.Token (jwt.mkSource (inst.config c)) w) as [[tok|err] w'];
    simpl; [|reflexivity].
  destruct (oauth2.Extra tok "permissions"); reflexivity.
Qed.

(** C9: for every installation configuration and every world, so for
    every response of the token endpoint, [Permissions] returns an error
    and never a permission map: the value that the generic decoding stores
    under the key permissions is never a [map[string]string], so the type
    assertion fails. *)
Theorem C9_Permissions_always_fails (c : inst.Config) (w : World) :
  (exists err, fst (inst.Permissions c w) = Err err)
  /\ (forall tok,
        fst (jwt.Token (jwt.mkSource (inst.config c)) w) = OK tok ->
        not_MapSS (oauth2.Extra tok "permissions")).
Proof.
  split; [|intros tok; apply Extra_not_MapSS].
  rewrite Permissions_run.
  destruct (fst (jwt.Token _ w)) as [tok|err] eqn:Htok; [|eexists; reflexivity].
  pose proof (Extra_not_MapSS _ _ _ "permissions" Htok) as Hnot.
  destruct (oauth2.Extra tok "permissions"); try (eexists; reflexivity).
  destruct Hnot.
Qed.

End Permissions.

(** The sample response grants two permissions in a well-formed object,
    and [Permissions] fails on it. *)
Example Permissions_of_sample :
  fst (inst.Permissions (inst.mkConfig Sample.config) Sample.world)
  = Err (errorString
           "failed to get permissions from extra field: map[contents:read issues:write]").
Proof. vm_compute. reflexivity. Qed.

(** ** The lifetime of assertions (C10) *)

Section Lifetime.
Context `{L : Libraries}.

Lemma inst_new_Expires (e : endpoint.Endpoint) (appID instID : string)
    (key : rsa.PrivateKey) (c : inst.Config) :
  inst.new e appID instID key = OK c ->
  jwt.JWT_ (inst.config c) = jwt.mkJWT appID key (10 * time.Minute)%Z.
Proof.
  unfold inst.new. destruct (endpoint.Get _ _); [|discriminate].
  intros H; inversion H; subst. reflexivity.
Qed.

(** C10: every configuration that [app.NewConfig], [inst.NewConfig],
    [inst.NewEnterpriseConfig] or [InstallationConfig] returns has an
    Expires of exactly ten minutes, and the claim set signed for an
    identity with that Expires has the expiry now plus 600 seconds; no
    constructor returns an identity with no assertion expiry. *)
Theorem C10_assertions_expire_after_ten_minutes :
  (forall id key,
      app.NewConfig id key
      = OK (app.mkConfig (jwt.mkJWT id key (10 * time.Minute)%Z)))
  /\ (forall appID instID key c,
        inst.NewConfig appID instID key = OK c ->
        jwt.JWT_ (inst.config c) = jwt.mkJWT appID key (10 * time.Minute)%Z)
  /\ (forall url appID instID key c,
        inst.NewEnterpriseConfig url appID instID key = OK c ->
        jwt.JWT_ (inst.config c) = jwt.mkJWT appID key (10 * time.Minute)%Z)
  /\ (forall a id c,
        app.InstallationConfig a id = OK c ->
        jwt.Expires (jwt.JWT_ (inst.config c)) = (10 * time.Minute)%Z)
  /\ (forall j w,
        jwt.Expires j = (10 * time.Minute)%Z ->
        jws.Exp (fst (jwt.claimSet j w)) = (time.Unix (now w) + 600)%Z).
Proof.
  split; [reflexivity|]. split.
  { intros appID instID key c. unfold inst.NewConfig.
    destruct endpoint.New; [apply inst_new_Expires | discriminate]. }
  split.
  { intros url appID instID key c. unfold inst.NewEnterpriseConfig.
    destruct (endpoint.NewEnterprise url);
      [apply inst_new_Expires | discriminate]. }
  split.
  { intros a id c. unfold app.InstallationConfig, inst.NewConfig.
    destruct endpoint.New; [|discriminate].
    intros H. apply inst_new_Expires in H. rewrite H. reflexivity. }
  intros j w Hj. rewrite claimSet_run, Hj. simpl.
  unfold time.Unix, time.Add, time.Minute, time.Second.
  replace (now w + 10 * (60 * 1000000000))%Z
    with (now w + 600 * 1000000000)%Z by lia.
  apply Z.div_add. lia.
Qed.

End Lifetime.

(** C10, witness: the installation configuration that [inst.NewConfig]
    builds with the reference libraries is the sample one, and its claim
    set at 1700000000 expires at 1700000600. *)
Lemma C10_witness :
  inst.NewConfig "1" "42" Sample.key = OK (inst.mkConfig Sample.config)
  /\ jwt.Expires (jwt.JWT_ Sample.config) = 600000000000%Z
  /\ jws.Exp (fst (jwt.claimSet (jwt.JWT_ Sample.config) Sample.world))
     = 1700000600%Z.
Proof.
  destruct (@C10_assertions_expire_after_ten_minutes GoReference.libraries)
    as (_ & Hinst & _ & _ & Hexp).
  assert (Hc : inst.NewConfig "1" "42" Sample.key
               = OK (inst.mkConfig Sample.config)) by (vm_compute; reflexivity).
  split; [exact Hc|]. split.
  - pose proof (Hinst _ _ _ _ Hc) as Hjwt.
    change (jwt.JWT_ (inst.config (inst.mkConfig Sample.config)))
      with (jwt.JWT_ Sample.config) in Hjwt.
    rewrite Hjwt. reflexivity.
  - rewrite Hexp by reflexivity. vm_compute. reflexivity.
Defined.

(** ** The request of the token exchange *)

Section Requests.
Context `{L : Libraries}.

Lemma token_request_headers (u : url.URL) (payload : string) :
  http.Header_ (token_request u payload)
  = <["Authorization" := ["Bearer " ++ payload]]>
      (<["Accept" := ["application/vnd.github.v3+json"]]> ∅).
Proof.
  unfold token_request, http.add_header. cbn [http.Header_].
  unfold http.Header_Add at 1.
  rewrite Header_Values_Add_other by by_computation.
  unfold http.Header_Add, http.Header_Values. rewrite !lookup_empty.
  reflexivity.
Qed.

(** X1: when the token URL parses and the assertion is signed, the
    exchange sends exactly one request: a POST to the parsed URL (an empty
    port removed from its host), with no body, whose headers are exactly
    Accept, with the GitHub media type, and Authorization, with "Bearer "
    plus the assertion; the result is whatever the response of that
    request gives. *)
Theorem Token_sends_one_signed_POST
    (js : jwt.jwtSource) (w : World) (u : url.URL) (payload : string) :
  url_Parse (jwt.TokenURL (jwt.conf js)) = OK u ->
  fst (jwt.Payload (jwt.JWT_ (jwt.conf js)) w) = OK payload ->
  exists req,
    sent (snd (jwt.Token js w)) = (sent w ++ [req])%list
    /\ http.Method req = "POST"
    /\ http.URL req = http.with_Host u (http.removeEmptyPort (url.Host u))
    /\ http.Body req = None
    /\ http.Header_ req
       = <["Authorization" := ["Bearer " ++ payload]]>
           (<["Accept" := ["application/vnd.github.v3+json"]]> ∅)
    /\ http.Header_Get (http.Header_ req) "authorization" = "Bearer " ++ payload
    /\ fst (jwt.Token js w)
       = match network w req with
         | Err e => Err (Errorf jwt.cannot_fetch e)
         | OK resp => jwt.Token_of_response resp
         end.
Proof.
  intros Hu Hp. exists (token_request u payload).
  rewrite Token_run, Hu, Hp. cbn [fst snd sent].
  split; [reflexivity|]. split; [reflexivity|]. split; [reflexivity|].
  split; [reflexivity|]. split; [apply token_request_headers|].
  split; [|reflexivity].
  rewrite token_request_headers. unfold http.Header_Get, http.Header_Values.
  change (http.CanonicalMIMEHeaderKey "authorization") with "Authorization".
  rewrite lookup_insert_eq. reflexivity.
Qed.

(** X2: the exchange sends nothing exactly when the token URL does not
    parse or the assertion cannot be signed; it then returns the error of
    the parser, or else of the signer, as it is, and leaves the world as it
    was.  The URL is checked first. *)
Theorem Token_fails_before_sending (js : jwt.jwtSource) (w : World) :
  (sent (snd (jwt.Token js w)) = sent w
   <-> is_OK (url_Parse (jwt.TokenURL (jwt.conf js)))
       && is_OK (fst (jwt.Payload (jwt.JWT_ (jwt.conf js)) w)) = false)
  /\ (forall e,
        url_Parse (jwt.TokenURL (jwt.conf js)) = Err e ->
        jwt.Token js w = (Err e, w))
  /\ (forall u e,
        url_Parse (jwt.TokenURL (jwt.conf js)) = OK u ->
        fst (jwt.Payload (jwt.JWT_ (jwt.conf js)) w) = Err e ->
        jwt.Token js w = (Err e, w)).
Proof.
  rewrite Token_run. split; [|split].
  - destruct (url_Parse _) as [u|e]; [|split; reflexivity].
    destruct (fst (jwt.Payload _ w)) as [p|e]; [|split; reflexivity].
    cbn [snd sent is_OK andb]. split; [|discriminate].
    intros H. symmetry in H. exfalso. exact (app_tail_neq _ _ H).
  - intros e ->. reflexivity.
  - intros u e -> ->. reflexivity.
Qed.

Lemma Token_of_response_error (resp : http.Response) (err : error) :
  jwt.Token_of_response resp = Err err ->
  exists detail, Error_text err = jwt.cannot_fetch ++ detail.
Proof.
  unfold jwt.Token_of_response.
  destruct (http.ReadAll_LimitReader _ _) as [body|e].
  2: { intros H; inversion H. eexists. reflexivity. }
  destruct (_ || _).
  { intros H; inversion H. eexists. reflexivity. }
  destruct (jwt.Unmarshal_tokenRes _ _) as [tr [e|]].
  { intros H; inversion H. eexists. reflexivity. }
  destruct (json.Unmarshal_map body ∅) as [raw e].
  destruct (negb _); [|discriminate].
  destruct (time_Parse_RFC3339 _); [discriminate|].
  intros H; inversion H. eexists. reflexivity.
Qed.

(** X3: every error that the exchange returns once it has sent its
    request reads "oauth2: cannot fetch token: " followed by a detail,
    whether the network, the reading of the body, the status, the decoding
    or the expiry failed. *)
Theorem Token_errors_after_sending
    (js : jwt.jwtSource) (w : World) (err : error) :
  fst (jwt.Token js w) = Err err ->
  sent (snd (jwt.Token js w)) <> sent w ->
  exists detail, Error_text err = "oauth2: cannot fetch token: " ++ detail.
Proof.
  rewrite Token_run.
  destruct (url_Parse _) as [u|e]; [|intros _ H; contradiction].
  destruct (fst (jwt.Payload _ w)) as [p|e]; [|intros _ H; contradiction].
  cbn [fst]. intros Herr _.
  destruct (network w _) as [resp|e].
  - exact (Token_of_response_error _ _ Herr).
  - inversion Herr. eexists. reflexivity.
Qed.

(** X4: the repositories of a configuration have no influence on the
    exchange: whatever names and ids are set, the request sent and the
    result are those of the configuration without them. *)
Theorem Token_ignores_Repositories
    (c : inst.Config) (names ids : list string) (w : World) :
  jwt.Token (jwt.mkSource (inst.config (inst.SetRepositories c names))) w
  = jwt.Token (jwt.mkSource (inst.config c)) w
  /\ jwt.Token (jwt.mkSource (inst.config (inst.SetRepositoryIDs c ids))) w
     = jwt.Token (jwt.mkSource (inst.config c)) w
  /\ (forall repos,
        jwt.Token (jwt.mkSource
                     (jwt.mkConfig (jwt.JWT_ (inst.config c)) repos
                                   (jwt.TokenURL (inst.config c)))) w
        = jwt.Token (jwt.mkSource (inst.config c)) w).
Proof.
  split; [|split]; intros; rewrite !Token_run; reflexivity.
Qed.

End Requests.

(** X1, witness: the exchange of the sample configuration. *)
Lemma Token_sends_one_signed_POST_witness :
  exists req,
    sent (snd (jwt.Token (jwt.mkSource Sample.config) Sample.world))
    = [req]
    /\ http.Method req = "POST"
    /\ url_String (http.URL req) = Sample.token_url
    /\ http.Header_Get (http.Header_ req) "authorization"
       = "Bearer " ++ Sample.assertion.
Proof.
  destruct (Token_sends_one_signed_POST (jwt.mkSource Sample.config)
              Sample.world
              (url.mkURL "https" "" None "api.github.com"
                 "/app/installations/42/access_tokens" "" false false "" "" "")
              Sample.assertion)
    as (req & Hsent & Hm & Hu & _ & _ & Hauth & _);
    [vm_compute; reflexivity | vm_compute; reflexivity |].
  exists req. split; [exact Hsent|]. split; [exact Hm|].
  split; [rewrite Hu; vm_compute; reflexivity | exact Hauth].
Defined.

(** X3, witness: the failure of jwt/config_test.go. *)
Lemma Token_errors_after_sending_witness :
  exists detail,
    Error_text (RetrieveError 400 "400 Bad Request" Sample.bad_request_body)
    = "oauth2: cannot fetch token: " ++ detail.
Proof.
  apply (Token_errors_after_sending (jwt.mkSource Sample.config)
           (Sample.world_answering Sample.bad_request)).
  - vm_compute. reflexivity.
  - intros H. apply (f_equal (@List.length _)) in H. vm_compute in H.
    discriminate.
Defined.

(** ** The decoding of the response *)

Section Decoding.
Context `{L : Libraries}.

Lemma store_string_error (v : json.JSON) (current : string) :
  snd (json.store_string v current) = None <-> string_or_null v = true.
Proof. destruct v; simpl; split; congruence. Qed.

Lemma first_error_none (e1 e2 : option error) (b1 b2 : bool) :
  (e1 = None <-> b1 = true) -> (e2 = None <-> b2 = false) ->
  json.first_error e1 e2 = None <-> negb b1 || b2 = false.
Proof.
  intros H1 H2. destruct e1 as [e1|]; cbn.
  - destruct b1; cbn; [|split; discriminate].
    destruct H1 as [_ H1]. specialize (H1 eq_refl). discriminate.
  - destruct b1; cbn; [exact H2|].
    destruct H1 as [H1 _]. specialize (H1 eq_refl). discriminate.
Qed.

(** Storing the members of an object into the three fields ends with an
    error exactly when a member is mistyped. *)
Lemma store_tokenRes_error (kvs : list (string * json.JSON)) (t : jwt.tokenRes) :
  snd (jwt.store_tokenRes kvs t) = None <-> existsb mistyped kvs = false.
Proof.
  revert t. induction kvs as [|[key v] kvs IH]; intros t; [split; reflexivity|].
  cbn [jwt.store_tokenRes existsb]. unfold mistyped at 1, names_token_field.
  cbn [fst snd].
  pose proof (store_string_error v) as Hv.
  destruct (json.selects "token" key); [|destruct (json.selects "expires_at" key);
    [|destruct (json.selects "TokenType" key)]];
    cbn [orb andb].
  - specialize (Hv (jwt.AccessToken t)).
    destruct (json.store_string v (jwt.AccessToken t)) as [s e1].
    specialize (IH (jwt.mkTokenRes s (jwt.ExpiresAt t) (jwt.TokenType t))).
    destruct (jwt.store_tokenRes kvs _) as [t'' e2]. cbn [fst snd] in *.
    apply first_error_none; assumption.
  - specialize (Hv (jwt.ExpiresAt t)).
    destruct (json.store_string v (jwt.ExpiresAt t)) as [s e1].
    specialize (IH (jwt.mkTokenRes (jwt.AccessToken t) s (jwt.TokenType t))).
    destruct (jwt.store_tokenRes kvs _) as [t'' e2]. cbn [fst snd] in *.
    apply first_error_none; assumption.
  - specialize (Hv (jwt.TokenType t)).
    destruct (json.store_string v (jwt.TokenType t)) as [s e1].
    specialize (IH (jwt.mkTokenRes (jwt.AccessToken t) (jwt.ExpiresAt t) s)).
    destruct (jwt.store_tokenRes kvs _) as [t'' e2]. cbn [fst snd] in *.
    apply first_error_none; assumption.
  - specialize (IH t).
    destruct (jwt.store_tokenRes kvs t) as [t'' e2]. cbn [fst snd] in *.
    exact IH.
Qed.

Lemma Unmarshal_tokenRes_error (body : string) (t : jwt.tokenRes) :
  snd (jwt.Unmarshal_tokenRes body t) = None
  <-> decodes_into_token_fields body = true.
Proof.
  unfold jwt.Unmarshal_tokenRes, decodes_into_token_fields.
  destruct (json.parse body) as [[| | | | |members]|]; cbn [snd];
    try (split; [discriminate | discriminate]); try (split; reflexivity).
  rewrite store_tokenRes_error, negb_true_iff. reflexivity.
Qed.

(** X5: for an exchange answered with a status in 200-299, the decoding
    of the body into the token fields fails, and the exchange with it,
    exactly when the body is not valid JSON, is a JSON value other than an
    object or null, or is an object with a member that selects token,
    expires_at or TokenType (in any letter case) and holds a value other
    than a string or null; this includes TokenType, whose value the
    exchange never uses.  When the decoding succeeds, the exchange can only
    fail on the layout of expires_at. *)
Theorem Token_decoding_failure
    (js : jwt.jwtSource) (w : World) (resp : http.Response) (body : string) :
  answered js w resp ->
  http.ReadAll_LimitReader resp (N.shiftl 1 20) = OK body ->
  (200 <= http.StatusCode resp <= 299)%Z ->
  (decodes_into_token_fields body = false ->
   exists e,
     snd (jwt.Unmarshal_tokenRes body (jwt.mkTokenRes "" "" "")) = Some e
     /\ fst (jwt.Token js w) = Err (Errorf jwt.cannot_fetch e))
  /\ (decodes_into_token_fields body = true ->
      forall err,
        fst (jwt.Token js w) = Err err ->
        exists e,
          time_Parse_RFC3339
            (jwt.ExpiresAt (fst (jwt.Unmarshal_tokenRes body
                                   (jwt.mkTokenRes "" "" ""))))
          = Err e
          /\ err = Errorf jwt.cannot_fetch e).
Proof.
  intros Hans Hread Hc. rewrite (Token_answered _ _ _ Hans).
  rewrite (Token_of_response_success _ _ Hread Hc).
  pose proof (Unmarshal_tokenRes_error body (jwt.mkTokenRes "" "" "")) as Hdec.
  destruct (jwt.Unmarshal_tokenRes body _) as [tr [e|]]; cbn [fst snd] in *.
  - split.
    + intros _. exists e. split; reflexivity.
    + intros Htrue. apply Hdec in Htrue. discriminate.
  - split.
    + intros Hfalse. destruct Hdec as [Hdec _]. rewrite Hdec in Hfalse by reflexivity.
      discriminate.
    + intros _ err. destruct (negb _); [|discriminate].
      destruct (time_Parse_RFC3339 _) as [t|e]; [discriminate|].
      intros H; inversion H. exists e. split; reflexivity.
Qed.

(** What a map holds under [name] once the members of an object are
    stored in it: the value of the last member of that name, or else what
    it held. *)
Lemma store_members_lookup (kvs : list (string * json.JSON))
    (m : gmap string any) (name : string) :
  fst (json.store_members kvs m) !! name
  = match last_member name kvs with
    | Some v => Some (fst (json.valueInterface v))
    | None => m !! name
    end.
Proof.
  revert m. induction kvs as [|[key v] kvs IH]; intros m; [reflexivity|].
  cbn [json.store_members last_member fst snd].
  destruct (json.valueInterface v) as [a e1] eqn:Hv.
  specialize (IH (<[key := a]> m)).
  destruct (json.store_members kvs _) as [m' e2]. cbn [fst] in *.
  rewrite IH. destruct (last_member name kvs); [reflexivity|].
  destruct (String.eqb_spec key name) as [->|Hne].
  - rewrite lookup_insert_eq, Hv. reflexivity.
  - rewrite lookup_insert_ne by exact Hne. reflexivity.
Qed.

Lemma Token_of_response_extras (resp : http.Response) (body : string)
    (tok : oauth2.Token) :
  http.ReadAll_LimitReader resp (N.shiftl 1 20) = OK body ->
  jwt.Token_of_response resp = OK tok ->
  oauth2.raw tok = AMap (fst (json.Unmarshal_map body ∅)).
Proof.
  intros Hread. unfold jwt.Token_of_response. rewrite Hread.
  destruct (_ || _); [discriminate|].
  destruct (jwt.Unmarshal_tokenRes _ _) as [tr [e|]]; [discriminate|].
  destruct (json.Unmarshal_map body ∅) as [raw e].
  destruct (negb _).
  - destruct (time_Parse_RFC3339 _); [|discriminate].
    intros H; inversion H; reflexivity.
  - intros H; inversion H; reflexivity.
Qed.

Lemma Extra_of_members (resp : http.Response) (body : string)
    (members : list (string * json.JSON)) (tok : oauth2.Token) (key : string) :
  http.ReadAll_LimitReader resp (N.shiftl 1 20) = OK body ->
  json.parse body = Some (json.JObject members) ->
  jwt.Token_of_response resp = OK tok ->
  oauth2.Extra tok key
  = match last_member key members with
    | Some v => fst (json.valueInterface v)
    | None => ANil
    end.
Proof.
  intros Hread Hparse Htok.
  unfold oauth2.Extra. rewrite (Token_of_response_extras _ _ _ Hread Htok).
  unfold json.Unmarshal_map. rewrite Hparse, store_members_lookup.
  rewrite lookup_empty. destruct (last_member key members); reflexivity.
Qed.

(** X6: the extra field [key] of a token fetched from an object is the
    generic decoding of the last member of the body whose name is exactly
    [key], and nil when the body has no such member: the names of extras
    are compared byte for byte, unlike those of the token fields. *)
Theorem Extra_is_last_member
    (js : jwt.jwtSource) (w : World) (resp : http.Response) (body : string)
    (members : list (string * json.JSON)) (tok : oauth2.Token) (key : string) :
  answered js w resp ->
  http.ReadAll_LimitReader resp (N.shiftl 1 20) = OK body ->
  json.parse body = Some (json.JObject members) ->
  fst (jwt.Token js w) = OK tok ->
  oauth2.Extra tok key
  = match last_member key members with
    | Some v => fst (json.valueInterface v)
    | None => ANil
    end.
Proof.
  intros Hans Hread Hparse Htok. rewrite (Token_answered _ _ _ Hans) in Htok.
  exact (Extra_of_members _ _ _ _ _ Hread Hparse Htok).
Qed.

End Decoding.

(** X5, witness: a body whose tokentype member holds a number; the
    exchange fails on it, although the type of the token is fixed. *)
Lemma Token_decoding_failure_witness :
  decodes_into_token_fields Responses.numeric_type_body = false
  /\ exists e,
       snd (jwt.Unmarshal_tokenRes Responses.numeric_type_body
              (jwt.mkTokenRes "" "" "")) = Some e
       /\ fst (jwt.Token (jwt.mkSource Sample.config)
                 (Sample.world_answering Responses.numeric_type))
          = Err (Errorf jwt.cannot_fetch e).
Proof.
  split; [vm_compute; reflexivity|].
  destruct (Token_decoding_failure (jwt.mkSource Sample.config)
              (Sample.world_answering Responses.numeric_type)
              Responses.numeric_type Responses.numeric_type_body
              (sample_answered _)) as [Hfail _].
  - vm_compute. reflexivity.
  - simpl. lia.
  - apply Hfail. vm_compute. reflexivity.
Defined.

(** X6, witness: the member TOKEN gives the token its value and is no
    extra under the name token; of the two repository_selection members the
    last one is the extra. *)
Lemma Extra_is_last_member_witness :
  exists tok,
    fst (jwt.Token (jwt.mkSource Sample.config)
           (Sample.world_answering Responses.duplicates)) = OK tok
    /\ oauth2.AccessToken tok = "v1.abc"
    /\ oauth2.Extra tok "token" = ANil
    /\ oauth2.Extra tok "repository_selection" = AString "selected".
Proof.
  assert (Htok : exists tok,
             fst (jwt.Token (jwt.mkSource Sample.config)
                    (Sample.world_answering Responses.duplicates)) = OK tok
             /\ oauth2.AccessToken tok = "v1.abc")
    by (eexists; split; vm_compute; reflexivity).
  destruct Htok as (tok & Htok & Hvalue).
  assert (Hread : http.ReadAll_LimitReader Responses.duplicates (N.shiftl 1 20)
                  = OK Responses.duplicates_body) by (vm_compute; reflexivity).
  assert (Hparse : json.parse Responses.duplicates_body
                   = Some (json.JObject
                             [("TOKEN", json.JString "v1.abc");
                              ("repository_selection", json.JString "all");
                              ("repository_selection", json.JString "selected")]))
    by (vm_compute; reflexivity).
  exists tok. split; [exact Htok|]. split; [exact Hvalue|].
  split.
  - rewrite (Extra_is_last_member _ _ _ _ _ _ "token"
               (sample_answered _) Hread Hparse Htok).
    reflexivity.
  - rewrite (Extra_is_last_member _ _ _ _ _ _ "repository_selection"
               (sample_answered _) Hread Hparse Htok).
    reflexivity.
Defined.

(** ** The queries of an installation *)

Section Queries.
Context `{L : Libraries}.

Lemma reuse_Token_first (c : jwt.Config) (w : World) :
  oauth2.reuse_Token (jwt.TokenSource c) w
  = (let r := fst (jwt.Token (jwt.mkSource c) w) in
     (r, match r with
         | OK tok => oauth2.mkReuse (jwt.Token (jwt.mkSource c)) (Some tok)
         | Err _ => jwt.TokenSource c
         end),
     snd (jwt.Token (jwt.mkSource c) w)).
Proof.
  unfold oauth2.reuse_Token, jwt.TokenSource, oauth2.ReuseTokenSource,
    bind, ret, time_Now. cbn [oauth2.t oauth2.new].
  destruct (jwt.Token (jwt.mkSource c) w) as [[tok|err] w']; reflexivity.
Qed.

(** The assertion depends on the world through its clock only. *)
Lemma Payload_clock (j : jwt.JWT) (w w' : World) :
  now w = now w' -> fst (jwt.Payload j w) = fst (jwt.Payload j w').
Proof.
  intros Hnow. rewrite !Payload_run. cbn [fst]. rewrite !claimSet_run, Hnow.
  reflexivity.
Qed.

Lemma Token_sent (js : jwt.jwtSource) (w : World) (u : url.URL) (p : string) :
  url_Parse (jwt.TokenURL (jwt.conf js)) = OK u ->
  fst (jwt.Payload (jwt.JWT_ (jwt.conf js)) w) = OK p ->
  snd (jwt.Token js w)
  = mkWorld (now w) (network w) (sent w ++ [token_request u p]).
Proof. intros Hu Hp. rewrite Token_run, Hu, Hp. reflexivity. Qed.

Lemma RepositorySelection_run (c : inst.Config) (w : World) :
  inst.RepositorySelection c w
  = (match fst (jwt.Token (jwt.mkSource (inst.config c)) w) with
     | Err err => Err (errorString ("failed to get token: " ++ Error_text err))
     | OK token =>
         match oauth2.Extra token "repository_selection" with
         | AString rs => OK rs
         | extra =>
             Err (errorString ("failed to get permissions from extra field: "
                               ++ fmt_Sprint extra))
         end
     end,
     snd (jwt.Token (jwt.mkSource (inst.config c)) w)).
Proof.
  unfold inst.RepositorySelection, bind, ret. rewrite reuse_Token_first.
  cbn [fst snd].
  destruct (fst (jwt.Token _ w)) as [tok|err]; [|reflexivity].
  destruct (oauth2.Extra tok "repository_selection"); reflexivity.
Qed.

Lemma Permissions_world (c : inst.Config) (w : World) :
  snd (inst.Permissions c w) = snd (jwt.Token (jwt.mkSource (inst.config c)) w).
Proof.
  unfold inst.Permissions, bind, ret. rewrite reuse_Token_first.
  cbn [fst snd].
  destruct (fst (jwt.Token _ w)) as [tok|err]; [|reflexivity].
  destruct (oauth2.Extra tok "permissions"); reflexivity.
Qed.

(** X7: when the exchange of an installation succeeds on a JSON object,
    [RepositorySelection] returns the string of the last member named
    repository_selection; when that member is missing or holds anything but
    a string it fails, with a message that speaks of permissions and shows
    the value found. *)
Theorem RepositorySelection_of_members
    (c : inst.Config) (w : World) (resp : http.Response) (body : string)
    (members : list (string * json.JSON)) (tok : oauth2.Token) :
  answered (jwt.mkSource (inst.config c)) w resp ->
  http.ReadAll_LimitReader resp (N.shiftl 1 20) = OK body ->
  json.parse body = Some (json.JObject members) ->
  fst (jwt.Token (jwt.mkSource (inst.config c)) w) = OK tok ->
  fst (inst.RepositorySelection c w)
  = match last_member "repository_selection" members with
    | Some (json.JString rs) => OK rs
    | Some v =>
        Err (errorString ("failed to get permissions from extra field: "
                          ++ fmt_Sprint (fst (json.valueInterface v))))
    | None =>
        Err (errorString ("failed to get permissions from extra field: "
                          ++ fmt_Sprint ANil))
    end.
Proof.
  intros Hans Hread Hparse Htok.
  rewrite RepositorySelection_run. cbn [fst]. rewrite Htok.
  rewrite (Token_answered _ _ _ Hans) in Htok.
  rewrite (Extra_of_members _ _ _ _ "repository_selection" Hread Hparse Htok).
  destruct (last_member "repository_selection" members) as [v|]; [|reflexivity].
  destruct v; cbn [json.valueInterface fst]; try reflexivity.
  - destruct (json.float64_overflow lit); reflexivity.
  - match goal with
    | |- context [let '(_, _) := ?x in _] => destruct x
    end. reflexivity.
  - match goal with
    | |- context [let '(_, _) := ?x in _] => destruct x
    end. reflexivity.
Qed.

(** X8: [Permissions] and [RepositorySelection] keep no token: in every
    world a call has the effects of a whole exchange, an error of the
    exchange comes back behind "failed to get token: ", and with a token
    URL that parses and a key that signs, one call after the other sends
    two requests. *)
Theorem inst_queries_always_exchange
    (c : inst.Config) (w : World) (u : url.URL) :
  url_Parse (jwt.TokenURL (inst.config c)) = OK u ->
  is_OK (fst (jwt.Payload (jwt.JWT_ (inst.config c)) w)) = true ->
  (forall w',
      snd (inst.Permissions c w')
      = snd (jwt.Token (jwt.mkSource (inst.config c)) w')
      /\ snd (inst.RepositorySelection c w')
         = snd (jwt.Token (jwt.mkSource (inst.config c)) w')
      /\ forall err,
           fst (jwt.Token (jwt.mkSource (inst.config c)) w') = Err err ->
           fst (inst.Permissions c w')
           = Err (errorString ("failed to get token: " ++ Error_text err))
           /\ fst (inst.RepositorySelection c w')
              = Err (errorString ("failed to get token: " ++ Error_text err)))
  /\ exists r1 r2,
       sent (snd ((let! _ := inst.Permissions c in
                   inst.RepositorySelection c)%go w))
       = (sent w ++ [r1; r2])%list.
Proof.
  intros Hu Hp. split.
  - intros w'. split; [apply Permissions_world|].
    split; [rewrite RepositorySelection_run; reflexivity|].
    intros err Herr. rewrite Permissions_run, RepositorySelection_run.
    cbn [fst]. rewrite Herr. split; reflexivity.
  - unfold bind.
    pose proof (Permissions_world c w) as Hw1.
    destruct (inst.Permissions c w) as [r w1]. cbn [snd] in Hw1. subst w1.
    rewrite RepositorySelection_run. cbn [snd].
    destruct (fst (jwt.Payload (jwt.JWT_ (inst.config c)) w)) as [p|] eqn:Hsig;
      [|discriminate].
    rewrite (Token_sent (jwt.mkSource (inst.config c)) w u p Hu Hsig).
    rewrite (Token_sent (jwt.mkSource (inst.config c)) _ u p Hu)
      by (rewrite <- Hsig; apply Payload_clock; reflexivity).
    cbn [sent]. exists (token_request u p), (token_request u p).
    rewrite <- app_assoc. reflexivity.
Qed.

End Queries.

(** X7, witness: of the two repository_selection members of the
    response, the last is returned. *)
Lemma RepositorySelection_of_members_witness :
  fst (inst.RepositorySelection (inst.mkConfig Sample.config)
         (Sample.world_answering Responses.duplicates))
  = OK "selected".
Proof.
  assert (Htok : exists tok,
             fst (jwt.Token (jwt.mkSource Sample.config)
                    (Sample.world_answering Responses.duplicates)) = OK tok)
    by (eexists; vm_compute; reflexivity).
  destruct Htok as (tok & Htok).
  assert (Hread : http.ReadAll_LimitReader Responses.duplicates (N.shiftl 1 20)
                  = OK Responses.duplicates_body) by (vm_compute; reflexivity).
  assert (Hparse : json.parse Responses.duplicates_body
                   = Some (json.JObject
                             [("TOKEN", json.JString "v1.abc");
                              ("repository_selection", json.JString "all");
                              ("repository_selection", json.JString "selected")]))
    by (vm_compute; reflexivity).
  rewrite (RepositorySelection_of_members (inst.mkConfig Sample.config)
             _ _ _ _ tok (sample_answered _) Hread Hparse Htok).
  reflexivity.
Defined.

(** X8, witness: the two queries of the sample installation, one after
    the other, send two requests. *)
Lemma inst_queries_always_exchange_witness :
  exists r1 r2,
    sent (snd ((let! _ := inst.Permissions (inst.mkConfig Sample.config) in
                inst.RepositorySelection (inst.mkConfig Sample.config))%go
                 Sample.world))
    = [r1; r2].
Proof.
  refine (proj2 (inst_queries_always_exchange (inst.mkConfig Sample.config)
                   Sample.world
                   (url.mkURL "https" "" None "api.github.com"
                      "/app/installations/42/access_tokens" "" false false
                      "" "" "") _ _)).
  - vm_compute. reflexivity.
  - vm_compute. reflexivity.
Defined.

(** ** The transport of the App, request by request *)

Section AppTransport.
Context `{L : Libraries}.

Lemma RoundTrip_request (t : jwt.transport) (r : http.Request) (w : World) :
  fst (fst (jwt.RoundTrip t r w))
  = let accepted :=
      http.add_header r "Accept" "application/vnd.github.v3+json" in
    match fst (jwt.Payload (jwt.jwt t) w) with
    | OK payload =>
        http.add_header accepted "Authorization" ("Bearer " ++ payload)
    | Err _ => accepted
    end.
Proof.
  unfold jwt.RoundTrip, bind, ret. rewrite Payload_run. cbn [fst].
  destruct (jws.Encode _ _ _); reflexivity.
Qed.

Lemma RoundTrip_world (t : jwt.transport) (r : http.Request) (w : World) :
  snd (jwt.RoundTrip t r w)
  = match fst (jwt.Payload (jwt.jwt t) w) with
    | OK _ =>
        mkWorld (now w) (network w)
          (sent w ++ [fst (fst (jwt.RoundTrip t r w))])
    | Err _ => w
    end.
Proof.
  unfold jwt.RoundTrip, bind, ret. rewrite Payload_run. cbn [fst].
  destruct (jws.Encode _ _ _); reflexivity.
Qed.

(** X9: [RoundTrip] changes the headers Accept and Authorization of the
    request and nothing else: the method, the URL, the body and the values
    of every other header are as the caller set them.  The GitHub media
    type is appended to the values of Accept before the assertion is
    signed, so also when signing fails; what is sent, if anything, is the
    request as the call leaves it. *)
Theorem RoundTrip_changes_two_headers
    (t : jwt.transport) (r : http.Request) (w : World) :
  let r' := fst (fst (jwt.RoundTrip t r w)) in
  http.Method r' = http.Method r
  /\ http.URL r' = http.URL r
  /\ http.Body r' = http.Body r
  /\ (forall key,
        http.CanonicalMIMEHeaderKey key <> "Accept" ->
        http.CanonicalMIMEHeaderKey key <> "Authorization" ->
        http.Header_Values (http.Header_ r') key
        = http.Header_Values (http.Header_ r) key)
  /\ http.Header_Values (http.Header_ r') "Accept"
     = (http.Header_Values (http.Header_ r) "Accept"
        ++ ["application/vnd.github.v3+json"])%list
  /\ (sent (snd (jwt.RoundTrip t r w)) = sent w
      \/ sent (snd (jwt.RoundTrip t r w)) = (sent w ++ [r'])%list).
Proof.
  intros r'. subst r'. rewrite RoundTrip_world, RoundTrip_request.
  cbn zeta.
  destruct (fst (jwt.Payload (jwt.jwt t) w)) as [p|e].
  - split; [reflexivity|]. split; [reflexivity|]. split; [reflexivity|].
    split; [|split; [|right; reflexivity]].
    + intros key Hacc Hauth. cbn [http.add_header http.Header_].
      rewrite !Header_Values_Add_other; [reflexivity | |];
        intros Heq; [apply Hacc | apply Hauth]; rewrite <- Heq; reflexivity.
    + cbn [http.add_header http.Header_].
      rewrite Header_Values_Add_other by by_computation.
      apply Header_Values_Add_same.
  - split; [reflexivity|]. split; [reflexivity|]. split; [reflexivity|].
    split; [|split; [|left; reflexivity]].
    + intros key Hacc Hauth. cbn [http.add_header http.Header_].
      rewrite Header_Values_Add_other; [reflexivity|].
      intros Heq. apply Hacc. rewrite <- Heq. reflexivity.
    + apply Header_Values_Add_same.
Qed.

(** X10: a request that goes through [RoundTrip] a second time carries
    both assertions: the values of Authorization are those it had, then
    that of the first call, then that of the second, so for a request that
    had none the header reads as the assertion of the first call; Accept
    holds the media type twice. *)
Theorem RoundTrip_twice_accumulates
    (t : jwt.transport) (r : http.Request) (w1 w2 : World) (p1 p2 : string) :
  fst (jwt.Payload (jwt.jwt t) w1) = OK p1 ->
  fst (jwt.Payload (jwt.jwt t) w2) = OK p2 ->
  let r1 := fst (fst (jwt.RoundTrip t r w1)) in
  let r2 := fst (fst (jwt.RoundTrip t r1 w2)) in
  http.Header_Values (http.Header_ r2) "Authorization"
  = (http.Header_Values (http.Header_ r) "Authorization"
     ++ [("Bearer " ++ p1)%string; ("Bearer " ++ p2)%string])%list
  /\ (http.Header_Values (http.Header_ r) "Authorization" = [] ->
      http.Header_Get (http.Header_ r2) "Authorization" = "Bearer " ++ p1)
  /\ http.Header_Values (http.Header_ r2) "Accept"
     = (http.Header_Values (http.Header_ r) "Accept"
        ++ ["application/vnd.github.v3+json";
            "application/vnd.github.v3+json"])%list
  /\ sent (snd (jwt.RoundTrip t r1 w2)) = (sent w2 ++ [r2])%list.
Proof.
  intros Hp1 Hp2 r1 r2.
  assert (Hauth : http.Header_Values (http.Header_ r2) "Authorization"
                  = (http.Header_Values (http.Header_ r) "Authorization"
                     ++ [("Bearer " ++ p1)%string; ("Bearer " ++ p2)%string])%list).
  { subst r2 r1. rewrite !RoundTrip_request, Hp1, Hp2. cbn zeta.
    rewrite !Authorization_after_headers, <- app_assoc. reflexivity. }
  split; [exact Hauth|]. split; [|split].
  - intros Hnone. unfold http.Header_Get. rewrite Hauth, Hnone. reflexivity.
  - subst r2 r1. rewrite !RoundTrip_request, Hp1, Hp2. cbn zeta.
    cbn [http.add_header http.Header_].
    rewrite (Header_Values_Add_other _ "Authorization" "Accept")
      by by_computation.
    rewrite Header_Values_Add_same.
    rewrite (Header_Values_Add_other _ "Authorization" "Accept")
      by by_computation.
    rewrite Header_Values_Add_same, <- app_assoc. reflexivity.
  - rewrite RoundTrip_world, Hp2. reflexivity.
Qed.

(** X11: the expiry that [Payload] claims for a positive [Expires] is the
    instant now plus [Expires] cut down to whole seconds: it is never after
    that instant and less than a second before it, and it moves forward
    with the clock. *)
Theorem Payload_expiry_bounds (j : jwt.JWT) (w : World) :
  (0 < jwt.Expires j)%Z ->
  let exp := jws.Exp (fst (jwt.claimSet j w)) in
  (exp * time.Second <= now w + jwt.Expires j < (exp + 1) * time.Second)%Z
  /\ (time.Unix (now w) <= exp)%Z
  /\ (forall w', (now w <= now w')%Z ->
                 (exp <= jws.Exp (fst (jwt.claimSet j w')))%Z).
Proof.
  intros Hpos exp. subst exp. rewrite claimSet_run.
  destruct (Z.ltb_spec 0 (jwt.Expires j)) as [_|]; [|lia].
  cbn [jws.Exp]. unfold time.Unix, time.Add, time.Second.
  split; [|split].
  - pose proof (Z.mul_div_le (now w + jwt.Expires j) 1000000000 ltac:(lia)).
    pose proof (Z.mul_succ_div_gt (now w + jwt.Expires j) 1000000000 ltac:(lia)).
    lia.
  - apply Z.div_le_mono; lia.
  - intros w' Hw'. rewrite claimSet_run.
    destruct (Z.ltb_spec 0 (jwt.Expires j)) as [_|]; [|lia].
    cbn [jws.Exp]. unfold time.Unix, time.Add, time.Second.
    apply Z.div_le_mono; lia.
Qed.

End AppTransport.

(** X10, witness: the sample request sent twice by the App, a second
    apart: the header reads as the first assertion, which expires a second
    before the second one. *)
Lemma RoundTrip_twice_accumulates_witness :
  exists p2 r2,
    fst (jwt.Payload Sample.identity Responses.a_second_later)
    = OK p2
    /\ String.eqb p2 Sample.assertion = false
    /\ fst (fst (jwt.RoundTrip (jwt.Client Sample.identity)
                   (fst (fst (jwt.RoundTrip (jwt.Client Sample.identity)
                                Sample.request Sample.world)))
                   Responses.a_second_later))
       = r2
    /\ http.Header_Values (http.Header_ r2) "Authorization"
       = [("Bearer " ++ Sample.assertion)%string; ("Bearer " ++ p2)%string]
    /\ http.Header_Get (http.Header_ r2) "Authorization"
       = "Bearer " ++ Sample.assertion.
Proof.
  assert (Hp2 : exists p2,
             fst (jwt.Payload Sample.identity Responses.a_second_later)
             = OK p2
             /\ String.eqb p2 Sample.assertion = false)
    by (eexists; split; vm_compute; reflexivity).
  destruct Hp2 as (p2 & Hp2 & Hdiff).
  destruct (RoundTrip_twice_accumulates (jwt.Client Sample.identity)
              Sample.request Sample.world
              Responses.a_second_later
              Sample.assertion p2)
    as (Hvalues & Hget & _); [vm_compute; reflexivity | exact Hp2 |].
  exists p2. eexists. split; [exact Hp2|]. split; [exact Hdiff|].
  split; [reflexivity|].
  split; [exact Hvalues | apply Hget; reflexivity].
Defined.

(** X11, witness: at the sample instant, 123456789 ns into its second,
    an assertion of ten minutes expires at the whole second 1700000600. *)
Lemma Payload_expiry_bounds_witness :
  jws.Exp (fst (jwt.claimSet Sample.identity Sample.world)) = 1700000600%Z
  /\ (1700000600 * time.Second
      <= now Sample.world + jwt.Expires Sample.identity
      < 1700000601 * time.Second)%Z.
Proof.
  assert (Hexp : jws.Exp (fst (jwt.claimSet Sample.identity Sample.world))
                 = 1700000600%Z) by (vm_compute; reflexivity).
  split; [exact Hexp|].
  destruct (Payload_expiry_bounds Sample.identity Sample.world)
    as (Hbounds & _); [vm_compute; reflexivity|].
  rewrite Hexp in Hbounds. exact Hbounds.
Defined.

(** ** The token source *)

Section Caching.
Context `{L : Libraries}.

(** A token is valid when it has a value and either no expiry or an
    expiry that is at least ten seconds away. *)
Lemma Valid_iff (tok : oauth2.Token) (n : time.Time) :
  oauth2.Valid (Some tok) n = true
  <-> oauth2.AccessToken tok <> ""
      /\ (oauth2.Expiry tok = time.zero
          \/ (n <= oauth2.Expiry tok - 10 * time.Second)%Z).
Proof.
  unfold oauth2.Valid, oauth2.expired, time.IsZero, time.Add,
    oauth2.defaultExpiryDelta.
  rewrite andb_true_iff, !negb_true_iff, String.eqb_neq.
  destruct (Z.eqb_spec (oauth2.Expiry tok) time.zero) as [Hz|Hz].
  - split; intros [Hv _]; (split; [exact Hv|]); [left; exact Hz | reflexivity].
  - rewrite Z.ltb_ge. split; intros [Hv He]; (split; [exact Hv|]).
    + right. lia.
    + destruct He as [He|He]; [contradiction | lia].
Qed.

Lemma reuse_Token_held (src : M (Result oauth2.Token)) (tok : oauth2.Token)
    (w : World) :
  oauth2.reuse_Token (oauth2.mkReuse src (Some tok)) w
  = if oauth2.Valid (Some tok) (now w)
    then ((OK tok, oauth2.mkReuse src (Some tok)), w)
    else (let r := fst (src w) in
          (r, match r with
              | OK tok' => oauth2.mkReuse src (Some tok')
              | Err _ => oauth2.mkReuse src (Some tok)
              end),
          snd (src w)).
Proof.
  unfold oauth2.reuse_Token, bind, ret, time_Now. cbn [oauth2.t oauth2.new].
  destruct (oauth2.Valid (Some tok) (now w)); [reflexivity|].
  destruct (src w) as [[tok'|err] w']; reflexivity.
Qed.

(** X12: the token source of a configuration fetches its first token by
    an exchange and then hands out that token, without an exchange and
    without a request, for as long as the token has a value and either no
    expiry or an expiry at least ten seconds away; from then on a call runs
    a new exchange.  A token with no expires_at is thus kept for ever. *)
Theorem TokenSource_reuses_until_expiry
    (c : jwt.Config) (w : World) (tok : oauth2.Token)
    (s1 : oauth2.reuseTokenSource) (w2 : World) :
  fst (oauth2.reuse_Token (jwt.TokenSource c) w) = (OK tok, s1) ->
  let fresh :=
    oauth2.AccessToken tok <> ""
    /\ (oauth2.Expiry tok = time.zero
        \/ (now w2 <= oauth2.Expiry tok - 10 * time.Second)%Z) in
  fst (jwt.Token (jwt.mkSource c) w) = OK tok
  /\ snd (oauth2.reuse_Token (jwt.TokenSource c) w)
     = snd (jwt.Token (jwt.mkSource c) w)
  /\ (fresh -> oauth2.reuse_Token s1 w2 = ((OK tok, s1), w2))
  /\ (~ fresh ->
      fst (fst (oauth2.reuse_Token s1 w2)) = fst (jwt.Token (jwt.mkSource c) w2)
      /\ snd (oauth2.reuse_Token s1 w2) = snd (jwt.Token (jwt.mkSource c) w2)).
Proof.
  intros Hfirst fresh. rewrite reuse_Token_first in *. cbn [fst snd] in *.
  destruct (fst (jwt.Token (jwt.mkSource c) w)) as [tok'|err] eqn:Htok;
    [|discriminate].
  inversion Hfirst; subst tok' s1. clear Hfirst.
  split; [reflexivity|]. split; [reflexivity|].
  rewrite reuse_Token_held. pose proof (Valid_iff tok (now w2)) as Hvalid.
  destruct (oauth2.Valid (Some tok) (now w2)).
  - split; [reflexivity|]. intros Hnot. exfalso. apply Hnot, Hvalid. reflexivity.
  - split.
    + intros Hfresh. apply Hvalid in Hfresh. discriminate.
    + intros _. split; reflexivity.
Qed.

(** X13: a response with a status in 200-299 whose body is null, or an
    object that gives no string to token and none to expires_at, is no
    error: the exchange returns a token whose value is empty.  Such a token
    is valid at no instant, so a token source that holds it runs an
    exchange at every call. *)
Theorem Token_without_value
    (js : jwt.jwtSource) (w : World) (resp : http.Response) (body : string) :
  answered js w resp ->
  http.ReadAll_LimitReader resp (N.shiftl 1 20) = OK body ->
  (200 <= http.StatusCode resp <= 299)%Z ->
  decodes_into_token_fields body = true ->
  (forall members,
      json.parse body = Some (json.JObject members) ->
      field_text "token" members = "" /\ field_text "expires_at" members = "") ->
  exists tok,
    fst (jwt.Token js w) = OK tok
    /\ oauth2.AccessToken tok = ""
    /\ (forall n, oauth2.Valid (Some tok) n = false)
    /\ (forall src w2,
          fst (fst (oauth2.reuse_Token (oauth2.mkReuse src (Some tok)) w2))
          = fst (src w2)
          /\ snd (oauth2.reuse_Token (oauth2.mkReuse src (Some tok)) w2)
             = snd (src w2)).
Proof.
  intros Hans Hread Hc Hdec Hfields.
  rewrite (Token_answered _ _ _ Hans).
  rewrite (Token_of_response_success _ _ Hread Hc).
  assert (Htr : exists tr,
             jwt.Unmarshal_tokenRes body (jwt.mkTokenRes "" "" "") = (tr, None)
             /\ jwt.AccessToken tr = "" /\ jwt.ExpiresAt tr = "").
  { pose proof (proj2 (Unmarshal_tokenRes_error body (jwt.mkTokenRes "" "" ""))
                  Hdec) as Hnone.
    revert Hnone. unfold jwt.Unmarshal_tokenRes, decodes_into_token_fields in *.
    destruct (json.parse body) as [[| | | | |members]|]; try discriminate.
    - intros _. eexists. split; [reflexivity|]. split; reflexivity.
    - intros Hnone. destruct (Hfields members eq_refl) as [Ht He].
      pose proof (store_tokenRes_fields members (jwt.mkTokenRes "" "" ""))
        as (Ha & Hb & _).
      destruct (jwt.store_tokenRes members _) as [tr e]. cbn [fst snd] in *.
      subst e. exists tr. split; [reflexivity|].
      split; [rewrite Ha; exact Ht | rewrite Hb; exact He]. }
  destruct Htr as (tr & -> & Hvalue & Hexp). rewrite Hexp. cbn [String.eqb negb].
  eexists. split; [reflexivity|]. cbn [oauth2.AccessToken].
  split; [exact Hvalue|].
  assert (Hinvalid : forall n,
             oauth2.Valid
               (Some (oauth2.mkToken (jwt.AccessToken tr) "token" "" time.zero
                        (AMap (fst (json.Unmarshal_map body ∅))))) n = false).
  { intros n. unfold oauth2.Valid. cbn [oauth2.AccessToken]. rewrite Hvalue.
    reflexivity. }
  split; [exact Hinvalid|].
  intros src w2. rewrite reuse_Token_held, Hinvalid. split; reflexivity.
Qed.

End Caching.

(** X12, witness: a token that expires an hour after the sample instant
    is handed out again a second later, with no request, and is fetched
    anew five seconds before its expiry. *)
Lemma TokenSource_reuses_until_expiry_witness :
  exists tok s1,
    fst (oauth2.reuse_Token (jwt.TokenSource Sample.config)
           (Sample.world_answering Responses.hour)) = (OK tok, s1)
    /\ oauth2.Expiry tok = 1700003600000000000%Z
    /\ oauth2.reuse_Token s1 Responses.a_second_later
       = ((OK tok, s1), Responses.a_second_later)
    /\ List.length (sent (snd (oauth2.reuse_Token s1 Responses.near_expiry)))
       = 1%nat.
Proof.
  assert (Htok : exists tok,
             fst (jwt.Token (jwt.mkSource Sample.config)
                    (Sample.world_answering Responses.hour)) = OK tok
             /\ oauth2.Expiry tok = 1700003600000000000%Z
             /\ String.eqb (oauth2.AccessToken tok) "" = false)
    by (eexists; split; [|split]; vm_compute; reflexivity).
  destruct Htok as (tok & Htok & Hexp & Hvalue).
  exists tok, (oauth2.mkReuse (jwt.Token (jwt.mkSource Sample.config)) (Some tok)).
  assert (Hfirst : fst (oauth2.reuse_Token (jwt.TokenSource Sample.config)
                          (Sample.world_answering Responses.hour))
                   = (OK tok, oauth2.mkReuse
                                (jwt.Token (jwt.mkSource Sample.config))
                                (Some tok))).
  { rewrite reuse_Token_first. cbn [fst]. rewrite Htok. reflexivity. }
  split; [exact Hfirst|]. split; [exact Hexp|]. split.
  - destruct (TokenSource_reuses_until_expiry _ _ _ _ Responses.a_second_later
                Hfirst) as (_ & _ & Hfresh & _).
    apply Hfresh. split; [apply String.eqb_neq; exact Hvalue|].
    right. rewrite Hexp. vm_compute. discriminate.
  - destruct (TokenSource_reuses_until_expiry _ _ _ _ Responses.near_expiry
                Hfirst) as (_ & _ & _ & Hstale).
    destruct Hstale as [_ Hworld].
    + intros [_ [Hzero|Hle]]; rewrite Hexp in *.
      * vm_compute in Hzero. discriminate.
      * vm_compute in Hle. apply Hle. reflexivity.
    + rewrite Hworld. vm_compute. reflexivity.
Defined.

(** X13, witness: the response 201 with an empty object. *)
Lemma Token_without_value_witness :
  exists tok,
    fst (jwt.Token (jwt.mkSource Sample.config)
           (Sample.world_answering Responses.empty_object)) = OK tok
    /\ oauth2.AccessToken tok = ""
    /\ oauth2.Valid (Some tok) Sample.clock = false.
Proof.
  destruct (Token_without_value (jwt.mkSource Sample.config)
              (Sample.world_answering Responses.empty_object)
              Responses.empty_object "{}" (sample_answered _))
    as (tok & Htok & Hvalue & Hinvalid & _).
  - vm_compute. reflexivity.
  - simpl. lia.
  - vm_compute. reflexivity.
  - intros members Hparse. vm_compute in Hparse. inversion Hparse.
    split; reflexivity.
  - exists tok. split; [exact Htok|]. split; [exact Hvalue | apply Hinvalid].
Defined.

(** ** The client of an installation *)

Section InstallationClient.
Context `{L : Libraries}.

Lemma Token_frame (js : jwt.jwtSource) (w : World) :
  now (snd (jwt.Token js w)) = now w
  /\ network (snd (jwt.Token js w)) = network w.
Proof.
  rewrite Token_run.
  destruct (url_Parse _); [|split; reflexivity].
  destruct (fst (jwt.Payload _ w)); split; reflexivity.
Qed.

(** The type of every token of the exchange is the literal token. *)
Lemma Token_of_response_type (resp : http.Response) (tok : oauth2.Token) :
  jwt.Token_of_response resp = OK tok -> oauth2.TokenType tok = "token".
Proof.
  unfold jwt.Token_of_response.
  destruct (http.ReadAll_LimitReader _ _) as [body|]; [|discriminate].
  destruct (_ || _); [discriminate|].
  destruct (jwt.Unmarshal_tokenRes _ _) as [tr [e|]]; [discriminate|].
  destruct (json.Unmarshal_map body ∅) as [raw e].
  destruct (negb _).
  - destruct (time_Parse_RFC3339 _); [|discriminate].
    intros H; inversion H; reflexivity.
  - intros H; inversion H; reflexivity.
Qed.

Lemma Token_type (js : jwt.jwtSource) (w : World) (tok : oauth2.Token) :
  fst (jwt.Token js w) = OK tok -> oauth2.TokenType tok = "token".
Proof.
  rewrite Token_run.
  destruct (url_Parse _); [|discriminate].
  destruct (fst (jwt.Payload _ w)); [|discriminate]. cbn [fst].
  destruct (network w _) as [resp|]; [|discriminate].
  apply Token_of_response_type.
Qed.

Lemma SetAuthHeader_values (tok : oauth2.Token) (req : http.Request) :
  oauth2.TokenType tok = "token" ->
  http.Header_Values (http.Header_ (oauth2_transport.SetAuthHeader tok req))
    "Authorization"
  = [("token " ++ oauth2.AccessToken tok)%string]
  /\ (forall key,
        http.CanonicalMIMEHeaderKey key <> "Authorization" ->
        http.Header_Values
          (http.Header_ (oauth2_transport.SetAuthHeader tok req)) key
        = http.Header_Values (http.Header_ req) key).
Proof.
  intros Htype. unfold oauth2_transport.SetAuthHeader,
    oauth2_transport.Header_Set, oauth2_transport.Type_, http.Header_Values.
  cbn [http.Header_]. rewrite Htype. split.
  - rewrite lookup_insert_eq. reflexivity.
  - intros key Hkey. rewrite lookup_insert_ne; [reflexivity|].
    intros Heq. apply Hkey. rewrite <- Heq. reflexivity.
Qed.

(** X14: a request through the client of an installation whose
    exchange succeeds is sent after the request of the exchange, as a copy
    whose Authorization header is exactly "token " plus the value of the
    token, in place of whatever values the header had; the method, the URL,
    the body and the other headers are those of the caller.  A later
    request through the same client, at an instant where the token is
    still valid, is sent in the same way with no exchange before it. *)
Theorem installation_client_authorizes
    (c : inst.Config) (req : http.Request) (w : World) (tok : oauth2.Token) :
  fst (jwt.Token (jwt.mkSource (inst.config c)) w) = OK tok ->
  let w1 := snd (jwt.Token (jwt.mkSource (inst.config c)) w) in
  let req2 := oauth2_transport.SetAuthHeader tok req in
  let client :=
    oauth2_transport.mkTransport
      (oauth2.mkReuse (jwt.Token (jwt.mkSource (inst.config c))) (Some tok)) in
  oauth2_transport.RoundTrip (inst_Config.Client c) req w
  = ((network w req2, client),
     mkWorld (now w) (network w) (sent w1 ++ [req2])%list)
  /\ http.Header_Values (http.Header_ req2) "Authorization"
     = [("token " ++ oauth2.AccessToken tok)%string]
  /\ http.Method req2 = http.Method req
  /\ http.URL req2 = http.URL req
  /\ http.Body req2 = http.Body req
  /\ (forall key,
        http.CanonicalMIMEHeaderKey key <> "Authorization" ->
        http.Header_Values (http.Header_ req2) key
        = http.Header_Values (http.Header_ req) key)
  /\ (forall req' w',
        oauth2.Valid (Some tok) (now w') = true ->
        let req2' := oauth2_transport.SetAuthHeader tok req' in
        oauth2_transport.RoundTrip client req' w'
        = ((network w' req2', client),
           mkWorld (now w') (network w') (sent w' ++ [req2'])%list)).
Proof.
  intros Htok w1 req2 client.
  pose proof (Token_type _ _ _ Htok) as Htype.
  destruct (SetAuthHeader_values tok req Htype) as [Hauth Hother].
  split; [|split; [exact Hauth|]].
  - unfold oauth2_transport.RoundTrip, inst_Config.Client, jwt_Config.Client,
      oauth2_transport.NewClient, bind, ret.
    cbn [oauth2_transport.Source]. rewrite reuse_Token_first.
    cbn [fst snd]. rewrite Htok. cbn [fst snd]. rewrite dispatch_run.
    destruct (Token_frame (jwt.mkSource (inst.config c)) w) as [-> ->].
    reflexivity.
  - split; [reflexivity|]. split; [reflexivity|]. split; [reflexivity|].
    split; [exact Hother|].
    intros req' w' Hvalid req2'.
    unfold oauth2_transport.RoundTrip, bind, ret. subst client.
    cbn [oauth2_transport.Source]. rewrite reuse_Token_held, Hvalid.
    cbn [fst snd]. reflexivity.
Qed.

(** X15: when the exchange fails, a request through the client of the
    installation is not sent: [RoundTrip] returns the error of the exchange
    as it is, the only request that may have gone out is that of the
    exchange, and the client is left without a token. *)
Theorem installation_client_sends_nothing_unauthorized
    (c : inst.Config) (req : http.Request) (w : World) (err : error) :
  fst (jwt.Token (jwt.mkSource (inst.config c)) w) = Err err ->
  oauth2_transport.RoundTrip (inst_Config.Client c) req w
  = ((Err err, inst_Config.Client c),
     snd (jwt.Token (jwt.mkSource (inst.config c)) w))
  /\ (sent (snd (oauth2_transport.RoundTrip (inst_Config.Client c) req w))
      = sent w
      \/ exists u payload,
           sent (snd (oauth2_transport.RoundTrip (inst_Config.Client c) req w))
           = (sent w ++ [token_request u payload])%list).
Proof.
  intros Herr.
  assert (Hrun : oauth2_transport.RoundTrip (inst_Config.Client c) req w
                 = ((Err err, inst_Config.Client c),
                    snd (jwt.Token (jwt.mkSource (inst.config c)) w))).
  { unfold oauth2_transport.RoundTrip, inst_Config.Client, jwt_Config.Client,
      oauth2_transport.NewClient, bind, ret.
    cbn [oauth2_transport.Source]. rewrite reuse_Token_first.
    cbn [fst snd]. rewrite Herr. reflexivity. }
  split; [exact Hrun|]. rewrite Hrun. cbn [snd].
  rewrite Token_run.
  destruct (url_Parse _) as [u|]; [|left; reflexivity].
  destruct (fst (jwt.Payload _ w)) as [p|]; [|left; reflexivity].
  right. exists u, p. reflexivity.
Qed.

(** X16: an installation configuration made from an App configuration
    has the identity of the App (its id, key and lifetime, so it signs the
    same assertions), no repositories, and a token URL resolved against the
    default endpoint, whatever endpoint the App is used with. *)
Theorem InstallationConfig_keeps_identity
    (id instID : string) (key : rsa.PrivateKey) (a : app.Config)
    (c : inst.Config) :
  app.NewConfig id key = OK a ->
  app.InstallationConfig a instID = OK c ->
  jwt.JWT_ (inst.config c) = app.jwt a
  /\ (forall w, jwt.Payload (jwt.JWT_ (inst.config c)) w
                = jwt.Payload (jwt.jwt (app.Client a)) w)
  /\ jwt.Repositories_ (inst.config c) = jwt.mkRepositories [] []
  /\ exists base u,
       url_Parse endpoint.Default = OK base
       /\ url_ParseRequestURI
            ("/app/installations/" ++ instID ++ "/access_tokens") = OK u
       /\ jwt.TokenURL (inst.config c)
          = url_String (url_ResolveReference base u).
Proof.
  intros Ha Hc. inversion Ha; subst a. clear Ha.
  unfold app.InstallationConfig, inst.NewConfig, endpoint.New, endpoint.new,
    inst.new, endpoint.Get in Hc. cbn [app.jwt jwt.AppID jwt.PrivateKey] in Hc.
  destruct (url_Parse endpoint.Default) as [base|]; [|discriminate].
  destruct (url_ParseRequestURI _) as [u|]; [|discriminate].
  inversion Hc; subst c. clear Hc. cbn.
  split; [reflexivity|]. split; [reflexivity|]. split; [reflexivity|].
  exists base, u. split; [reflexivity|]. split; reflexivity.
Qed.

End InstallationClient.

(** X14, witness: the sample request through the client of the sample
    installation goes out second, with the token of the response. *)
Lemma installation_client_authorizes_witness :
  exists exchange req2,
    sent (snd (oauth2_transport.RoundTrip
                 (inst_Config.Client (inst.mkConfig Sample.config))
                 Sample.request_with_credentials Sample.world))
    = [exchange; req2]
    /\ http.Header_Values (http.Header_ req2) "Authorization"
       = ["token v1.abc"].
Proof.
  assert (Htok : exists tok,
             fst (jwt.Token (jwt.mkSource Sample.config) Sample.world) = OK tok
             /\ oauth2.AccessToken tok = "v1.abc")
    by (eexists; split; vm_compute; reflexivity).
  destruct Htok as (tok & Htok & Hvalue).
  destruct (installation_client_authorizes (inst.mkConfig Sample.config)
              Sample.request_with_credentials Sample.world tok Htok)
    as (Hrun & Hauth & _).
  rewrite Hvalue in Hauth. rewrite Hrun. cbn [snd sent].
  eexists _, _. split; [|exact Hauth].
  rewrite (Token_sent (jwt.mkSource Sample.config) Sample.world _
             Sample.assertion)
    by (vm_compute; reflexivity).
  reflexivity.
Defined.

(** X15, witness: the token endpoint answers 400; the sample request is
    not sent. *)
Lemma installation_client_sends_nothing_unauthorized_witness :
  fst (fst (oauth2_transport.RoundTrip
              (inst_Config.Client (inst.mkConfig Sample.config))
              Sample.request (Sample.world_answering Sample.bad_request)))
  = Err (RetrieveError 400 "400 Bad Request" Sample.bad_request_body)
  /\ List.length
       (sent (snd (oauth2_transport.RoundTrip
                     (inst_Config.Client (inst.mkConfig Sample.config))
                     Sample.request
                     (Sample.world_answering Sample.bad_request))))
     = 1%nat.
Proof.
  destruct (installation_client_sends_nothing_unauthorized
              (inst.mkConfig Sample.config) Sample.request
              (Sample.world_answering Sample.bad_request)
              (RetrieveError 400 "400 Bad Request" Sample.bad_request_body))
    as [Hrun _]; [vm_compute; reflexivity|].
  rewrite Hrun. split; [reflexivity | vm_compute; reflexivity].
Defined.

(** X16, witness: installation 42 of the sample App. *)
Lemma InstallationConfig_keeps_identity_witness :
  exists c,
    app.InstallationConfig (app.mkConfig Sample.identity) "42" = OK c
    /\ jwt.JWT_ (inst.config c) = Sample.identity
    /\ jwt.TokenURL (inst.config c) = Sample.token_url.
Proof.
  assert (Hc : app.InstallationConfig (app.mkConfig Sample.identity) "42"
               = OK (inst.mkConfig Sample.config))
    by (vm_compute; reflexivity).
  destruct (InstallationConfig_keeps_identity "1" "42" Sample.key
              (app.mkConfig Sample.identity) (inst.mkConfig Sample.config))
    as (Hid & _); [reflexivity | exact Hc |].
  exists (inst.mkConfig Sample.config).
  split; [exact Hc|]. split; [exact Hid | reflexivity].
Defined.
